(** * Saverr backend: transaction sync, analytics rollups and goal progress

    A shallow embedding of the Python Lambda handlers under [lambdas/]:
    - [shared/database.py]   (repositories over the DynamoDB tables),
    - [shared/validation.py] (request helpers),
    - [accounts/sync_transactions.py],
    - [analytics/get_cash_flow.py], [get_spending_by_category.py],
      [get_budget_comparison.py], [get_savings_progress.py],
    - [goals/create_goal.py], [update_goal.py], [contribute_to_goal.py].

    Conventions of the embedding.
    - Python numbers (JSON numbers, [Decimal] attributes) are exact rationals
      [Qc]; [round(x, n)] is decimal rounding, ties to even.
    - A [dict] with a fixed set of keys is a record; a field of type
      [option _] is [None] when the key is absent (or holds [None]).
    - A DynamoDB table is a [gmap] from (pk, sk) to items; a Python [dict]
      used as an accumulator keeps its insertion order and is an
      association list.
    - Exceptions are the [Raised] case of [reply]; calls that leave the
      process (DynamoDB, the aggregator, the clock, [uuid4]) are answered by
      oracles that the handlers take as arguments. *)

From Stdlib Require Import Ascii String QArith Qcanon Qround Qabs Lqa Lia.
From Stdlib Require OrderedTypeEx.
From stdpp Require Import base tactics option list numbers strings pretty
  gmap fin_maps sorting.

Local Open Scope Z_scope.
Local Open Scope string_scope.

(* ===================================================================== *)
(** * Numbers *)
(* ===================================================================== *)

Module Num.

Local Open Scope Qc_scope.

  (** [int] literals and integer values used as numbers. *)
Definition of_Z (n : Z) : Qc := Q2Qc (inject_Z n).

Definition abs (x : Qc) : Qc := Q2Qc (Qabs x).

  (** Python's [x > y], [x >= y], [x <= y] on numbers. *)
Definition gtb (x y : Qc) : bool := bool_decide (y < x).
Definition geb (x y : Qc) : bool := bool_decide (y ≤ x).
Definition leb (x y : Qc) : bool := bool_decide (x ≤ y).

  (** Nearest integer to [q], ties to the even one. *)
Definition round_half_even (q : Q) : Z :=
    let f := Qfloor q in
    match Qcompare (q - inject_Z f) (1 # 2) with
    | Lt => f
    | Gt => (f + 1)%Z
    | Eq => if Z.even f then f else (f + 1)%Z
    end.

  (** [round(x, ndigits)]. *)
Definition round (x : Qc) (ndigits : nat) : Qc :=
    let scale := inject_Z (10 ^ Z.of_nat ndigits) in
    Q2Qc (inject_Z (round_half_even (x * scale)) / scale).

  (** [int(x)]: truncation towards zero. *)
Definition trunc (x : Qc) : Z := Qnum x ÷ Zpos (Qden x).

  (** [sum(xs)]. *)
Definition sum (xs : list Qc) : Qc := foldr Qcplus 0 xs.

End Num.

(* ===================================================================== *)
(** * Strings *)
(* ===================================================================== *)

Module Str.

Definition is_lower (c : ascii) : bool :=
    let n := nat_of_ascii c in (97 <=? n)%nat && (n <=? 122)%nat.
Definition is_upper (c : ascii) : bool :=
    let n := nat_of_ascii c in (65 <=? n)%nat && (n <=? 90)%nat.
Definition is_digit (c : ascii) : bool :=
    let n := nat_of_ascii c in (48 <=? n)%nat && (n <=? 57)%nat.
  (** The ASCII white space of [str.strip()] and [int()]. *)
Definition is_space (c : ascii) : bool :=
    let n := nat_of_ascii c in
    ((9 <=? n)%nat && (n <=? 13)%nat) || ((28 <=? n)%nat && (n <=? 32)%nat).

Definition to_upper (c : ascii) : ascii :=
    if is_lower c then ascii_of_nat (nat_of_ascii c - 32) else c.
Definition to_lower (c : ascii) : ascii :=
    if is_upper c then ascii_of_nat (nat_of_ascii c + 32) else c.

Fixpoint map (f : ascii -> ascii) (s : string) : string :=
    match s with
    | EmptyString => EmptyString
    | String c s' => String (f c) (map f s')
    end.

  (** [s.upper()], [s.lower()] on ASCII text. *)
Definition upper : string -> string := map to_upper.
Definition lower : string -> string := map to_lower.

  (** [s.replace(a, b)] for single characters. *)
Definition replace_char (a b : ascii) : string -> string :=
    map (fun c => if Ascii.eqb c a then b else c).

  (** [s.title()]: a letter that follows a non-letter is upper-cased, every
      other letter is lower-cased. *)
Fixpoint title_from (prev_cased : bool) (s : string) : string :=
    match s with
    | EmptyString => EmptyString
    | String c s' =>
        let cased := is_lower c || is_upper c in
        String (if prev_cased then to_lower c else to_upper c)
               (title_from cased s')
    end.
Definition title : string -> string := title_from false.

  (** [s[:n]]. *)
Definition take (n : nat) (s : string) : string := String.substring 0 n s.

  (** [a <= b], [a < b] on [str]: lexicographic on code units. *)
Definition leb (a b : string) : bool := String.leb a b.
Definition ltb (a b : string) : bool := String.ltb a b.

  (** [not s] for a [str]. *)
Definition is_empty (s : string) : bool :=
    match s with EmptyString => true | _ => false end.

Fixpoint drop_while (p : ascii -> bool) (s : string) : string :=
    match s with
    | String c s' => if p c then drop_while p s' else s
    | EmptyString => EmptyString
    end.

  (** [s.strip()]. *)
Definition strip (s : string) : string :=
    String.rev (drop_while is_space (String.rev (drop_while is_space s))).

Definition all (p : ascii -> bool) (s : string) : bool :=
    forallb p (list_ascii_of_string s).

End Str.

(* ===================================================================== *)
(** * Exceptions and replies *)
(* ===================================================================== *)

(** The exception classes the handlers distinguish, with [str(e)]. *)
Inductive exn :=
| ValueError (msg : string)
| TypeError (msg : string)
| KeyError (msg : string)
| OverflowError (msg : string)
| ZeroDivisionError (msg : string)
| ValidationError (msg : string)
| ExternalError (msg : string).   (* botocore, urllib: any other [Exception] *)

Definition exn_str (e : exn) : string :=
  match e with
  | ValueError m | TypeError m | KeyError m | OverflowError m
  | ZeroDivisionError m | ValidationError m | ExternalError m => m
  end.

Inductive reply (A : Type) :=
| Raised (e : exn)
| Returned (a : A).
Arguments Raised {A} e.
Arguments Returned {A} a.

(* ===================================================================== *)
(** * Data model *)
(* ===================================================================== *)

(** ** Aggregator records (the JSON of /transactions/sync and /get) *)

Record personal_finance_category := {
  pfc_primary : option string;
  pfc_detailed : option string }.

Record plaid_location := {
  loc_city : option string;
  loc_region : option string;
  loc_country : option string }.

Record plaid_txn := {
  p_transaction_id : option string;
  p_account_id : option string;
  p_amount : option Qc;
  p_name : option string;
  p_merchant_name : option string;
  p_date : option string;
  p_datetime : option string;
  p_pending : option bool;
  p_personal_finance_category : option personal_finance_category;
  p_category : option (list string);
  p_payment_channel : option string;
  p_location : option plaid_location }.

Record removed_txn := { r_transaction_id : option string }.

Record sync_response := {
  sr_added : option (list plaid_txn);
  sr_modified : option (list plaid_txn);
  sr_removed : option (list removed_txn);
  sr_next_cursor : option string;
  sr_has_more : option bool }.

Record get_response := { gr_transactions : option (list plaid_txn) }.

Record plaid_creds := {
  creds_client_id : option string;
  creds_secret : option string;
  creds_environment : option string }.

(** The payloads the two aggregator calls post. *)
Record sync_request := {
  sq_host : string;
  sq_client_id : string;
  sq_secret : string;
  sq_access_token : string;
  sq_count : Z;
  sq_cursor : option string }.

Record get_request := {
  gq_host : string;
  gq_client_id : string;
  gq_secret : string;
  gq_access_token : string;
  gq_start_date : string;
  gq_end_date : string;
  gq_count : Z;
  gq_offset : Z;
  gq_account_ids : option (list (option string)) }.

(** ** Stored items *)

Record txn_location := {
  tl_city : option string;
  tl_region : option string;
  tl_country : option string }.

(** An item of the transactions table, as [map_plaid_transaction] builds it. *)
Record txn_item := {
  t_pk : string;
  t_sk : string;
  t_id : string;
  t_user_id : string;
  t_account_id : string;
  t_plaid_transaction_id : option string;
  t_amount : Qc;
  t_is_debit : bool;
  t_description : string;
  t_merchant_name : option string;
  t_date : option string;
  t_datetime : option string;
  t_pending : bool;
  t_category_name : string;
  t_category_detailed : string;
  t_category_icon : string;
  t_category_color : string;
  t_payment_channel : option string;
  t_location : txn_location;
  t_created_at : string;
  t_synced_at : string }.

(** An item of the accounts table: the attributes the handlers below read or
    write.  [update_item] can create an item that has nothing but its key and
    the attributes set, hence the optional [id] and [user_id]. *)
Record account_item := {
  a_pk : string;
  a_sk : string;
  a_id : option string;
  a_user_id : option string;
  a_plaid_access_token : option string;
  a_plaid_account_id : option string;
  a_plaid_sync_cursor : option string;
  a_last_synced : option string }.

(** An item of the goals table. *)
Record goal_item := {
  g_pk : string;
  g_sk : string;
  g_id : option string;
  g_user_id : option string;
  g_created_at : option string;
  g_status : option string;
  g_is_ai_generated : option bool;
  g_progress : option Qc;
  g_title : option string;
  g_description : option string;
  g_target_amount : option Qc;
  g_current_amount : option Qc;
  g_target_date : option string;
  g_category : option string;
  g_priority : option Z;
  g_last_updated : option string }.

(** An item of the budgets table; [categories] is a [dict]. *)
Record budget_item := {
  b_total_budget : option Qc;
  b_categories : option (list (string * Qc)) }.

Abbreviation table V := (gmap (string * string) V).

(** ** The world outside one invocation

    The four tables, and how many identifiers, clock readings and DynamoDB
    calls have been consumed so far. *)
Record world := {
  accounts : table account_item;
  transactions : table txn_item;
  goals : table goal_item;
  budgets : table budget_item;
  uuid_calls : nat;
  clock_reads : nat;
  db_calls : nat }.

Definition set_accounts (f : table account_item -> table account_item) (w : world) : world :=
  {| accounts := f (accounts w); transactions := transactions w; goals := goals w;
     budgets := budgets w; uuid_calls := uuid_calls w; clock_reads := clock_reads w;
     db_calls := db_calls w |}.
Definition set_transactions (f : table txn_item -> table txn_item) (w : world) : world :=
  {| accounts := accounts w; transactions := f (transactions w); goals := goals w;
     budgets := budgets w; uuid_calls := uuid_calls w; clock_reads := clock_reads w;
     db_calls := db_calls w |}.
Definition set_goals (f : table goal_item -> table goal_item) (w : world) : world :=
  {| accounts := accounts w; transactions := transactions w; goals := f (goals w);
     budgets := budgets w; uuid_calls := uuid_calls w; clock_reads := clock_reads w;
     db_calls := db_calls w |}.
Definition tick_uuid (w : world) : world :=
  {| accounts := accounts w; transactions := transactions w; goals := goals w;
     budgets := budgets w; uuid_calls := S (uuid_calls w); clock_reads := clock_reads w;
     db_calls := db_calls w |}.
Definition tick_clock (w : world) : world :=
  {| accounts := accounts w; transactions := transactions w; goals := goals w;
     budgets := budgets w; uuid_calls := uuid_calls w; clock_reads := S (clock_reads w);
     db_calls := db_calls w |}.
Definition tick_db (w : world) : world :=
  {| accounts := accounts w; transactions := transactions w; goals := goals w;
     budgets := budgets w; uuid_calls := uuid_calls w; clock_reads := clock_reads w;
     db_calls := S (db_calls w) |}.

(** ** The runtime: everything a handler obtains from outside its process

    [uuid4 n] is the n-th identifier drawn, [utcnow n] the n-th reading of the
    clock (microseconds since 0001-01-01T00:00), [db_fault n] the exception
    the n-th DynamoDB call raises, if any.  The date functions are those of
    Python's [datetime]. *)
Record runtime := {
  uuid4 : nat -> string;
  utcnow : nat -> Z;
  db_fault : nat -> option exn;
  isoformat : Z -> string;
  strftime_ymd : Z -> string;
  strftime_ym : Z -> string;
  strptime_ymd : string -> option Z;
  fromisoformat : string -> option (Z * bool);
  PLAID_SECRET_ARN : string;
  get_secret_value : string -> reply plaid_creds;
  transactions_sync : sync_request -> reply sync_response;
  transactions_get : get_request -> reply get_response }.

(* ===================================================================== *)
(** * The handler monad: state and exceptions *)
(* ===================================================================== *)

Definition M (A : Type) : Type := world -> reply A * world.

Definition ret {A} (a : A) : M A := fun w => (Returned a, w).
Definition raise {A} (e : exn) : M A := fun w => (Raised e, w).
Definition bind {A B} (m : M A) (k : A -> M B) : M B :=
  fun w => match m w with
           | (Returned a, w') => k a w'
           | (Raised e, w') => (Raised e, w')
           end.
(** [try: m except Exception as e: h e]. *)
Definition try_except {A} (m : M A) (h : exn -> M A) : M A :=
  fun w => match m w with
           | (Returned a, w') => (Returned a, w')
           | (Raised e, w') => h e w'
           end.
Definition lift_reply {A} (r : reply A) : M A := fun w => (r, w).

Declare Scope handler_scope.
Delimit Scope handler_scope with handler.
Notation "x <- m ;; k" := (bind m (fun x => k))
  (at level 100, m at next level, right associativity) : handler_scope.
Notation "m ;;; k" := (bind m (fun _ => k))
  (at level 100, right associativity) : handler_scope.
Local Open Scope handler_scope.

(** [for x in xs: s = body s x], the accumulator being the locals the loop
    body assigns. *)
Fixpoint for_fold {A S} (xs : list A) (body : S -> A -> M S) (s : S) : M S :=
  match xs with
  | [] => ret s
  | x :: xs' => s' <- body s x ;; for_fold xs' body s'
  end.

(* ===================================================================== *)
(** * datetime *)
(* ===================================================================== *)

(** [timedelta(days=d)] and [datetime - timedelta], in microseconds, with the
    range checks of [datetime]. *)
Definition usec_per_day : Z := 86400000000.
Definition max_ticks : Z := 3652059 * usec_per_day.

Definition timedelta_days (d : Z) : M Z :=
  if (Z.abs d <=? 999999999)%Z then ret (d * usec_per_day)
  else raise (OverflowError "days out of range").

Definition datetime_add (t delta : Z) : M Z :=
  if ((0 <=? t + delta) && (t + delta <? max_ticks))%Z then ret (t + delta)
  else raise (OverflowError "date value out of range").

(* ===================================================================== *)
(** * shared/response.py *)
(* ===================================================================== *)

(** An API Gateway response: the status code with either the JSON body of a
    success or the [code] and [message] of the error envelope. *)
Inductive response (A : Type) :=
| Body (status_code : Z) (body : A)
| Error (status_code : Z) (code : string) (message : string).
Arguments Body {A} status_code body.
Arguments Error {A} status_code code message.

Definition success {A} (body : A) : response A := Body 200 body.
Definition created {A} (body : A) : response A := Body 201 body.
Definition bad_request {A} (message : string) : response A :=
  Error 400 "VALIDATION_ERROR" message.
Definition not_found {A} (message : string) : response A :=
  Error 404 "NOT_FOUND" message.
Definition internal_error {A} (message : string) : response A :=
  Error 500 "INTERNAL_ERROR" message.
Definition service_unavailable {A} (message : string) : response A :=
  Error 503 "SERVICE_UNAVAILABLE" message.

Definition status_of {A} (r : response A) : Z :=
  match r with Body s _ => s | Error s _ _ => s end.

(* ===================================================================== *)
(** * shared/validation.py *)
(* ===================================================================== *)

Module validation.

Definition is_hex (c : ascii) : bool :=
    Str.is_digit c ||
    (let n := nat_of_ascii c in (97 <=? n)%nat && (n <=? 102)%nat).

  (** Does [s] start with exactly [n] characters satisfying [p], followed by
      [rest]?  Returns what follows them. *)
Fixpoint chars (p : ascii -> bool) (n : nat) (s : string) : option string :=
    match n, s with
    | O, _ => Some s
    | S n', String c s' => if p c then chars p n' s' else None
    | S _, EmptyString => None
    end.

Definition dash (s : string) : option string :=
    match s with
    | String c s' => if Ascii.eqb c "-" then Some s' else None
    | EmptyString => None
    end.

  (** [$] of [re.match]: the end of the string, or just before a final
      newline. *)
Definition at_end (s : string) : bool :=
    match s with
    | EmptyString => true
    | String c EmptyString => Ascii.eqb c "010"
    | _ => false
    end.

  (** [validate_uuid]: [^[0-9a-f]{8}-[0-9a-f]{4}-[0-9a-f]{4}-[0-9a-f]{4}-[0-9a-f]{12}$]
      on [value.lower()]. *)
Definition validate_uuid (value : string) : bool :=
    match
      s1 ← chars is_hex 8 (Str.lower value); s2 ← dash s1;
      s3 ← chars is_hex 4 s2; s4 ← dash s3;
      s5 ← chars is_hex 4 s4; s6 ← dash s5;
      s7 ← chars is_hex 4 s6; s8 ← dash s7;
      chars is_hex 12 s8
    with
    | Some rest => at_end rest
    | None => false
    end.

Definition digit_val (c : ascii) : Z := Z.of_nat (nat_of_ascii c) - 48.

  (** The digits of an [int()] literal: single underscores may separate
      digits. *)
Fixpoint digits (s : string) (acc : Z) (after_digit : bool) : option Z :=
    match s with
    | EmptyString => if after_digit then Some acc else None
    | String c s' =>
        if Str.is_digit c then digits s' (acc * 10 + digit_val c) true
        else if Ascii.eqb c "_" && after_digit then digits s' acc false
        else None
    end.

  (** [int(s)] for a [str]: surrounding white space, an optional sign, decimal
      digits; [None] is [ValueError]. *)
Definition int (s : string) : option Z :=
    match Str.strip s with
    | String c s' =>
        if Ascii.eqb c "-" then Z.opp <$> digits s' 0 false
        else if Ascii.eqb c "+" then digits s' 0 false
        else digits (String c s') 0 false
    | EmptyString => None
    end.

  (** [get_query_param(event, name, default)], the query string being a
      record with one optional field per parameter. *)
Definition get_query_param (param : option string) (default : string) : string :=
    match param with Some v => v | None => default end.

  (** [get_query_param_int(event, param_name, default, min_val, max_val)]:
      a missing parameter gives [default] as it is; a value that [int()]
      refuses raises [ValidationError]; otherwise the value is raised to
      [min_val] and then lowered to [max_val]. *)
Definition get_query_param_int (param_name : string) (param : option string)
      (default : Z) (min_val max_val : option Z) : reply Z :=
    match param with
    | None => Returned default
    | Some value =>
        match int value with
        | None => Raised (ValidationError ("Invalid integer value for " +:+ param_name))
        | Some int_value =>
            let int_value :=
              match min_val with
              | Some lo => if (int_value <? lo)%Z then lo else int_value
              | None => int_value
              end in
            let int_value :=
              match max_val with
              | Some hi => if (hi <? int_value)%Z then hi else int_value
              | None => int_value
              end in
            Returned int_value
        end
    end.

  (** [get_query_param_bool(event, param_name, default)]. *)
Definition get_query_param_bool (param : option string) (default : bool) : bool :=
    match param with
    | None => default
    | Some value =>
        let v := Str.lower value in
        String.eqb v "true" || String.eqb v "1" || String.eqb v "yes"
    end.

  (** [', '.join(xs)]. *)
Fixpoint join_comma (xs : list string) : string :=
    match xs with
    | [] => EmptyString
    | [x] => x
    | x :: xs' => x +:+ ", " +:+ join_comma xs'
    end.

  (** [validate_enum(value, allowed_values, field_name)]. *)
Definition validate_enum (value : string) (allowed_values : list string)
      (field_name : string) : reply unit :=
    if existsb (String.eqb value) allowed_values then Returned tt
    else Raised (ValidationError
           ("Invalid value for " +:+ field_name +:+ ". Must be one of: "
            +:+ join_comma allowed_values)).

End validation.

(* ===================================================================== *)
(** * shared/auth.py *)
(* ===================================================================== *)

Module auth.

(** [requestContext.authorizer], by the keys [get_user_id_from_event] looks
    at: ["claims"] with its ["sub"], ["principalId"], and ["jwt"] with the
    ["sub"] of its ["claims"].  A missing [requestContext] or [authorizer]
    is the authorizer without keys. *)
Record authorizer := {
  au_claims : option (option string);
  au_principalId : option string;
  au_jwt : option (option string) }.

Record headers := {
  h_Authorization : option string;
  h_authorization : option string }.

Record event := {
  ev_authorizer : authorizer;
  ev_headers : headers }.

(** A key of the JWKS document and the claims of a decoded token, by what
    the module itself reads of them. *)
Record jwk := { k_kid : option string }.
Record claims := { c_sub : option string; c_token_use : option string }.

(** What a call into [jose] or [urllib] does: it raises [JWTError], it
    raises another exception, or it returns. *)
Inductive outcome (A : Type) :=
| JWTError (msg : string)
| OtherError
| Done (a : A).
Arguments JWTError {A} msg.
Arguments OtherError {A}.
Arguments Done {A} a.

(** [jwt.get_unverified_header(token).get("kid")], the ["keys"] of the
    document at the JWKS address, and [jwt.decode] with the pool's audience
    and issuer. *)
Record jose := {
  get_unverified_header : string -> outcome (option string);
  fetch_jwks : outcome (list jwk);
  decode : string -> jwk -> outcome claims }.

(** The result of [verify_token]: the claims, or the error message. *)
Inductive verdict :=
| Valid (c : claims)
| Invalid (error_msg : string).

(** The truth value of an optional string. *)
Definition truthy (s : option string) : bool :=
  match s with Some v => negb (Str.is_empty v) | None => false end.

(** [a or b]. *)
Definition or_else (a b : option string) : option string :=
  if truthy a then a else b.

(** [get_user_id_from_event(event)]. *)
Definition get_user_id_from_event (ev : event) : option string :=
  let authorizer := ev_authorizer ev in
  match au_claims authorizer with
  | Some sub => sub
  | None =>
      match au_principalId authorizer with
      | Some principal => Some principal
      | None =>
          match au_jwt authorizer with
          | Some sub => sub
          | None => None
          end
      end
  end.

(** [extract_bearer_token(event)]. *)
Definition extract_bearer_token (ev : event) : option string :=
  let auth_header :=
    or_else (h_Authorization (ev_headers ev)) (h_authorization (ev_headers ev)) in
  if truthy auth_header then
    let v := default EmptyString auth_header in
    if String.prefix "Bearer " v
    then Some (String.substring 7 (String.length v - 7) v)
    else None
  else None.

Definition unauthorized {A} (message : string) : response A :=
  Error 401 "UNAUTHORIZED" message.

(** [str(token_use)] in the message of a refused [token_use]. *)
Definition show (s : option string) : string := default "None" s.

Section auth.

Variable j : jose.

(** [get_jwks()]: the module-level cache is filled by the first fetch that
    succeeds and never emptied. *)
Definition get_jwks (cache : option (list jwk))
    : outcome (list jwk) * option (list jwk) :=
  match cache with
  | Some keys => (Done keys, cache)
  | None =>
      match fetch_jwks j with
      | Done keys => (Done keys, Some keys)
      | failed => (failed, None)
      end
  end.

(** [verify_token(token)], with the cache before and after. *)
Definition verify_token (token : string) (cache : option (list jwk))
    : verdict * option (list jwk) :=
  match get_unverified_header j token with
  | JWTError msg => (Invalid msg, cache)
  | OtherError => (Invalid "Token verification failed", cache)
  | Done kid =>
      if negb (truthy kid) then (Invalid "Token missing key ID", cache)
      else
        match get_jwks cache with
        | (JWTError msg, cache') => (Invalid msg, cache')
        | (OtherError, cache') => (Invalid "Token verification failed", cache')
        | (Done keys, cache') =>
            match List.find (fun k => bool_decide (k_kid k = kid)) keys with
            | None => (Invalid "Token key not found in JWKS", cache')
            | Some key =>
                match decode j token key with
                | JWTError msg => (Invalid msg, cache')
                | OtherError => (Invalid "Token verification failed", cache')
                | Done claims =>
                    let token_use := c_token_use claims in
                    if bool_decide (token_use = Some "access")
                       || bool_decide (token_use = Some "id")
                    then (Valid claims, cache')
                    else (Invalid ("Invalid token_use: " +:+ show token_use), cache')
                end
            end
        end
  end.

(** [require_auth(handler)]: the wrapped handler, which is given the user id
    put into the event. *)
Definition require_auth {A} (handler : option string -> world -> response A * world)
    (ev : event) (cache : option (list jwk)) (w : world)
    : (response A * world) * option (list jwk) :=
  let user_id := get_user_id_from_event ev in
  if truthy user_id then (handler user_id w, cache)
  else
    let token := extract_bearer_token ev in
    if negb (truthy token) then (unauthorized "Missing authentication token", w, cache)
    else
      match verify_token (default EmptyString token) cache with
      | (Invalid error_msg, cache') =>
          (unauthorized (if Str.is_empty error_msg then "Invalid token" else error_msg),
           w, cache')
      | (Valid claims, cache') => (handler (c_sub claims) w, cache')
      end.

End auth.
End auth.

(* ===================================================================== *)
(** * shared/database.py *)
(* ===================================================================== *)

(** An item carries its own key. *)
Class Item (V : Type) := { item_pk : V -> string; item_sk : V -> string }.

Global Instance txn_Item : Item txn_item := {| item_pk := t_pk; item_sk := t_sk |}.
Global Instance account_Item : Item account_item := {| item_pk := a_pk; item_sk := a_sk |}.
Global Instance goal_Item : Item goal_item := {| item_pk := g_pk; item_sk := g_sk |}.

(** Which table of the world a repository works on. *)
Class Repository (V : Type) := {
  the_table : world -> table V;
  with_table : (table V -> table V) -> world -> world }.

Global Instance AccountRepository : Repository account_item :=
  {| the_table := accounts; with_table := set_accounts |}.
Global Instance TransactionRepository : Repository txn_item :=
  {| the_table := transactions; with_table := set_transactions |}.
Global Instance GoalRepository : Repository goal_item :=
  {| the_table := goals; with_table := set_goals |}.

(** [begins_with] on sort keys. *)
Definition begins_with (prefix s : string) : bool := String.prefix prefix s.

(** The order of a range query: ascending sort key, or descending. *)
Definition sk_le {V} (forward : bool) : relation ((string * string) * V) :=
  fun x y => if forward then Str.leb x.1.2 y.1.2 = true
             else Str.leb y.1.2 x.1.2 = true.
Global Instance sk_le_dec {V} forward : RelDecision (@sk_le V forward).
Proof. intros x y. unfold sk_le. destruct forward; apply _. Defined.

Module database.
Section database.

Variable rt : runtime.

  (** [generate_id()]: [str(uuid.uuid4())]. *)
Definition generate_id : M string :=
    fun w => (Returned (uuid4 rt (uuid_calls w)), tick_uuid w).

  (** [get_timestamp()]: [datetime.utcnow().isoformat() + "Z"]. *)
Definition get_timestamp : M string :=
    fun w => (Returned (isoformat rt (utcnow rt (clock_reads w)) +:+ "Z"), tick_clock w).

  (** [datetime.utcnow()]. *)
Definition datetime_utcnow : M Z :=
    fun w => (Returned (utcnow rt (clock_reads w)), tick_clock w).

  (** One call to DynamoDB: it raises when the runtime says so and otherwise
      runs [action] on the tables. *)
Definition db_call {A} (action : world -> A * world) : M A :=
    fun w => match db_fault rt (db_calls w) with
             | Some e => (Raised e, tick_db w)
             | None => let '(a, w') := action (tick_db w) in (Returned a, w')
             end.

Section BaseRepository.
Context {V : Type} `{!Item V, !Repository V}.

    (** [get_by_id(pk, sk)]. *)
Definition get_by_id (pk sk : string) : M (option V) :=
      db_call (fun w => (the_table w !! (pk, sk), w)).

    (** [put(item)]: [put_item] replaces whatever is stored under the key. *)
Definition put (item : V) : M V :=
      db_call (fun w => (item, with_table (<[(item_pk item, item_sk item) := item]>) w)).

    (** [update(pk, sk, updates)]: [update_item] with a SET expression, which
        also creates the item when the key is new; [updates] is given as its
        effect on the stored item.  The result is the item afterwards
        (ALL_NEW). *)
Definition update (pk sk : string) (updates : option V -> V) : M V :=
      db_call (fun w => let item := updates (the_table w !! (pk, sk)) in
                        (item, with_table (<[(pk, sk) := item]>) w)).

    (** [delete(pk, sk)]: deleting an absent key is not an error. *)
Definition delete (pk sk : string) : M bool :=
      db_call (fun w => (true, with_table (base.delete (pk, sk)) w)).

    (** The answer of one Query: the items of the partition whose sort key
        has the prefix, in sort-key order, at most [limit] of them. *)
Definition query_items (pk sk_prefix : string) (limit : option nat)
        (scan_forward : bool) (t : table V) : list V :=
      let hits := filter (fun kv => kv.1.1 = pk ∧ begins_with sk_prefix kv.1.2 = true)
                         (map_to_list t) in
      let sorted := merge_sort (sk_le scan_forward) hits in
      snd <$> match limit with Some n => take n sorted | None => sorted end.

    (** [query_by_pk(pk, sk_prefix, limit, scan_forward)]; [if limit:] treats
        0 as no limit. *)
Definition query_by_pk (pk sk_prefix : string) (limit : option nat)
        (scan_forward : bool) : M (list V) :=
      let limit := match limit with Some O => None | l => l end in
      db_call (fun w => (query_items pk sk_prefix limit scan_forward (the_table w), w)).

End BaseRepository.

  (** ** AccountRepository *)

Definition get_user_accounts (user_id : string) : M (list account_item) :=
    query_by_pk ("USER#" +:+ user_id) "ACCOUNT#" None true.

Definition get_account (user_id account_id : string) : M (option account_item) :=
    get_by_id ("USER#" +:+ user_id) ("ACCOUNT#" +:+ account_id).

  (** ** TransactionRepository *)

  (** [get_account_transactions(user_id, account_id, limit, offset)]:
      most recent sort key first, then [transactions[offset:offset + limit]]. *)
Definition get_account_transactions (user_id account_id : string)
      (limit offset : nat) : M (list txn_item) :=
    txns <- query_by_pk ("ACCOUNT#" +:+ account_id) "TXN#" (Some (limit + offset)%nat) false ;;
    ret (take limit (drop offset txns)).

  (** ** AccountRepository, GoalRepository: reading a user's goals, deleting *)

Definition delete_account (user_id account_id : string) : M bool :=
    delete (V := account_item) ("USER#" +:+ user_id) ("ACCOUNT#" +:+ account_id).

  (** [get_user_goals(user_id, status)]: a goal without a ["status"]
      attribute counts as active. *)
Definition get_user_goals (user_id status : string) : M (list goal_item) :=
    goals <- query_by_pk ("USER#" +:+ user_id) "GOAL#" None true ;;
    ret (if negb (String.eqb status "all")
         then filter (fun g => default "active" (g_status g) = status) goals
         else goals).

Definition delete_goal (user_id goal_id : string) : M bool :=
    delete (V := goal_item) ("USER#" +:+ user_id) ("GOAL#" +:+ goal_id).

End database.
End database.

(* ===================================================================== *)
(** * accounts/sync_transactions.py *)
(* ===================================================================== *)

Module sync_transactions.

  (** The request after [require_auth]: the caller's id, the path parameter
      and the two query parameters. *)
Record event := {
    ev_user_id : string;
    ev_account_id : option string;
    ev_use_sync : option string;
    ev_days : option string }.

  (** The mutable [stats] dictionary. *)
Record stats := {
    st_added : nat;
    st_modified : nat;
    st_removed : nat;
    st_has_more : bool;
    st_cursor : option string }.

  (** The body of the 200 response. *)
Record sync_body := {
    synced : nat;
    added : nat;
    modified : nat;
    removed : nat;
    has_more : bool;
    cursor : option string }.

Definition stats0 : stats :=
    {| st_added := 0; st_modified := 0; st_removed := 0;
       st_has_more := false; st_cursor := None |}.
Definition incr_added (s : stats) : stats :=
    {| st_added := S (st_added s); st_modified := st_modified s;
       st_removed := st_removed s; st_has_more := st_has_more s;
       st_cursor := st_cursor s |}.
Definition incr_modified (s : stats) : stats :=
    {| st_added := st_added s; st_modified := S (st_modified s);
       st_removed := st_removed s; st_has_more := st_has_more s;
       st_cursor := st_cursor s |}.
Definition incr_removed (s : stats) : stats :=
    {| st_added := st_added s; st_modified := st_modified s;
       st_removed := S (st_removed s); st_has_more := st_has_more s;
       st_cursor := st_cursor s |}.
Definition set_page (more : bool) (c : option string) (s : stats) : stats :=
    {| st_added := st_added s; st_modified := st_modified s;
       st_removed := st_removed s; st_has_more := more; st_cursor := c |}.

  (** [get_plaid_host]. *)
Definition get_plaid_host (environment : string) : string :=
    if String.eqb environment "sandbox" then "https://sandbox.plaid.com"
    else if String.eqb environment "development" then "https://development.plaid.com"
    else if String.eqb environment "production" then "https://production.plaid.com"
    else "https://sandbox.plaid.com".

  (** The [category_icons] table of [map_plaid_transaction], with the default
      of its [.get]. *)
Definition category_icons : list (string * (string * string)) :=
    [ ("FOOD_AND_DRINK", ("fork.knife", "#FF6B6B"));
      ("TRANSPORTATION", ("car.fill", "#4ECDC4"));
      ("SHOPPING", ("bag.fill", "#45B7D1"));
      ("ENTERTAINMENT", ("tv.fill", "#96CEB4"));
      ("TRAVEL", ("airplane", "#FFEAA7"));
      ("HEALTHCARE", ("heart.fill", "#DDA0DD"));
      ("PERSONAL_CARE", ("person.fill", "#98D8C8"));
      ("GENERAL_SERVICES", ("wrench.fill", "#F7DC6F"));
      ("GOVERNMENT_AND_NON_PROFIT", ("building.columns.fill", "#BB8FCE"));
      ("TRANSFER_IN", ("arrow.down.circle.fill", "#82E0AA"));
      ("TRANSFER_OUT", ("arrow.up.circle.fill", "#F1948A"));
      ("INCOME", ("dollarsign.circle.fill", "#82E0AA"));
      ("LOAN_PAYMENTS", ("creditcard.fill", "#F5B041"));
      ("BANK_FEES", ("exclamationmark.circle.fill", "#E74C3C"));
      ("RENT_AND_UTILITIES", ("house.fill", "#5DADE2")) ].

Fixpoint assoc {A} (k : string) (l : list (string * A)) : option A :=
    match l with
    | [] => None
    | (k', v) :: l' => if String.eqb k k' then Some v else assoc k l'
    end.

Definition icon_of (category_name : string) : string * string :=
    default ("questionmark.circle.fill", "#95A5A6")
            (assoc (Str.upper category_name) category_icons).

  (** [pfc.get("primary", <first legacy category, else "Uncategorized">)]. *)
Definition category_name_of (plaid_txn : plaid_txn) : string :=
    let fallback :=
      match p_category plaid_txn with
      | Some (c :: _) => c
      | _ => "Uncategorized"
      end in
    match p_personal_finance_category plaid_txn with
    | Some pfc => default fallback (pfc_primary pfc)
    | None => fallback
    end.

Definition category_detailed_of (plaid_txn : plaid_txn) : string :=
    match p_personal_finance_category plaid_txn with
    | Some pfc => default EmptyString (pfc_detailed pfc)
    | None => EmptyString
    end.

Definition location_of (plaid_txn : plaid_txn) : txn_location :=
    match p_location plaid_txn with
    | Some l => {| tl_city := loc_city l; tl_region := loc_region l;
                   tl_country := loc_country l |}
    | None => {| tl_city := None; tl_region := None; tl_country := None |}
    end.

Section sync_transactions.

Variable rt : runtime.

Local Abbreviation generate_id := (database.generate_id rt).
Local Abbreviation get_timestamp := (database.get_timestamp rt).

  (** [get_plaid_credentials]. *)
Definition get_plaid_credentials : M plaid_creds :=
    if Str.is_empty (PLAID_SECRET_ARN rt)
    then raise (ValueError "Plaid secret ARN not configured")
    else lift_reply (get_secret_value rt (PLAID_SECRET_ARN rt)).

Definition creds_key (name : string) (v : option string) : M string :=
    match v with
    | Some s => ret s
    | None => raise (KeyError name)
    end.

  (** [sync_transactions_from_plaid(access_token, plaid_creds, cursor, count)]. *)
Definition sync_transactions_from_plaid (access_token : string)
      (creds : plaid_creds) (cursor : option string) (count : Z) : M sync_response :=
    let plaid_host := get_plaid_host (default "sandbox" (creds_environment creds)) in
    client_id <- creds_key "client_id" (creds_client_id creds) ;;
    secret <- creds_key "secret" (creds_secret creds) ;;
    lift_reply (transactions_sync rt
      {| sq_host := plaid_host; sq_client_id := client_id; sq_secret := secret;
         sq_access_token := access_token; sq_count := Z.min count 500;
         sq_cursor := match cursor with
                      | Some c => if Str.is_empty c then None else Some c
                      | None => None
                      end |}).

  (** [get_transactions_legacy(access_token, plaid_creds, start_date,
      end_date, account_ids)]. *)
Definition get_transactions_legacy (access_token : string) (creds : plaid_creds)
      (start_date end_date : string) (account_ids : list (option string))
      : M get_response :=
    let plaid_host := get_plaid_host (default "sandbox" (creds_environment creds)) in
    client_id <- creds_key "client_id" (creds_client_id creds) ;;
    secret <- creds_key "secret" (creds_secret creds) ;;
    lift_reply (transactions_get rt
      {| gq_host := plaid_host; gq_client_id := client_id; gq_secret := secret;
         gq_access_token := access_token;
         gq_start_date := start_date; gq_end_date := end_date;
         gq_count := 500; gq_offset := 0;
         gq_account_ids := match account_ids with
                           | [] => None
                           | _ => Some account_ids
                           end |}).

  (** [map_plaid_transaction(plaid_txn, user_id, account_id)].  The dictionary
      display is evaluated top to bottom: both [generate_id()] defaults are
      evaluated whether or not the record has a transaction id, then the two
      timestamps. *)
Definition map_plaid_transaction (plaid_txn : plaid_txn)
      (user_id account_id : string) : M txn_item :=
    let category_name := category_name_of plaid_txn in
    let category_detailed := category_detailed_of plaid_txn in
    let icon_color := icon_of category_name in
    sk_default <- generate_id ;;
    id_default <- generate_id ;;
    created_at <- get_timestamp ;;
    synced_at <- get_timestamp ;;
    ret {| t_pk := "ACCOUNT#" +:+ account_id;
           t_sk := "TXN#" +:+ default sk_default (p_transaction_id plaid_txn);
           t_id := default id_default (p_transaction_id plaid_txn);
           t_user_id := user_id;
           t_account_id := account_id;
           t_plaid_transaction_id := p_transaction_id plaid_txn;
           t_amount := Num.abs (default 0%Qc (p_amount plaid_txn));
           t_is_debit := Num.gtb (default 0%Qc (p_amount plaid_txn)) 0%Qc;
           t_description := default "Unknown Transaction" (p_name plaid_txn);
           t_merchant_name := p_merchant_name plaid_txn;
           t_date := p_date plaid_txn;
           t_datetime := p_datetime plaid_txn;
           t_pending := default false (p_pending plaid_txn);
           t_category_name := Str.title (Str.replace_char "_" " " category_name);
           t_category_detailed := category_detailed;
           t_category_icon := icon_color.1;
           t_category_color := icon_color.2;
           t_payment_channel := p_payment_channel plaid_txn;
           t_location := location_of plaid_txn;
           t_created_at := created_at;
           t_synced_at := synced_at |}.


(** [cond.get(key) == other.get(key)] on optional strings. *)
Definition same_account (plaid_txn : plaid_txn) (account : account_item) : bool :=
  bool_decide (p_account_id plaid_txn = a_plaid_account_id account).

(** The effect of the SET expressions of the two account updates on the
    stored item. *)
Definition set_cursor_and_synced (pk sk : string) (new_cursor : option string)
    (now : string) (old : option account_item) : account_item :=
  match old with
  | Some a =>
      {| a_pk := a_pk a; a_sk := a_sk a; a_id := a_id a; a_user_id := a_user_id a;
         a_plaid_access_token := a_plaid_access_token a;
         a_plaid_account_id := a_plaid_account_id a;
         a_plaid_sync_cursor := new_cursor; a_last_synced := Some now |}
  | None =>
      {| a_pk := pk; a_sk := sk; a_id := None; a_user_id := None;
         a_plaid_access_token := None; a_plaid_account_id := None;
         a_plaid_sync_cursor := new_cursor; a_last_synced := Some now |}
  end.

Definition set_synced (pk sk : string) (now : string)
    (old : option account_item) : account_item :=
  match old with
  | Some a =>
      {| a_pk := a_pk a; a_sk := a_sk a; a_id := a_id a; a_user_id := a_user_id a;
         a_plaid_access_token := a_plaid_access_token a;
         a_plaid_account_id := a_plaid_account_id a;
         a_plaid_sync_cursor := a_plaid_sync_cursor a; a_last_synced := Some now |}
  | None =>
      {| a_pk := pk; a_sk := sk; a_id := None; a_user_id := None;
         a_plaid_access_token := None; a_plaid_account_id := None;
         a_plaid_sync_cursor := None; a_last_synced := Some now |}
  end.

(** The two loops over [added] and [modified] have the same body but for the
    counter they bump. *)
Definition upsert_matching (account : account_item) (user_id account_id : string)
    (bump : stats -> stats) (st : stats) (plaid_txn : plaid_txn) : M stats :=
  if same_account plaid_txn account then
    txn_data <- map_plaid_transaction plaid_txn user_id account_id ;;
    database.put rt txn_data ;;;
    ret (bump st)
  else ret st.

Definition delete_removed (account_id : string) (st : stats) (r : removed_txn) : M stats :=
  match r_transaction_id r with
  | Some txn_id =>
      if Str.is_empty txn_id then ret st
      else
        database.delete (V := txn_item) rt ("ACCOUNT#" +:+ account_id) ("TXN#" +:+ txn_id) ;;;
        ret (incr_removed st)
  | None => ret st
  end.

(** The three loops of the incremental branch (lines 278-297). *)
Definition process_page (account : account_item) (user_id account_id : string)
    (sync_response : sync_response) (st : stats) : M stats :=
  st <- for_fold (default [] (sr_added sync_response))
                 (upsert_matching account user_id account_id incr_added) st ;;
  st <- for_fold (default [] (sr_modified sync_response))
                 (upsert_matching account user_id account_id incr_modified) st ;;
  for_fold (default [] (sr_removed sync_response)) (delete_removed account_id) st.

(** The [try] block of the incremental branch (lines 271-312). *)
Definition sync_cycle (account : account_item) (user_id account_id : string)
    (plaid_access_token : string) (creds : plaid_creds) (st : stats) : M stats :=
  let cursor := a_plaid_sync_cursor account in
  sync_response <- sync_transactions_from_plaid plaid_access_token creds cursor 100 ;;
  st <- process_page account user_id account_id sync_response st ;;
  let new_cursor := sr_next_cursor sync_response in
  let st := set_page (default false (sr_has_more sync_response)) new_cursor st in
  now <- get_timestamp ;;
  database.update rt ("USER#" +:+ user_id) ("ACCOUNT#" +:+ account_id)
    (set_cursor_and_synced ("USER#" +:+ user_id) ("ACCOUNT#" +:+ account_id)
                           new_cursor now) ;;;
  ret st.

(** The [try] block of the legacy branch (lines 323-342). *)
Definition legacy_cycle (account : account_item) (user_id account_id : string)
    (plaid_access_token : string) (creds : plaid_creds)
    (start_date end_date : string) (st : stats) : M stats :=
  txn_response <- get_transactions_legacy plaid_access_token creds start_date end_date
                    [a_plaid_account_id account] ;;
  st <- for_fold (default [] (gr_transactions txn_response))
        (fun st plaid_txn =>
           txn_data <- map_plaid_transaction plaid_txn user_id account_id ;;
           database.put rt txn_data ;;;
           ret (incr_added st)) st ;;
  now <- get_timestamp ;;
  database.update rt ("USER#" +:+ user_id) ("ACCOUNT#" +:+ account_id)
    (set_synced ("USER#" +:+ user_id) ("ACCOUNT#" +:+ account_id) now) ;;;
  ret st.

(** [days = min(int(get_query_param(event, "days", "30")), 730)]: the window
    both branches compute and the legacy branch uses. *)
Definition effective_days (ev : event) : M Z :=
  match validation.int (validation.get_query_param (ev_days ev) "30") with
  | Some days => ret (Z.min days 730)
  | None => raise (ValueError "invalid literal for int() with base 10")
  end.

Definition use_sync_of (ev : event) : bool :=
  String.eqb (Str.lower (validation.get_query_param (ev_use_sync ev) "true")) "true".

(** [[start_date, end_date]] of the legacy branch (lines 320-321). *)
Definition legacy_range (days : Z) : M (string * string) :=
  end_now <- database.datetime_utcnow rt ;;
  let end_date := strftime_ymd rt end_now in
  start_now <- database.datetime_utcnow rt ;;
  delta <- timedelta_days days ;;
  start <- datetime_add start_now (- delta) ;;
  ret (strftime_ymd rt start, end_date).

Definition body_of (st : stats) : sync_body :=
  {| synced := st_added st + st_modified st; added := st_added st;
     modified := st_modified st; removed := st_removed st;
     has_more := st_has_more st; cursor := st_cursor st |}.

(** The statements of [handler] inside its outer [try]. *)
Definition handler_try (ev : event) : M (response sync_body) :=
  let user_id := ev_user_id ev in
  match ev_account_id ev with
  | None => ret (bad_request "Account ID is required")
  | Some account_id =>
  if Str.is_empty account_id then ret (bad_request "Account ID is required")
  else if negb (validation.validate_uuid account_id)
  then ret (bad_request "Invalid account ID format")
  else
  account <- database.get_account rt user_id account_id ;;
  match account with
  | None => ret (not_found "Account not found")
  | Some account =>
  match a_plaid_access_token account with
  | None => ret (bad_request "Account is not linked to Plaid")
  | Some plaid_access_token =>
  if Str.is_empty plaid_access_token
  then ret (bad_request "Account is not linked to Plaid")
  else
  creds <- try_except (creds <- get_plaid_credentials ;; ret (inr creds))
             (fun e => ret (inl (service_unavailable
                 "Transaction sync service temporarily unavailable"))) ;;
  match creds with
  | inl early => ret early
  | inr creds =>
  let use_sync := use_sync_of ev in
  days <- effective_days ev ;;
  if use_sync then
    try_except
      (st <- sync_cycle account user_id account_id plaid_access_token creds stats0 ;;
       ret (success (body_of st)))
      (fun e => ret (service_unavailable
                       ("Failed to sync transactions: " +:+ exn_str e)))
  else
    range <- legacy_range days ;;
    try_except
      (st <- legacy_cycle account user_id account_id plaid_access_token creds
                          range.1 range.2 stats0 ;;
       ret (success (body_of st)))
      (fun e => ret (service_unavailable
                       ("Failed to fetch transactions: " +:+ exn_str e)))
  end
  end end end.

(** [handler]: whatever escapes the statements above is answered with a 500. *)
Definition handler (ev : event) (w : world) : response sync_body * world :=
  match handler_try ev w with
  | (Returned r, w') => (r, w')
  | (Raised _, w') => (internal_error "Failed to sync transactions", w')
  end.

End sync_transactions.
End sync_transactions.

(* ===================================================================== *)
(** * Dictionaries used as accumulators, [sorted] *)
(* ===================================================================== *)

Module Dict.
Section Dict.
Context {V : Type}.

(** [d.get(k)]: [None] when the key is absent. *)
Fixpoint get (k : string) (d : list (string * V)) : option V :=
  match d with
  | [] => None
  | (k', v) :: d' => if String.eqb k k' then Some v else get k d'
  end.

(** [d[k] = f(d[k])] on a [defaultdict] whose missing value is [zero]: an
    existing key keeps its place, a new one goes last. *)
Fixpoint upd (zero : V) (k : string) (f : V -> V) (d : list (string * V))
    : list (string * V) :=
  match d with
  | [] => [(k, f zero)]
  | (k', v) :: d' =>
      if String.eqb k k' then (k', f v) :: d' else (k', v) :: upd zero k f d'
  end.

Definition keys (d : list (string * V)) : list string := fst <$> d.
Definition values (d : list (string * V)) : list V := snd <$> d.

End Dict.
End Dict.

(** [sorted(xs)], stable: [before y x] says that [y] sorts strictly before
    [x]; equal elements keep their order. *)
Fixpoint insert_sorted {A} (before : A -> A -> bool) (x : A) (l : list A) : list A :=
  match l with
  | [] => [x]
  | y :: l' => if before y x then y :: insert_sorted before x l' else x :: y :: l'
  end.

Definition sorted_by {A} (before : A -> A -> bool) (l : list A) : list A :=
  foldr (insert_sorted before) [] l.

(** The first ten characters of [txn.get("date")], the empty string when the
    key is absent; a stored [None] is not subscriptable. *)
Definition date_prefix (txn : txn_item) : reply string :=
  match t_date txn with
  | Some d => Returned (Str.take 10 d)
  | None => Raised (TypeError "'NoneType' object is not subscriptable")
  end.

(** [start <= d <= end] and [start <= d < end] on date strings. *)
Definition in_range (start_date end_date d : string) : bool :=
  Str.leb start_date d && Str.leb d end_date.
Definition in_month (start_date end_date d : string) : bool :=
  Str.leb start_date d && Str.ltb d end_date.

(** [if not param: ...]: a missing or empty query parameter. *)
Definition missing (param : option string) : bool :=
  match param with Some s => Str.is_empty s | None => true end.

(* ===================================================================== *)
(** * analytics/get_cash_flow.py *)
(* ===================================================================== *)

Module get_cash_flow.

Record event := {
  ev_user_id : string;
  ev_start_date : option string;
  ev_end_date : option string;
  ev_granularity : option string }.

Record point := { pt_date : string; pt_amount : Qc }.

Record cash_flow_body := {
  inflows : list point;
  outflows : list point;
  net_flow : Qc;
  total_inflow : Qc;
  total_outflow : Qc }.

Abbreviation flows := (list (string * Qc)).

Section get_cash_flow.

Variable rt : runtime.

(** The period key of a date (lines 36-49); [None] when [strptime] raises
    [ValueError].  [date.weekday()] is 0 on Mondays, and day 0 of the
    calendar (0001-01-01) is a Monday. *)
Definition period_key (granularity date_str : string) : option string :=
  match strptime_ymd rt date_str with
  | None => None
  | Some date =>
      if String.eqb granularity "daily" then Some date_str
      else if String.eqb granularity "weekly" then
        let weekday := (date / usec_per_day) mod 7 in
        Some (strftime_ymd rt (date - weekday * usec_per_day))
      else Some (strftime_ym rt date)
  end.

(** [aggregate_by_granularity(transactions, granularity)]. *)
Fixpoint aggregate_from (inflows outflows : flows) (transactions : list txn_item)
    (granularity : string) : reply (flows * flows) :=
  match transactions with
  | [] => Returned (inflows, outflows)
  | txn :: rest =>
      let amount := t_amount txn in
      match date_prefix txn with
      | Raised e => Raised e
      | Returned date_str =>
          if Str.is_empty date_str then aggregate_from inflows outflows rest granularity
          else
            match period_key granularity date_str with
            | None => aggregate_from inflows outflows rest granularity
            | Some key =>
                if Num.geb amount 0
                then aggregate_from (Dict.upd 0%Qc key (fun v => v + amount)%Qc inflows)
                                    outflows rest granularity
                else aggregate_from inflows
                       (Dict.upd 0%Qc key (fun v => v + Num.abs amount)%Qc outflows)
                       rest granularity
            end
      end
  end.

Definition aggregate_by_granularity (transactions : list txn_item)
    (granularity : string) : reply (flows * flows) :=
  aggregate_from [] [] transactions granularity.

(** [validate_date]. *)
Definition validate_date (value : string) : bool :=
  bool_decide (is_Some (strptime_ymd rt value)).

(** The inner loop of lines 105-108: keep what falls in the range. *)
Fixpoint filter_range (start_date end_date : string) (transactions : list txn_item)
    : reply (list txn_item) :=
  match transactions with
  | [] => Returned []
  | txn :: rest =>
      match date_prefix txn with
      | Raised e => Raised e
      | Returned txn_date =>
          match filter_range start_date end_date rest with
          | Raised e => Raised e
          | Returned kept =>
              Returned (if in_range start_date end_date txn_date
                        then txn :: kept else kept)
          end
      end
  end.

(** Lines 96-108: every account with an id contributes its latest 1000
    transactions that fall in the range. *)
Fixpoint collect (user_id start_date end_date : string) (accounts : list account_item)
    : M (list txn_item) :=
  match accounts with
  | [] => ret []
  | account :: rest =>
      mine <- match a_id account with
              | Some account_id =>
                  if Str.is_empty account_id then ret []
                  else
                    transactions <- database.get_account_transactions rt user_id account_id 1000 0 ;;
                    lift_reply (filter_range start_date end_date transactions)
              | None => ret []
              end ;;
      others <- collect user_id start_date end_date rest ;;
      ret (mine ++ others)%list
  end.

Definition key_before (x y : string * Qc) : bool := Str.ltb x.1 y.1.

(** [[{"date": k, "amount": round(v, 2)} for k, v in sorted(d.items())]]. *)
Definition points_of (d : flows) : list point :=
  (fun kv => {| pt_date := kv.1; pt_amount := Num.round kv.2 2 |})
    <$> sorted_by key_before d.

(** Lines 117-119: the totals before they are rounded for the response. *)
Definition total_of (d : flows) : Qc := Num.sum (Dict.values d).
Definition net_of (inflows outflows : flows) : Qc :=
  (total_of inflows - total_of outflows)%Qc.

Definition body_of (inflows outflows : flows) : cash_flow_body :=
  {| get_cash_flow.inflows := points_of inflows;
     get_cash_flow.outflows := points_of outflows;
     net_flow := Num.round (net_of inflows outflows) 2;
     total_inflow := Num.round (total_of inflows) 2;
     total_outflow := Num.round (total_of outflows) 2 |}.

Definition valid_granularity (g : string) : bool :=
  String.eqb g "daily" || String.eqb g "weekly" || String.eqb g "monthly".

Definition handler_try (ev : event) : M (response cash_flow_body) :=
  let user_id := ev_user_id ev in
  let granularity := default "daily" (ev_granularity ev) in
  if missing (ev_start_date ev) then ret (bad_request "start_date is required")
  else if missing (ev_end_date ev) then ret (bad_request "end_date is required")
  else
  let start_date := default EmptyString (ev_start_date ev) in
  let end_date := default EmptyString (ev_end_date ev) in
  if negb (validate_date start_date)
  then ret (bad_request "Invalid start_date format. Use YYYY-MM-DD")
  else if negb (validate_date end_date)
  then ret (bad_request "Invalid end_date format. Use YYYY-MM-DD")
  else if negb (valid_granularity granularity)
  then ret (bad_request
    "Invalid value for granularity. Must be one of: daily, weekly, monthly")
  else
  accounts <- database.get_user_accounts rt user_id ;;
  all_transactions <- collect user_id start_date end_date accounts ;;
  flows <- lift_reply (aggregate_by_granularity all_transactions granularity) ;;
  ret (success (body_of flows.1 flows.2)).

Definition handler (ev : event) (w : world) : response cash_flow_body * world :=
  match handler_try ev w with
  | (Returned r, w') => (r, w')
  | (Raised _, w') => (internal_error "Failed to retrieve cash flow data", w')
  end.

End get_cash_flow.
End get_cash_flow.

(* ===================================================================== *)
(** * analytics/get_spending_by_category.py *)
(* ===================================================================== *)

Module get_spending_by_category.

Record event := {
  ev_user_id : string;
  ev_start_date : option string;
  ev_end_date : option string }.

Record category_row := {
  category_name : string;
  icon_name : string;
  color_hex : string;
  amount : Qc;
  percentage : Qc;
  transaction_count : nat }.

Record spending_body := {
  categories : list category_row;
  total_spending : Qc }.

(** One value of [category_spending]: ["amount"] and ["count"]. *)
Abbreviation spending := (list (string * (Qc * nat))).

Definition CATEGORY_CONFIG : list (string * (string * string)) :=
  [ ("Food & Dining", ("fork.knife", "#FF6B6B"));
    ("Shopping", ("bag", "#4ECDC4"));
    ("Transportation", ("car", "#45B7D1"));
    ("Entertainment", ("film", "#96CEB4"));
    ("Bills & Utilities", ("doc.text", "#FFEAA7"));
    ("Health", ("heart", "#FF8A5B"));
    ("Travel", ("airplane", "#A8E6CF"));
    ("Education", ("book", "#DDA0DD"));
    ("Personal Care", ("person", "#FFB6C1"));
    ("Other", ("ellipsis.circle", "#B0B0B0")) ].

Definition config_of (category_name : string) : string * string :=
  default ("ellipsis.circle", "#B0B0B0") (Dict.get category_name CATEGORY_CONFIG).

(** The loop body of lines 76-90 for the transactions of one account. *)
Fixpoint tally (start_date end_date : string) (category_spending : spending)
    (transactions : list txn_item) : reply spending :=
  match transactions with
  | [] => Returned category_spending
  | txn :: rest =>
      match date_prefix txn with
      | Raised e => Raised e
      | Returned txn_date =>
          let amount := t_amount txn in
          if Num.geb amount 0 then tally start_date end_date category_spending rest
          else if negb (in_range start_date end_date txn_date)
          then tally start_date end_date category_spending rest
          else
            let category := t_category_name txn in
            tally start_date end_date
              (Dict.upd (0%Qc, 0%nat) category
                 (fun v => ((v.1 + Num.abs amount)%Qc, S v.2)) category_spending)
              rest
      end
  end.

(** The percentage of one category before it is rounded (line 100). *)
Definition share (amount total_spending : Qc) : Qc :=
  if Num.gtb total_spending 0 then (amount / total_spending)%Qc else 0%Qc.

Definition total_of (category_spending : spending) : Qc :=
  Num.sum ((fun v => v.1) <$> Dict.values category_spending).

(** [sorted(..., key=amount, reverse=True)]. *)
Definition larger_first (x y : string * (Qc * nat)) : bool := Num.gtb x.2.1 y.2.1.

Definition row_of (total_spending : Qc) (kv : string * (Qc * nat)) : category_row :=
  let config := config_of kv.1 in
  {| category_name := kv.1;
     icon_name := config.1;
     color_hex := config.2;
     amount := Num.round kv.2.1 2;
     percentage := Num.round (share kv.2.1 total_spending) 4;
     transaction_count := kv.2.2 |}.

Definition body_of (category_spending : spending) : spending_body :=
  let total_spending := total_of category_spending in
  {| categories := row_of total_spending <$> sorted_by larger_first category_spending;
     get_spending_by_category.total_spending := Num.round total_spending 2 |}.

Section get_spending_by_category.

Variable rt : runtime.

(** Lines 62-90: the loop over the accounts. *)
Fixpoint collect (user_id start_date end_date : string)
    (category_spending : spending) (accounts : list account_item) : M spending :=
  match accounts with
  | [] => ret category_spending
  | account :: rest =>
      category_spending <-
        match a_id account with
        | Some account_id =>
            if Str.is_empty account_id then ret category_spending
            else
              transactions <- database.get_account_transactions rt user_id account_id 1000 0 ;;
              lift_reply (tally start_date end_date category_spending transactions)
        | None => ret category_spending
        end ;;
      collect user_id start_date end_date category_spending rest
  end.

Definition handler_try (ev : event) : M (response spending_body) :=
  let user_id := ev_user_id ev in
  if missing (ev_start_date ev) then ret (bad_request "start_date is required")
  else if missing (ev_end_date ev) then ret (bad_request "end_date is required")
  else
  let start_date := default EmptyString (ev_start_date ev) in
  let end_date := default EmptyString (ev_end_date ev) in
  if negb (get_cash_flow.validate_date rt start_date)
  then ret (bad_request "Invalid start_date format. Use YYYY-MM-DD")
  else if negb (get_cash_flow.validate_date rt end_date)
  then ret (bad_request "Invalid end_date format. Use YYYY-MM-DD")
  else
  accounts <- database.get_user_accounts rt user_id ;;
  category_spending <- collect user_id start_date end_date [] accounts ;;
  ret (success (body_of category_spending)).

Definition handler (ev : event) (w : world) : response spending_body * world :=
  match handler_try ev w with
  | (Returned r, w') => (r, w')
  | (Raised _, w') => (internal_error "Failed to retrieve spending data", w')
  end.

End get_spending_by_category.
End get_spending_by_category.

(* ===================================================================== *)
(** * analytics/get_budget_comparison.py *)
(* ===================================================================== *)

Module get_budget_comparison.

Record event := {
  ev_user_id : string;
  ev_month : option string }.

Record category_row := {
  category_name : string;
  budgeted : Qc;
  actual : Qc;
  is_over_budget : bool }.

Record budget_body := {
  total_budgeted : Qc;
  total_actual : Qc;
  total_is_over_budget : bool;
  percent_used : Qc;
  by_category : list category_row }.

(** [validate_month]: [^\d{4}-(0[1-9]|1[0-2])$]. *)
Definition month_digits (s : string) : bool :=
  match s with
  | String a (String b rest) =>
      validation.at_end rest &&
      ((Ascii.eqb a "0" && Str.is_digit b && negb (Ascii.eqb b "0")) ||
       (Ascii.eqb a "1" && (Ascii.eqb b "0" || Ascii.eqb b "1" || Ascii.eqb b "2")))
  | _ => false
  end.

Definition validate_month (value : string) : bool :=
  match s ← validation.chars Str.is_digit 4 value; validation.dash s with
  | Some rest => month_digits rest
  | None => false
  end.

(** [f"{n:02d}"] for [n >= 0]. *)
Definition two_digits (n : Z) : string :=
  if (n <? 10)%Z then "0" +:+ pretty n else pretty n.

(** Lines 64-71: the first day of the month and of the next one.  [month] has
    passed [validate_month], so [month.split("-")] has two parts: the first
    four characters and what follows the dash. *)
Definition month_range (month : string) : reply (string * string) :=
  let year := Str.take 4 month in
  let month_num := String.substring 5 (String.length month - 5) month in
  let start_date := month +:+ "-01" in
  if String.eqb month_num "12" then
    match validation.int year with
    | Some y => Returned (start_date, pretty (y + 1)%Z +:+ "-01-01")
    | None => Raised (ValueError "invalid literal for int() with base 10")
    end
  else
    match validation.int month_num with
    | Some m => Returned (start_date, year +:+ "-" +:+ two_digits (m + 1) +:+ "-01")
    | None => Raised (ValueError "invalid literal for int() with base 10")
    end.

Abbreviation actuals := (list (string * Qc)).

(** The loop body of lines 90-103 for the transactions of one account. *)
Fixpoint tally (start_date end_date : string) (category_actual : actuals)
    (transactions : list txn_item) : reply actuals :=
  match transactions with
  | [] => Returned category_actual
  | txn :: rest =>
      match date_prefix txn with
      | Raised e => Raised e
      | Returned txn_date =>
          let amount := t_amount txn in
          if Num.geb amount 0 then tally start_date end_date category_actual rest
          else if negb (in_month start_date end_date txn_date)
          then tally start_date end_date category_actual rest
          else
            let category := t_category_name txn in
            tally start_date end_date
              (Dict.upd 0%Qc category (fun v => v + Num.abs amount)%Qc category_actual)
              rest
      end
  end.

(** [sorted(set(category_budgets.keys()) | set(category_actual.keys()))]. *)
Definition all_categories (category_budgets category_actual : actuals) : list string :=
  sorted_by Str.ltb
    (remove_dups (Dict.keys category_budgets ++ Dict.keys category_actual)%list).

Definition over (actual budgeted : Qc) : bool :=
  if Num.gtb budgeted 0 then Num.gtb actual budgeted else false.

Definition row_of (category_budgets category_actual : actuals) (name : string)
    : category_row :=
  let cat_budgeted := default 0%Qc (Dict.get name category_budgets) in
  let cat_actual := default 0%Qc (Dict.get name category_actual) in
  {| category_name := name;
     budgeted := Num.round cat_budgeted 2;
     actual := Num.round cat_actual 2;
     is_over_budget := over cat_actual cat_budgeted |}.

(** Lines 105-131, from the stored budget and the actuals. *)
Definition body_of (budget : option budget_item) (category_actual : actuals)
    : budget_body :=
  let budgeted_total := default 0%Qc (budget ≫= b_total_budget) in
  let category_budgets := default [] (budget ≫= b_categories) in
  let actual_total := Num.sum (Dict.values category_actual) in
  {| total_budgeted := Num.round budgeted_total 2;
     total_actual := Num.round actual_total 2;
     total_is_over_budget := over actual_total budgeted_total;
     percent_used :=
       Num.round (if Num.gtb budgeted_total 0
                  then (actual_total / budgeted_total)%Qc else 0%Qc) 4;
     by_category :=
       row_of category_budgets category_actual
         <$> all_categories category_budgets category_actual |}.

Section get_budget_comparison.

Variable rt : runtime.

(** [get_user_budget]: a missing item and a failed read both give [{}]. *)
Definition get_user_budget (user_id month : string) : M (option budget_item) :=
  try_except
    (database.db_call rt
       (fun w => (budgets w !! ("USER#" +:+ user_id, "BUDGET#" +:+ month), w)))
    (fun e => ret None).

Fixpoint collect (user_id start_date end_date : string)
    (category_actual : actuals) (accounts : list account_item) : M actuals :=
  match accounts with
  | [] => ret category_actual
  | account :: rest =>
      category_actual <-
        match a_id account with
        | Some account_id =>
            if Str.is_empty account_id then ret category_actual
            else
              transactions <- database.get_account_transactions rt user_id account_id 1000 0 ;;
              lift_reply (tally start_date end_date category_actual transactions)
        | None => ret category_actual
        end ;;
      collect user_id start_date end_date category_actual rest
  end.

Definition handler_try (ev : event) : M (response budget_body) :=
  let user_id := ev_user_id ev in
  if missing (ev_month ev) then ret (bad_request "month is required (format: YYYY-MM)")
  else
  let month := default EmptyString (ev_month ev) in
  if negb (validate_month month) then ret (bad_request "Invalid month format. Use YYYY-MM")
  else
  budget <- get_user_budget user_id month ;;
  range <- lift_reply (month_range month) ;;
  accounts <- database.get_user_accounts rt user_id ;;
  category_actual <- collect user_id range.1 range.2 [] accounts ;;
  ret (success (body_of budget category_actual)).

Definition handler (ev : event) (w : world) : response budget_body * world :=
  match handler_try ev w with
  | (Returned r, w') => (r, w')
  | (Raised _, w') => (internal_error "Failed to retrieve budget comparison", w')
  end.

End get_budget_comparison.
End get_budget_comparison.

(* ===================================================================== *)
(** * analytics/get_savings_progress.py *)
(* ===================================================================== *)

Module get_savings_progress.

(** [s.replace("Z", "+00:00")]. *)
Fixpoint replace_Z (s : string) : string :=
  match s with
  | EmptyString => EmptyString
  | String c s' =>
      if Ascii.eqb c "Z" then "+00:00" +:+ replace_Z s' else String c (replace_Z s')
  end.

(** [timedelta.days]: whole days, rounded down. *)
Definition days_of (delta : Z) : Z := (delta / usec_per_day)%Z.

(** The ["goal"] entry of one row of the response. *)
Record goal_summary := {
  gs_id : option string;
  gs_title : option string;
  gs_target_amount : Qc;
  gs_current_amount : Qc;
  gs_target_date : option string;
  gs_progress : Qc }.

Record progress_row := {
  pr_goal : goal_summary;
  pr_monthly_contribution : Qc;
  pr_projected_completion_date : option string;
  pr_on_track : bool }.

Record progress_body := {
  pb_goals : list progress_row;
  pb_total_saved : Qc;
  pb_total_target : Qc;
  pb_overall_progress : Qc }.

(** The locals the loop of the handler assigns. *)
Record totals := {
  goal_progress : list progress_row;
  total_saved : Qc;
  total_target : Qc }.

Definition row_of (goal : goal_item) (projection : option string * bool * Qc)
    : progress_row :=
  {| pr_goal :=
       {| gs_id := g_id goal;
          gs_title := g_title goal;
          gs_target_amount := default 0%Qc (g_target_amount goal);
          gs_current_amount := default 0%Qc (g_current_amount goal);
          gs_target_date := g_target_date goal;
          gs_progress := default 0%Qc (g_progress goal) |};
     pr_monthly_contribution := Num.round projection.2 2;
     pr_projected_completion_date := projection.1.1;
     pr_on_track := projection.1.2 |}.

(** [total_saved / total_target if total_target > 0 else 0]. *)
Definition overall_of (total_saved total_target : Qc) : Qc :=
  if Num.gtb total_target 0 then (total_saved / total_target)%Qc else 0%Qc.

Definition body_of (t : totals) : progress_body :=
  {| pb_goals := goal_progress t;
     pb_total_saved := Num.round (total_saved t) 2;
     pb_total_target := Num.round (total_target t) 2;
     pb_overall_progress := Num.round (overall_of (total_saved t) (total_target t)) 4 |}.

Section get_savings_progress.

Variable rt : runtime.

(** [calculate_projected_completion(goal)]: the projected completion date,
    whether the goal is on track, and the monthly contribution.  [datetime.now()]
    is a reading of the runtime's clock; [fromisoformat] yields the wall-clock
    time and whether the value carries a UTC offset. *)
Definition calculate_projected_completion (goal : goal_item)
    : M (option string * bool * Qc) :=
  let current_amount := default 0%Qc (g_current_amount goal) in
  let target_amount := default 0%Qc (g_target_amount goal) in
  let created_at := default EmptyString (g_created_at goal) in
  match g_target_date goal with
  | None => ret (None, false, 0%Qc)
  | Some target_date =>
  if Str.is_empty target_date || Num.leb target_amount 0 then ret (None, false, 0%Qc)
  else
  match strptime_ymd rt target_date, fromisoformat rt (replace_Z created_at) with
  | Some target, Some (created, aware) =>
      now <- database.datetime_utcnow rt ;;
      let remaining := (target_amount - current_amount)%Qc in
      if Num.leb remaining 0 then
        if aware
        then raise (TypeError "can't compare offset-naive and offset-aware datetimes")
        else if (created <? target)%Z then
          if (days_of (target - created) =? 0)%Z
          then raise (ZeroDivisionError "division by zero")
          else ret (Some target_date, true,
                    (current_amount / Num.of_Z (days_of (target - created)))%Qc)
        else ret (Some target_date, true, 0%Qc)
      else
      let days_elapsed := days_of (now - created) in
      if (days_elapsed <=? 0)%Z then ret (Some target_date, true, 0%Qc)
      else
      let daily_rate := (current_amount / Num.of_Z days_elapsed)%Qc in
      let days_to_target := days_of (target - now) in
      if (days_to_target <=? 0)%Z
      then ret (Some target_date, false, (daily_rate * Num.of_Z 30)%Qc)
      else
      if Num.gtb daily_rate 0 then
        let days_to_complete := (remaining / daily_rate)%Qc in
        delta <- timedelta_days (Num.trunc days_to_complete) ;;
        projected_date <- datetime_add now delta ;;
        ret (Some (strftime_ymd rt projected_date),
             bool_decide (projected_date ≤ target)%Z,
             (daily_rate * Num.of_Z 30)%Qc)
      else ret (None, false, (daily_rate * Num.of_Z 30)%Qc)
  | _, _ => ret (None, false, 0%Qc)
  end
  end.

(** The body of the loop over the active goals (lines 91-111). *)
Definition add_goal (t : totals) (goal : goal_item) : M totals :=
  let current_amount := default 0%Qc (g_current_amount goal) in
  let target_amount := default 0%Qc (g_target_amount goal) in
  projection <- calculate_projected_completion goal ;;
  ret {| goal_progress := (goal_progress t ++ [row_of goal projection])%list;
         total_saved := (total_saved t + current_amount)%Qc;
         total_target := (total_target t + target_amount)%Qc |}.

Definition handler_try (user_id : string) : M (response progress_body) :=
  goals <- database.get_user_goals rt user_id "active" ;;
  t <- for_fold goals add_goal
         {| goal_progress := []; total_saved := 0%Qc; total_target := 0%Qc |} ;;
  ret (success (body_of t)).

Definition handler (user_id : string) (w : world) : response progress_body * world :=
  match handler_try user_id w with
  | (Returned r, w') => (r, w')
  | (Raised _, w') => (internal_error "Failed to retrieve savings progress", w')
  end.

End get_savings_progress.
End get_savings_progress.

(* ===================================================================== *)
(** * GoalRepository (shared/database.py) *)
(* ===================================================================== *)

(** The [goal_data] dictionary handed to [create_goal]: the keys its callers
    pass, each possibly absent. *)
Record goal_data := {
  gd_title : option string;
  gd_description : option string;
  gd_target_amount : option Qc;
  gd_current_amount : option Qc;
  gd_target_date : option string;
  gd_category : option string;
  gd_is_ai_generated : option bool;
  gd_priority : option Z;
  gd_progress : option Qc }.

(** The [updates] dictionary handed to [update_goal]; a present
    ["target_date"] may hold [None]. *)
Record goal_updates := {
  u_title : option string;
  u_description : option string;
  u_target_amount : option Qc;
  u_current_amount : option Qc;
  u_target_date : option (option string);
  u_category : option string;
  u_priority : option Z;
  u_last_updated : option string;
  u_progress : option Qc }.

Definition no_updates : goal_updates :=
  {| u_title := None; u_description := None; u_target_amount := None;
     u_current_amount := None; u_target_date := None; u_category := None;
     u_priority := None; u_last_updated := None; u_progress := None |}.

Definition with_last_updated (now : string) (u : goal_updates) : goal_updates :=
  {| u_title := u_title u; u_description := u_description u;
     u_target_amount := u_target_amount u; u_current_amount := u_current_amount u;
     u_target_date := u_target_date u; u_category := u_category u;
     u_priority := u_priority u; u_last_updated := Some now;
     u_progress := u_progress u |}.

Definition with_progress (p : Qc) (u : goal_updates) : goal_updates :=
  {| u_title := u_title u; u_description := u_description u;
     u_target_amount := u_target_amount u; u_current_amount := u_current_amount u;
     u_target_date := u_target_date u; u_category := u_category u;
     u_priority := u_priority u; u_last_updated := u_last_updated u;
     u_progress := Some p |}.

(** [new if the key is in updates else old]. *)
Definition pick {A} (new : option A) (old : option A) : option A :=
  match new with Some v => Some v | None => old end.

(** The effect on the stored goal of the SET expression built from
    [updates]. *)
Definition apply_goal_updates (pk sk : string) (u : goal_updates)
    (old : option goal_item) : goal_item :=
  let o := default {| g_pk := pk; g_sk := sk; g_id := None; g_user_id := None;
                      g_created_at := None; g_status := None;
                      g_is_ai_generated := None; g_progress := None;
                      g_title := None; g_description := None;
                      g_target_amount := None; g_current_amount := None;
                      g_target_date := None; g_category := None;
                      g_priority := None; g_last_updated := None |} old in
  {| g_pk := g_pk o; g_sk := g_sk o; g_id := g_id o; g_user_id := g_user_id o;
     g_created_at := g_created_at o; g_status := g_status o;
     g_is_ai_generated := g_is_ai_generated o;
     g_progress := pick (u_progress u) (g_progress o);
     g_title := pick (u_title u) (g_title o);
     g_description := pick (u_description u) (g_description o);
     g_target_amount := pick (u_target_amount u) (g_target_amount o);
     g_current_amount := pick (u_current_amount u) (g_current_amount o);
     g_target_date := match u_target_date u with
                      | Some d => d
                      | None => g_target_date o
                      end;
     g_category := pick (u_category u) (g_category o);
     g_priority := pick (u_priority u) (g_priority o);
     g_last_updated := pick (u_last_updated u) (g_last_updated o) |}.

(** [current / target if target > 0 else 0]: the one formula of
    [create_goal], [update_goal] and the create handler. *)
Definition progress_of (current_amount target_amount : Qc) : Qc :=
  if Num.gtb target_amount 0 then (current_amount / target_amount)%Qc else 0%Qc.

Module goal_repository.
Section goal_repository.

Variable rt : runtime.

Definition get_goal (user_id goal_id : string) : M (option goal_item) :=
  database.get_by_id rt ("USER#" +:+ user_id) ("GOAL#" +:+ goal_id).

(** [create_goal(user_id, goal_data)]: [**goal_data] comes last in the item,
    so its ["is_ai_generated"] and ["progress"] win over the computed ones. *)
Definition create_goal (user_id : string) (goal_data : goal_data) : M goal_item :=
  goal_id <- database.generate_id rt ;;
  let current_amount := default 0%Qc (gd_current_amount goal_data) in
  let target_amount := default 1%Qc (gd_target_amount goal_data) in
  let progress := progress_of current_amount target_amount in
  created_at <- database.get_timestamp rt ;;
  database.put rt
    {| g_pk := "USER#" +:+ user_id;
       g_sk := "GOAL#" +:+ goal_id;
       g_id := Some goal_id;
       g_user_id := Some user_id;
       g_created_at := Some created_at;
       g_status := Some "active";
       g_is_ai_generated := Some (default false (gd_is_ai_generated goal_data));
       g_progress := Some (default progress (gd_progress goal_data));
       g_title := gd_title goal_data;
       g_description := gd_description goal_data;
       g_target_amount := gd_target_amount goal_data;
       g_current_amount := gd_current_amount goal_data;
       g_target_date := gd_target_date goal_data;
       g_category := gd_category goal_data;
       g_priority := gd_priority goal_data;
       g_last_updated := None |}.

(** [update_goal(user_id, goal_id, updates)]. *)
Definition update_goal (user_id goal_id : string) (updates : goal_updates)
    : M goal_item :=
  now <- database.get_timestamp rt ;;
  let updates := with_last_updated now updates in
  updates <-
    (if bool_decide (is_Some (u_current_amount updates) ∨ is_Some (u_target_amount updates))
     then
       goal <- get_goal user_id goal_id ;;
       match goal with
       | Some goal =>
           let current := default (default 0%Qc (g_current_amount goal))
                                  (u_current_amount updates) in
           let target := default (default 1%Qc (g_target_amount goal))
                                 (u_target_amount updates) in
           ret (with_progress (progress_of current target) updates)
       | None => ret updates
       end
     else ret updates) ;;
  database.update rt ("USER#" +:+ user_id) ("GOAL#" +:+ goal_id)
    (apply_goal_updates ("USER#" +:+ user_id) ("GOAL#" +:+ goal_id) updates).

End goal_repository.
End goal_repository.

(* ===================================================================== *)
(** * goals/create_goal.py, update_goal.py, contribute_to_goal.py *)
(* ===================================================================== *)

Definition VALID_CATEGORIES : list string :=
  [ "savings"; "debt_payoff"; "emergency"; "investment";
    "purchase"; "retirement"; "vacation"; "custom" ].

Definition valid_category (c : string) : bool :=
  existsb (String.eqb c) VALID_CATEGORIES.

(** [sanitize_string(value, max_length)] on a [str]. *)
Definition sanitize_string (value : string) (max_length : nat) : string :=
  let value := Str.strip value in
  if (max_length <? String.length value)%nat then Str.take max_length value else value.

(** [validate_amount(value)] on a number: the error message, if any.  The
    count of decimals is taken on [f"{value:.10f}"]. *)
Definition validate_amount (value : Qc) : option string :=
  if bool_decide (value < 0)%Qc then Some "Amount cannot be negative"
  else
    let shown := Num.round value 10 in
    if bool_decide (Num.round shown 2 = shown) then None
    else Some "Amount cannot have more than 2 decimal places".

Module create_goal.

Record request_body := {
  title : option string;
  description : option string;
  target_amount : option Qc;
  current_amount : option Qc;
  target_date : option string;
  category : option string }.

Section create_goal.

Variable rt : runtime.

(** [require_fields(body, ["title", "target_amount"])]. *)
Definition require_fields (body : request_body) : M unit :=
  match title body, target_amount body with
  | Some _, Some _ => ret tt
  | None, Some _ => raise (ValidationError "Missing required fields: title")
  | Some _, None => raise (ValidationError "Missing required fields: target_amount")
  | None, None => raise (ValidationError "Missing required fields: title, target_amount")
  end.

Definition handler_try (user_id : string) (body : request_body)
    : M (response goal_item) :=
  require_fields body ;;;
  let title := sanitize_string (default EmptyString (title body)) 200 in
  let description := sanitize_string (default EmptyString (description body)) 1000 in
  let target_amount := default 0%Qc (target_amount body) in
  let current_amount := default 0%Qc (current_amount body) in
  let target_date := target_date body in
  let category := default "custom" (category body) in
  if Str.is_empty title then ret (bad_request "Title cannot be empty")
  else
  match validate_amount target_amount with
  | Some error => ret (bad_request ("Invalid target_amount: " +:+ error))
  | None =>
  match validate_amount current_amount with
  | Some error => ret (bad_request ("Invalid current_amount: " +:+ error))
  | None =>
  if Num.leb target_amount 0 then ret (bad_request "Target amount must be greater than 0")
  else if negb (missing target_date) &&
          negb (get_cash_flow.validate_date rt (default EmptyString target_date))
  then ret (bad_request "Invalid target_date format. Use YYYY-MM-DD")
  else if negb (valid_category category)
  then ret (bad_request
    "Invalid category. Must be one of: savings, debt_payoff, emergency, investment, purchase, retirement, vacation, custom")
  else
  let progress := progress_of current_amount target_amount in
  goal <- goal_repository.create_goal rt user_id
    {| gd_title := Some title;
       gd_description := Some description;
       gd_target_amount := Some target_amount;
       gd_current_amount := Some current_amount;
       gd_target_date := target_date;
       gd_category := Some category;
       gd_is_ai_generated := Some false;
       gd_priority := Some 0%Z;
       gd_progress := Some progress |} ;;
  ret (created goal)
  end end.

Definition handler (user_id : string) (body : request_body) (w : world)
    : response goal_item * world :=
  match handler_try user_id body w with
  | (Returned r, w') => (r, w')
  | (Raised (ValidationError m), w') => (bad_request m, w')
  | (Raised _, w') => (internal_error "Failed to create goal", w')
  end.

End create_goal.
End create_goal.

Module update_goal.

Record request_body := {
  title : option string;
  description : option string;
  target_amount : option Qc;
  current_amount : option Qc;
  target_date : option (option string);
  category : option string;
  priority : option Z }.

(** [if not body]: no key at all. *)
Definition is_empty (body : request_body) : bool :=
  match title body, description body, target_amount body, current_amount body,
        target_date body, category body, priority body with
  | None, None, None, None, None, None, None => true
  | _, _, _, _, _, _, _ => false
  end.

Section update_goal.

Variable rt : runtime.

(** Lines 62-103: the checks in source order; the result is the [updates]
    dictionary or the 400 of the first check that fails. *)
Definition build_updates (body : request_body) : response goal_updates :=
  let title' := (fun t => sanitize_string t 200) <$> title body in
  if bool_decide (title' = Some EmptyString) then bad_request "Title cannot be empty"
  else
  let description' := (fun d => sanitize_string d 1000) <$> description body in
  match target_amount body ≫= validate_amount with
  | Some error => bad_request ("Invalid target_amount: " +:+ error)
  | None =>
  if match target_amount body with Some t => Num.leb t 0 | None => false end
  then bad_request "Target amount must be greater than 0"
  else
  match current_amount body ≫= validate_amount with
  | Some error => bad_request ("Invalid current_amount: " +:+ error)
  | None =>
  if match target_date body with
     | Some (Some d) => negb (Str.is_empty d) && negb (get_cash_flow.validate_date rt d)
     | _ => false
     end
  then bad_request "Invalid target_date format. Use YYYY-MM-DD"
  else if match category body with Some c => negb (valid_category c) | None => false end
  then bad_request
    "Invalid category. Must be one of: savings, debt_payoff, emergency, investment, purchase, retirement, vacation, custom"
  else if match priority body with Some p => (p <? 0)%Z | None => false end
  then bad_request "Priority must be a non-negative integer"
  else
    success {| u_title := title'; u_description := description';
               u_target_amount := target_amount body;
               u_current_amount := current_amount body;
               u_target_date := target_date body;
               u_category := category body;
               u_priority := priority body;
               u_last_updated := None; u_progress := None |}
  end end.

Definition handler_try (user_id : string) (goal_id : option string)
    (body : request_body) : M (response goal_item) :=
  match goal_id with
  | None => ret (bad_request "Goal ID is required")
  | Some goal_id =>
  if Str.is_empty goal_id then ret (bad_request "Goal ID is required")
  else if negb (validation.validate_uuid goal_id)
  then ret (bad_request "Invalid goal ID format")
  else if is_empty body then ret (bad_request "Request body cannot be empty")
  else
  existing_goal <- goal_repository.get_goal rt user_id goal_id ;;
  match existing_goal with
  | None => ret (not_found "Goal not found")
  | Some _ =>
  match build_updates body with
  | Error s c m => ret (Error s c m)
  | Body _ updates =>
      updated_goal <- goal_repository.update_goal rt user_id goal_id updates ;;
      ret (success updated_goal)
  end end end.

Definition handler (user_id : string) (goal_id : option string)
    (body : request_body) (w : world) : response goal_item * world :=
  match handler_try user_id goal_id body w with
  | (Returned r, w') => (r, w')
  | (Raised (ValidationError m), w') => (bad_request m, w')
  | (Raised _, w') => (internal_error "Failed to update goal", w')
  end.

End update_goal.
End update_goal.

Module contribute_to_goal.

Record request_body := {
  amount : option Qc;
  note : option string }.

Record contribution := {
  c_id : string;
  c_amount : Qc;
  c_date : string;
  c_note : string }.

Section contribute_to_goal.

Variable rt : runtime.

Definition handler_try (user_id : string) (goal_id : option string)
    (body : request_body) : M (response (goal_item * contribution)) :=
  match goal_id with
  | None => ret (bad_request "Goal ID is required")
  | Some goal_id =>
  if Str.is_empty goal_id then ret (bad_request "Goal ID is required")
  else if negb (validation.validate_uuid goal_id)
  then ret (bad_request "Invalid goal ID format")
  else
  match amount body with
  | None => raise (ValidationError "Missing required fields: amount")
  | Some amount =>
  let note := sanitize_string (default EmptyString (note body)) 500 in
  match validate_amount amount with
  | Some error => ret (bad_request ("Invalid amount: " +:+ error))
  | None =>
  if Num.leb amount 0 then ret (bad_request "Contribution amount must be greater than 0")
  else
  goal <- goal_repository.get_goal rt user_id goal_id ;;
  match goal with
  | None => ret (not_found "Goal not found")
  | Some goal =>
  let new_current_amount := (default 0%Qc (g_current_amount goal) + amount)%Qc in
  updated_goal <- goal_repository.update_goal rt user_id goal_id
    {| u_title := None; u_description := None; u_target_amount := None;
       u_current_amount := Some new_current_amount; u_target_date := None;
       u_category := None; u_priority := None; u_last_updated := None;
       u_progress := None |} ;;
  id <- database.generate_id rt ;;
  date <- database.get_timestamp rt ;;
  ret (success (updated_goal,
                {| c_id := id; c_amount := amount; c_date := date; c_note := note |}))
  end end end end.

Definition handler (user_id : string) (goal_id : option string)
    (body : request_body) (w : world)
    : response (goal_item * contribution) * world :=
  match handler_try user_id goal_id body w with
  | (Returned r, w') => (r, w')
  | (Raised (ValidationError m), w') => (bad_request m, w')
  | (Raised _, w') => (internal_error "Failed to add contribution", w')
  end.

End contribute_to_goal.
End contribute_to_goal.

(* ===================================================================== *)
(** * goals/get_goal.py, list_goals.py, delete_goal.py *)
(* ===================================================================== *)

(** A goal as the read handlers format it. *)
Record goal_view := {
  gv_id : option string;
  gv_title : option string;
  gv_description : option string;
  gv_target_amount : Qc;
  gv_current_amount : Qc;
  gv_target_date : option string;
  gv_created_at : option string;
  gv_category : option string;
  gv_is_ai_generated : bool;
  gv_priority : Z;
  gv_progress : Qc }.

Definition format_goal (goal : goal_item) : goal_view :=
  {| gv_id := g_id goal;
     gv_title := g_title goal;
     gv_description := g_description goal;
     gv_target_amount := default 0%Qc (g_target_amount goal);
     gv_current_amount := default 0%Qc (g_current_amount goal);
     gv_target_date := g_target_date goal;
     gv_created_at := g_created_at goal;
     gv_category := g_category goal;
     gv_is_ai_generated := default false (g_is_ai_generated goal);
     gv_priority := default 0%Z (g_priority goal);
     gv_progress := default 0%Qc (g_progress goal) |}.

Module get_goal.
Section get_goal.

Variable rt : runtime.

Definition handler_try (user_id : string) (goal_id : option string)
    : M (response goal_view) :=
  match goal_id with
  | None => ret (bad_request "Goal ID is required")
  | Some goal_id =>
  if Str.is_empty goal_id then ret (bad_request "Goal ID is required")
  else if negb (validation.validate_uuid goal_id)
  then ret (bad_request "Invalid goal ID format")
  else
  goal <- goal_repository.get_goal rt user_id goal_id ;;
  match goal with
  | None => ret (not_found "Goal not found")
  | Some goal => ret (success (format_goal goal))
  end
  end.

Definition handler (user_id : string) (goal_id : option string) (w : world)
    : response goal_view * world :=
  match handler_try user_id goal_id w with
  | (Returned r, w') => (r, w')
  | (Raised _, w') => (internal_error "Failed to retrieve goal", w')
  end.

End get_goal.
End get_goal.

Module list_goals.

Record event := {
  ev_user_id : string;
  ev_status : option string;
  ev_category : option string }.

(** [g.get("category", EmptyString).lower() == category.lower()]. *)
Definition in_category (category : string) (goal : goal_item) : Prop :=
  Str.lower (default EmptyString (g_category goal)) = Str.lower category.
Global Instance in_category_dec category goal : Decision (in_category category goal).
Proof. unfold in_category. apply _. Defined.

Section list_goals.

Variable rt : runtime.

Definition handler_try (ev : event) : M (response (list goal_view)) :=
  let user_id := ev_user_id ev in
  let status := validation.get_query_param (ev_status ev) "active" in
  let category := ev_category ev in
  match validation.validate_enum status ["active"; "completed"; "all"] "status" with
  | Raised e => ret (bad_request (exn_str e))
  | Returned _ =>
  goals <- database.get_user_goals rt user_id status ;;
  let goals := if missing category then goals
               else filter (in_category (default EmptyString category)) goals in
  ret (success (format_goal <$> goals))
  end.

Definition handler (ev : event) (w : world) : response (list goal_view) * world :=
  match handler_try ev w with
  | (Returned r, w') => (r, w')
  | (Raised _, w') => (internal_error "Failed to retrieve goals", w')
  end.

End list_goals.
End list_goals.

Module delete_goal.

Record deleted := { d_success : bool; d_message : string }.

Section delete_goal.

Variable rt : runtime.

Definition handler_try (user_id : string) (goal_id : option string)
    : M (response deleted) :=
  match goal_id with
  | None => ret (bad_request "Goal ID is required")
  | Some goal_id =>
  if Str.is_empty goal_id then ret (bad_request "Goal ID is required")
  else if negb (validation.validate_uuid goal_id)
  then ret (bad_request "Invalid goal ID format")
  else
  existing_goal <- goal_repository.get_goal rt user_id goal_id ;;
  match existing_goal with
  | None => ret (not_found "Goal not found")
  | Some _ =>
      database.delete_goal rt user_id goal_id ;;;
      ret (success {| d_success := true; d_message := "Goal deleted successfully" |})
  end
  end.

Definition handler (user_id : string) (goal_id : option string) (w : world)
    : response deleted * world :=
  match handler_try user_id goal_id w with
  | (Returned r, w') => (r, w')
  | (Raised _, w') => (internal_error "Failed to delete goal", w')
  end.

End delete_goal.
End delete_goal.

(* ===================================================================== *)
(** * accounts/get_transactions.py *)
(* ===================================================================== *)

Module get_transactions.

Record event := {
  ev_user_id : string;
  ev_account_id : option string;
  ev_start_date : option string;
  ev_end_date : option string;
  ev_limit : option string;
  ev_offset : option string;
  ev_category : option string }.

(** One formatted transaction.  A stored transaction has no ["is_income"]
    and no ["merchant"] attribute, so the two [.get]s give their defaults. *)
Record txn_view := {
  tv_id : string;
  tv_amount : Qc;
  tv_description : string;
  tv_date : option string;
  tv_category_name : string;
  tv_is_income : bool;
  tv_merchant : option string }.

Record pagination := {
  pg_total : Z;
  pg_limit : Z;
  pg_offset : Z;
  pg_has_more : bool }.

Record page_body := {
  pb_transactions : list txn_view;
  pb_pagination : pagination }.

Definition format_txn (txn : txn_item) : txn_view :=
  {| tv_id := t_id txn;
     tv_amount := t_amount txn;
     tv_description := t_description txn;
     tv_date := t_date txn;
     tv_category_name := t_category_name txn;
     tv_is_income := false;
     tv_merchant := None |}.

(** [[t for t in transactions if keep(t.get("date", EmptyString)[:10])]]. *)
Fixpoint filter_date (keep : string -> bool) (transactions : list txn_item)
    : reply (list txn_item) :=
  match transactions with
  | [] => Returned []
  | t :: rest =>
      match date_prefix t with
      | Raised e => Raised e
      | Returned d =>
          match filter_date keep rest with
          | Raised e => Raised e
          | Returned kept => Returned (if keep d then t :: kept else kept)
          end
      end
  end.

(** [t.get("category_name", EmptyString).lower() == category.lower()]. *)
Definition in_category (category : string) (txn : txn_item) : Prop :=
  Str.lower (t_category_name txn) = Str.lower category.
Global Instance in_category_dec category txn : Decision (in_category category txn).
Proof. unfold in_category. apply _. Defined.

(** Lines 85-120: the page kept of what was fetched, and its bookkeeping. *)
Definition body_of (transactions : list txn_item) (limit offset : Z) : page_body :=
  let has_more := (limit <? Z.of_nat (length transactions))%Z in
  let transactions :=
    if has_more then take (Z.to_nat limit) transactions else transactions in
  let formatted_transactions := format_txn <$> transactions in
  {| pb_transactions := formatted_transactions;
     pb_pagination :=
       {| pg_total := (Z.of_nat (length formatted_transactions) + offset
                       + (if has_more then 1 else 0))%Z;
          pg_limit := limit;
          pg_offset := offset;
          pg_has_more := has_more |} |}.

Section get_transactions.

Variable rt : runtime.

Definition handler_try (ev : event) : M (response page_body) :=
  let user_id := ev_user_id ev in
  match ev_account_id ev with
  | None => ret (bad_request "Account ID is required")
  | Some account_id =>
  if Str.is_empty account_id then ret (bad_request "Account ID is required")
  else if negb (validation.validate_uuid account_id)
  then ret (bad_request "Invalid account ID format")
  else
  account <- database.get_account rt user_id account_id ;;
  match account with
  | None => ret (not_found "Account not found")
  | Some _ =>
  limit <- lift_reply (validation.get_query_param_int "limit" (ev_limit ev)
                         50 (Some 1%Z) (Some 500%Z)) ;;
  offset <- lift_reply (validation.get_query_param_int "offset" (ev_offset ev)
                          0 (Some 0%Z) None) ;;
  if negb (missing (ev_start_date ev)) &&
     negb (get_cash_flow.validate_date rt (default EmptyString (ev_start_date ev)))
  then ret (bad_request "Invalid start_date format. Use YYYY-MM-DD")
  else if negb (missing (ev_end_date ev)) &&
          negb (get_cash_flow.validate_date rt (default EmptyString (ev_end_date ev)))
  then ret (bad_request "Invalid end_date format. Use YYYY-MM-DD")
  else
  transactions <- database.get_account_transactions rt user_id account_id
                    (Z.to_nat (limit + 1)) (Z.to_nat offset) ;;
  transactions <-
    (if missing (ev_start_date ev) then ret transactions
     else lift_reply (filter_date (Str.leb (default EmptyString (ev_start_date ev)))
                                  transactions)) ;;
  transactions <-
    (if missing (ev_end_date ev) then ret transactions
     else lift_reply (filter_date (fun d => Str.leb d (default EmptyString (ev_end_date ev)))
                                  transactions)) ;;
  let transactions :=
    if missing (ev_category ev) then transactions
    else filter (in_category (default EmptyString (ev_category ev))) transactions in
  ret (success (body_of transactions limit offset))
  end
  end.

Definition handler (ev : event) (w : world) : response page_body * world :=
  match handler_try ev w with
  | (Returned r, w') => (r, w')
  | (Raised _, w') => (internal_error "Failed to retrieve transactions", w')
  end.

End get_transactions.
End get_transactions.

(* ===================================================================== *)
(** * accounts/delete_account.py *)
(* ===================================================================== *)

Module delete_account.

(** The request sent to the aggregator's [/item/remove]. *)
Record remove_request := {
  rq_host : string;
  rq_client_id : string;
  rq_secret : string;
  rq_access_token : string }.

Record unlinked := {
  un_success : bool;
  un_message : string }.

Section delete_account.

Variable rt : runtime.

(** [urllib.request.urlopen] on the [/item/remove] request. *)
Variable item_remove : remove_request -> reply unit.

(** [revoke_plaid_access(access_token)]: [True] when there is nothing to
    revoke or the aggregator has answered, [False] on any exception. *)
Definition revoke_plaid_access (access_token : string) : M bool :=
  if Str.is_empty (PLAID_SECRET_ARN rt) || Str.is_empty access_token then ret true
  else
    try_except
      (plaid_creds <- lift_reply (get_secret_value rt (PLAID_SECRET_ARN rt)) ;;
       let plaid_env := default "sandbox" (creds_environment plaid_creds) in
       let plaid_host := sync_transactions.get_plaid_host plaid_env in
       client_id <- sync_transactions.creds_key "client_id" (creds_client_id plaid_creds) ;;
       secret <- sync_transactions.creds_key "secret" (creds_secret plaid_creds) ;;
       lift_reply (item_remove
         {| rq_host := plaid_host; rq_client_id := client_id; rq_secret := secret;
            rq_access_token := access_token |}) ;;;
       ret true)
      (fun _ => ret false).

Definition handler_try (user_id : string) (account_id : option string)
    : M (response unlinked) :=
  match account_id with
  | None => ret (bad_request "Account ID is required")
  | Some account_id =>
  if Str.is_empty account_id then ret (bad_request "Account ID is required")
  else if negb (validation.validate_uuid account_id)
  then ret (bad_request "Invalid account ID format")
  else
  account <- database.get_account rt user_id account_id ;;
  match account with
  | None => ret (not_found "Account not found")
  | Some account =>
  let plaid_access_token := a_plaid_access_token account in
  (match plaid_access_token with
   | Some token =>
       if Str.is_empty token then ret tt
       else revoke_plaid_access token ;;; ret tt
   | None => ret tt
   end) ;;;
  database.delete_account rt user_id account_id ;;;
  ret (success {| un_success := true;
                  un_message := "Account unlinked successfully" |})
  end
  end.

Definition handler (user_id : string) (account_id : option string) (w : world)
    : response unlinked * world :=
  match handler_try user_id account_id w with
  | (Returned r, w') => (r, w')
  | (Raised _, w') => (internal_error "Failed to unlink account", w')
  end.

End delete_account.
End delete_account.

(* ===================================================================== *)
(** * A concrete runtime for the examples *)
(* ===================================================================== *)

(** The proleptic Gregorian calendar of [datetime], for dates written
    YYYY-MM-DD and timestamps written YYYY-MM-DDTHH:MM:SS with an optional
    offset. *)
Module Calendar.

(** Days from 0001-01-01 to year [y], month [m], day [d]. *)
Definition days_from_civil (y m d : Z) : Z :=
  let y' := if (m <=? 2)%Z then y - 1 else y in
  let era := y' / 400 in
  let yoe := y' - era * 400 in
  let mp := if (2 <? m)%Z then m - 3 else m + 9 in
  let doy := (153 * mp + 2) / 5 + d - 1 in
  let doe := yoe * 365 + yoe / 4 - yoe / 100 + doy in
  era * 146097 + doe - 306.

Definition civil_from_days (n : Z) : Z * Z * Z :=
  let z := n + 306 in
  let era := z / 146097 in
  let doe := z - era * 146097 in
  let yoe := (doe - doe / 1460 + doe / 36524 - doe / 146096) / 365 in
  let doy := doe - (365 * yoe + yoe / 4 - yoe / 100) in
  let mp := (5 * doy + 2) / 153 in
  let d := doy - (153 * mp + 2) / 5 + 1 in
  let m := if (mp <? 10)%Z then mp + 3 else mp - 9 in
  let y := yoe + era * 400 in
  (if (m <=? 2)%Z then y + 1 else y, m, d).

Definition pad2 (n : Z) : string := if (n <? 10)%Z then "0" +:+ pretty n else pretty n.
Definition pad4 (n : Z) : string :=
  if (n <? 10)%Z then "000" +:+ pretty n
  else if (n <? 100)%Z then "00" +:+ pretty n
  else if (n <? 1000)%Z then "0" +:+ pretty n
  else pretty n.

Definition strftime_ymd (t : Z) : string :=
  let '(y, m, d) := civil_from_days (t / usec_per_day) in
  pad4 y +:+ "-" +:+ pad2 m +:+ "-" +:+ pad2 d.

Definition strftime_ym (t : Z) : string :=
  let '(y, m, _) := civil_from_days (t / usec_per_day) in
  pad4 y +:+ "-" +:+ pad2 m.

Definition isoformat (t : Z) : string :=
  let s := (t mod usec_per_day) / 1000000 in
  strftime_ymd t +:+ "T" +:+ pad2 (s / 3600) +:+ ":" +:+ pad2 (s / 60 mod 60)
    +:+ ":" +:+ pad2 (s mod 60).

(** [n] digits, as a number, and what follows them. *)
Fixpoint number (n : nat) (acc : Z) (s : string) : option (Z * string) :=
  match n, s with
  | O, _ => Some (acc, s)
  | S n', String c s' =>
      if Str.is_digit c then number n' (acc * 10 + validation.digit_val c) s' else None
  | S _, EmptyString => None
  end.

Definition sep (c : ascii) (s : string) : option string :=
  match s with
  | String c' s' => if Ascii.eqb c c' then Some s' else None
  | EmptyString => None
  end.

Definition valid_day (y m d : Z) : bool :=
  (1 <=? y)%Z && (1 <=? m)%Z && (m <=? 12)%Z && (1 <=? d)%Z &&
  bool_decide (civil_from_days (days_from_civil y m d) = (y, m, d)).

(** A date written YYYY-MM-DD, and what follows it. *)
Definition date_part (s : string) : option (Z * string) :=
  '(y, s) ← number 4 0 s; s ← sep "-" s;
  '(m, s) ← number 2 0 s; s ← sep "-" s;
  '(d, s) ← number 2 0 s;
  if valid_day y m d then Some (days_from_civil y m d * usec_per_day, s) else None.

Definition strptime_ymd (s : string) : option Z :=
  '(t, rest) ← date_part s;
  if Str.is_empty rest then Some t else None.

Definition fromisoformat (s : string) : option (Z * bool) :=
  '(t, s) ← date_part s; s ← sep "T" s;
  '(h, s) ← number 2 0 s; s ← sep ":" s;
  '(mi, s) ← number 2 0 s; s ← sep ":" s;
  '(sec, s) ← number 2 0 s;
  if (h <? 24)%Z && (mi <? 60)%Z && (sec <? 60)%Z then
    let t := t + ((h * 60 + mi) * 60 + sec) * 1000000 in
    if Str.is_empty s then Some (t, false)
    else if String.eqb s "+00:00" then Some (t, true)
    else None
  else None.

End Calendar.

Module Demo.

(** Midnight of 2024-03-15, and one second per reading of the clock. *)
Definition t0 : Z := Calendar.days_from_civil 2024 3 15 * usec_per_day.

Definition rt (sync : reply sync_response) (legacy : reply get_response) : runtime :=
  {| uuid4 := fun n => "uuid-" +:+ pretty n;
     utcnow := fun n => t0 + Z.of_nat n * 1000000;
     db_fault := fun _ => None;
     isoformat := Calendar.isoformat;
     strftime_ymd := Calendar.strftime_ymd;
     strftime_ym := Calendar.strftime_ym;
     strptime_ymd := Calendar.strptime_ymd;
     fromisoformat := Calendar.fromisoformat;
     PLAID_SECRET_ARN := "arn:aws:secretsmanager:plaid";
     get_secret_value := fun _ =>
       Returned {| creds_client_id := Some "client"; creds_secret := Some "secret";
                   creds_environment := Some "sandbox" |};
     transactions_sync := fun _ => sync;
     transactions_get := fun _ => legacy |}.

(** The same runtime with the [n]-th DynamoDB call failing. *)
Definition with_fault (n : nat) (r : runtime) : runtime :=
  {| uuid4 := uuid4 r; utcnow := utcnow r;
     db_fault := fun i => if (i =? n)%nat then Some (ExternalError "throttled") else None;
     isoformat := isoformat r; strftime_ymd := strftime_ymd r;
     strftime_ym := strftime_ym r; strptime_ymd := strptime_ymd r;
     fromisoformat := fromisoformat r; PLAID_SECRET_ARN := PLAID_SECRET_ARN r;
     get_secret_value := get_secret_value r;
     transactions_sync := transactions_sync r;
     transactions_get := transactions_get r |}.

Definition user : string := "user-1".
Definition account_id : string := "123e4567-e89b-12d3-a456-426614174000".

Definition account : account_item :=
  {| a_pk := "USER#" +:+ user; a_sk := "ACCOUNT#" +:+ account_id;
     a_id := Some account_id; a_user_id := Some user;
     a_plaid_access_token := Some "access-sandbox-1";
     a_plaid_account_id := Some "a1";
     a_plaid_sync_cursor := None; a_last_synced := None |}.

Definition world0 : world :=
  {| accounts := {[ (a_pk account, a_sk account) := account ]};
     transactions := ∅; goals := ∅; budgets := ∅;
     uuid_calls := 0; clock_reads := 0; db_calls := 0 |}.

Definition txn (id : option string) (acct : string) (amount : Qc) (name : string)
    : plaid_txn :=
  {| p_transaction_id := id; p_account_id := Some acct; p_amount := Some amount;
     p_name := Some name; p_merchant_name := None; p_date := Some "2024-03-14";
     p_datetime := None; p_pending := Some false;
     p_personal_finance_category :=
       Some {| pfc_primary := Some "FOOD_AND_DRINK"; pfc_detailed := None |};
     p_category := None; p_payment_channel := Some "in store"; p_location := None |}.

Definition page (added : list plaid_txn) (removed : list removed_txn)
    (next : string) : sync_response :=
  {| sr_added := Some added; sr_modified := Some []; sr_removed := Some removed;
     sr_next_cursor := Some next; sr_has_more := Some false |}.

Definition sync_event (use_sync days : option string) : sync_transactions.event :=
  {| sync_transactions.ev_user_id := user;
     sync_transactions.ev_account_id := Some account_id;
     sync_transactions.ev_use_sync := use_sync;
     sync_transactions.ev_days := days |}.

(** A stored transaction of the demo account. *)
Definition stored (id : string) (amount : Qc) (date category : string) : txn_item :=
  {| t_pk := "ACCOUNT#" +:+ account_id; t_sk := "TXN#" +:+ id; t_id := id;
     t_user_id := user; t_account_id := account_id;
     t_plaid_transaction_id := Some id;
     t_amount := amount; t_is_debit := false;
     t_description := "Demo"; t_merchant_name := None;
     t_date := Some date; t_datetime := None; t_pending := false;
     t_category_name := category; t_category_detailed := EmptyString;
     t_category_icon := "questionmark.circle.fill"; t_category_color := "#95A5A6";
     t_payment_channel := None;
     t_location := {| tl_city := None; tl_region := None; tl_country := None |};
     t_created_at := "2024-03-15T00:00:00Z"; t_synced_at := "2024-03-15T00:00:00Z" |}.

Definition with_transactions (txns : list txn_item) (w : world) : world :=
  set_transactions (fun _ => list_to_map ((fun t => ((t_pk t, t_sk t), t)) <$> txns)) w.

Definition plain_rt : runtime :=
  rt (Raised (ExternalError "unused")) (Raised (ExternalError "unused")).

End Demo.

(* ===================================================================== *)
(** * Vocabulary of the properties and the worlds of the examples *)
(* ===================================================================== *)

Local Open Scope string_scope.
Local Open Scope Z_scope.
Local Open Scope list_scope.
Local Open Scope handler_scope.

(** The world after one mapping: two identifiers and two clock readings
    are consumed, the tables are untouched. *)
Definition after_map (w : world) : world :=
  tick_clock (tick_clock (tick_uuid (tick_uuid w))).

Section sync_cycle_vocabulary.
Import sync_transactions.

(** The key of an account item. *)
Definition account_key (user_id account_id : string) : string * string :=
  ("USER#" +:+ user_id, "ACCOUNT#" +:+ account_id).

(** The answer of the incremental branch, from the outcome of its cycle. *)
Definition incremental_answer (outcome : reply stats * world)
    : response sync_body * world :=
  match outcome with
  | (Returned st, w') => (success (body_of st), w')
  | (Raised e, w') =>
      (service_unavailable ("Failed to sync transactions: " +:+ exn_str e), w')
  end.

(** The account item after a successful cycle that ended in world [wp]. *)
Definition committed (rt : runtime) (user_id account_id : string) (page : sync_response)
    (wp : world) : world :=
  let key := account_key user_id account_id in
  let now := isoformat rt (utcnow rt (clock_reads wp)) +:+ "Z" in
  tick_db (set_accounts
    (<[key := set_cursor_and_synced key.1 key.2 (sr_next_cursor page) now
                (accounts wp !! key)]>)
    (tick_clock wp)).

(** [m] leaves the accounts table as it found it. *)
Definition keeps_accounts {A} (m : M A) : Prop :=
  ∀ w r w', m w = (r, w') -> accounts w' = accounts w.

Definition demo_page : sync_response :=
  Demo.page [Demo.txn (Some "t1") "a1" (Q2Qc (25 # 2)) "Coffee"] [] "cursor-1".

(** The first write of the cycle (DynamoDB call 1, after the read of the
    account) fails. *)
Definition demo_failing_rt : runtime :=
  Demo.with_fault 1 (Demo.rt (Returned demo_page) (Raised (ExternalError "unused"))).

End sync_cycle_vocabulary.

Section legacy_window_vocabulary.
Import sync_transactions.

(** [x] clamped to the interval from [lo] to [hi]. *)
Definition clamp (lo hi x : Z) : Z := Z.max lo (Z.min x hi).

(** The answer of the legacy branch for a window of [days] days. *)
Definition legacy_answer (rt : runtime) (account : account_item)
    (user_id account_id token : string) (creds : plaid_creds) (days : Z) (w : world)
    : response sync_body * world :=
  match legacy_range rt days w with
  | (Raised _, w1) => (internal_error "Failed to sync transactions", w1)
  | (Returned range, w1) =>
      match legacy_cycle rt account user_id account_id token creds
                         range.1 range.2 stats0 w1 with
      | (Returned st, w2) => (success (body_of st), w2)
      | (Raised e, w2) =>
          (service_unavailable ("Failed to fetch transactions: " +:+ exn_str e), w2)
      end
  end.

End legacy_window_vocabulary.

Section replay_vocabulary.
Import sync_transactions.

(** A stored transaction without the two timestamps that every mapping
    reads afresh from the clock. *)
Definition strip_timestamps (item : txn_item) : txn_item :=
  {| t_pk := t_pk item; t_sk := t_sk item; t_id := t_id item;
     t_user_id := t_user_id item; t_account_id := t_account_id item;
     t_plaid_transaction_id := t_plaid_transaction_id item;
     t_amount := t_amount item; t_is_debit := t_is_debit item;
     t_description := t_description item; t_merchant_name := t_merchant_name item;
     t_date := t_date item; t_datetime := t_datetime item;
     t_pending := t_pending item; t_category_name := t_category_name item;
     t_category_detailed := t_category_detailed item;
     t_category_icon := t_category_icon item;
     t_category_color := t_category_color item;
     t_payment_channel := t_payment_channel item; t_location := t_location item;
     t_created_at := EmptyString; t_synced_at := EmptyString |}.

(** The transactions table with the timestamps blanked. *)
Definition stripped (w : world) : table txn_item :=
  strip_timestamps <$> transactions w.

(** A sequence of writes by key: [Some v] stores [v], [None] deletes. *)
Definition apply_op {V} (m : table V) (op : (string * string) * option V) : table V :=
  match op.2 with
  | Some v => <[op.1 := v]> m
  | None => delete op.1 m
  end.
Definition apply_ops {V} (ops : list ((string * string) * option V)) (m : table V)
    : table V :=
  foldl apply_op m ops.

(** The last write to [k] in [ops], if any. *)
Fixpoint last_write {V} (k : string * string)
    (ops : list ((string * string) * option V)) : option (option V) :=
  match ops with
  | [] => None
  | op :: ops' =>
      match last_write k ops' with
      | Some r => Some r
      | None => if decide (op.1 = k) then Some op.2 else None
      end
  end.

(** [m] has the effect [ops] on the stripped transactions table whenever it
    returns. *)
Definition effect {A} (m : M A) (ops : list ((string * string) * option txn_item))
    : Prop :=
  ∀ w a w', m w = (Returned a, w') -> stripped w' = apply_ops ops (stripped w).

Definition demo_page_without_id : sync_response :=
  Demo.page [Demo.txn None "a1" (Q2Qc (25 # 2)) "Coffee"] [] "cursor-1".

Definition demo_rt_without_id : runtime :=
  Demo.rt (Returned demo_page_without_id) (Raised (ExternalError "unused")).

Definition demo_rt_with_id : runtime :=
  Demo.rt (Returned demo_page) (Raised (ExternalError "unused")).

End replay_vocabulary.

Section cash_flow_vocabulary.
Import get_cash_flow.

(** The period a transaction is bucketed into, if its date can be used. *)
Definition bucket (rt : runtime) (granularity : string) (txn : txn_item)
    : option string :=
  match t_date txn with
  | Some d =>
      if Str.is_empty (Str.take 10 d) then None
      else period_key rt granularity (Str.take 10 d)
  | None => None
  end.

(** The transactions that contribute to the inflow, to the outflow, of a
    period. *)
Definition inflow_to (rt : runtime) (granularity key : string) (txn : txn_item) : Prop :=
  (0 ≤ t_amount txn)%Qc ∧ bucket rt granularity txn = Some key.
Definition outflow_to (rt : runtime) (granularity key : string) (txn : txn_item) : Prop :=
  (t_amount txn < 0)%Qc ∧ bucket rt granularity txn = Some key.
Definition inflow (rt : runtime) (granularity : string) (txn : txn_item) : Prop :=
  (0 ≤ t_amount txn)%Qc ∧ is_Some (bucket rt granularity txn).
Definition outflow (rt : runtime) (granularity : string) (txn : txn_item) : Prop :=
  (t_amount txn < 0)%Qc ∧ is_Some (bucket rt granularity txn).

Global Instance inflow_to_dec rt g key txn : Decision (inflow_to rt g key txn).
Proof. unfold inflow_to. apply _. Defined.
Global Instance outflow_to_dec rt g key txn : Decision (outflow_to rt g key txn).
Proof. unfold outflow_to. apply _. Defined.
Global Instance inflow_dec rt g txn : Decision (inflow rt g txn).
Proof. unfold inflow. apply _. Defined.
Global Instance outflow_dec rt g txn : Decision (outflow rt g txn).
Proof. unfold outflow. apply _. Defined.

(** The amount stored under [key], 0 when there is no such bucket. *)
Definition bucket_amount (key : string) (d : flows) : Qc :=
  default 0%Qc (Dict.get key d).

Definition magnitude (txn : txn_item) : Qc := Num.abs (t_amount txn).


End cash_flow_vocabulary.

Section shares_vocabulary.
Import get_spending_by_category.



End shares_vocabulary.


Section spending_vocabulary.
Import get_spending_by_category.

(** An expense of [category] inside the range: what the tally counts. *)
Definition spends (start_date end_date category : string) (txn : txn_item) : Prop :=
  (t_amount txn < 0)%Qc
  ∧ (∃ d, t_date txn = Some d ∧ in_range start_date end_date (Str.take 10 d) = true)
  ∧ t_category_name txn = category.

Global Instance spends_dec s e c txn : Decision (spends s e c txn).
Proof.
  unfold spends. destruct (t_date txn) as [d |].
  - destruct (decide ((t_amount txn < 0)%Qc ∧ in_range s e (Str.take 10 d) = true
                      ∧ t_category_name txn = c)) as [H | H].
    + left. destruct H as (? & ? & ?). eauto 6.
    + right. intros (? & (d' & [= <-] & ?) & ?). apply H. auto.
  - right. intros (_ & (d' & [=] & _) & _).
Defined.




End spending_vocabulary.

(** Every stored transaction has a non-negative amount. *)
Definition nonneg_amounts (w : world) : Prop :=
  ∀ k item, transactions w !! k = Some item -> (0 ≤ t_amount item)%Qc.

(** The worlds whose transactions were written by the sync handler alone:
    no transactions to begin with, then any number of sync invocations, and
    any step that leaves the transactions table as it is. *)
Inductive synced_only (rt : runtime) : world -> Prop :=
| synced_none w : transactions w = ∅ -> synced_only rt w
| synced_sync w ev resp w' :
    synced_only rt w ->
    sync_transactions.handler rt ev w = (resp, w') ->
    synced_only rt w'
| synced_other w w' :
    synced_only rt w -> transactions w' = transactions w -> synced_only rt w'.

(** [m] maintains the invariant [I] of the world. *)
Definition preserves {A} (I : world -> Prop) (m : M A) : Prop :=
  ∀ w r w', I w -> m w = (r, w') -> I w'.

(** A transaction that no rollup counts as an expense. *)
Definition nonneg (txn : txn_item) : Prop := (0 ≤ t_amount txn)%Qc.

(** The demo world after one sync of a page with a debit and a credit. *)
Definition demo_two_sided_page : sync_response :=
  Demo.page [ Demo.txn (Some "t1") "a1" (Q2Qc (25 # 2)) "Coffee";
              Demo.txn (Some "t2") "a1" (Q2Qc (-2000)) "Salary" ] [] "cursor-1".

Definition demo_two_sided_rt : runtime :=
  Demo.rt (Returned demo_two_sided_page) (Raised (ExternalError "unused")).

Definition demo_synced_world : world :=
  (sync_transactions.handler demo_two_sided_rt (Demo.sync_event None None) Demo.world0).2.

Definition demo_cash_flow_event : get_cash_flow.event :=
  {| get_cash_flow.ev_user_id := Demo.user;
     get_cash_flow.ev_start_date := Some "2024-03-01";
     get_cash_flow.ev_end_date := Some "2024-03-31";
     get_cash_flow.ev_granularity := Some "monthly" |}.

(** The key of a goal item. *)
Definition goal_key (user_id goal_id : string) : string * string :=
  ("USER#" +:+ user_id, "GOAL#" +:+ goal_id).

(** The progress a stored goal should carry: its current amount over its
    target amount, an absent amount counting as the default the repository
    uses for it (0 and 1). *)
Definition progress_from_amounts (goal : goal_item) : Qc :=
  progress_of (default 0%Qc (g_current_amount goal)) (default 1%Qc (g_target_amount goal)).

(** A request to create a goal of 1000 with 200 already saved. *)
Definition demo_goal_body : create_goal.request_body :=
  {| create_goal.title := Some "Car";
     create_goal.description := None;
     create_goal.target_amount := Some (Q2Qc 1000);
     create_goal.current_amount := Some (Q2Qc 200);
     create_goal.target_date := Some "2024-06-13";
     create_goal.category := Some "purchase" |}.

Section projection_vocabulary.
Import get_savings_progress.

(** A goal of 1000 with 200 saved, created on 2024-01-15 and due on
    2024-03-01; the demo clock reads 2024-03-15. *)
Definition demo_overdue_goal : goal_item :=
  {| g_pk := "USER#" +:+ Demo.user; g_sk := "GOAL#g1"; g_id := Some "g1";
     g_user_id := Some Demo.user;
     g_created_at := Some "2024-01-15T00:00:00Z";
     g_status := Some "active"; g_is_ai_generated := Some false;
     g_progress := Some (Q2Qc (1 # 5));
     g_title := Some "Car"; g_description := Some EmptyString;
     g_target_amount := Some (Q2Qc 1000); g_current_amount := Some (Q2Qc 200);
     g_target_date := Some "2024-03-01"; g_category := Some "purchase";
     g_priority := Some 0; g_last_updated := None |}.

End projection_vocabulary.

Section sync_reach_vocabulary.
Import sync_transactions.

(** From [w0] to [w], nothing has changed but the account item under
    [account_key] and the transactions of the partition [account_pk]. *)
Definition confined (account_pk : string) (account_key : string * string)
    (w0 w : world) : Prop :=
  goals w = goals w0
  ∧ budgets w = budgets w0
  ∧ (∀ k, k ≠ account_key -> accounts w !! k = accounts w0 !! k)
  ∧ (∀ k, k.1 ≠ account_pk -> transactions w !! k = transactions w0 !! k).

(** The records of a page that the incremental branch stores, and the
    removals it carries out. *)
Definition matching (account : account_item) (p : plaid_txn) : Prop :=
  p_account_id p = a_plaid_account_id account.
Definition removable (r : removed_txn) : Prop :=
  ∃ id, r_transaction_id r = Some id ∧ id ≠ EmptyString.

Global Instance matching_dec account p : Decision (matching account p).
Proof. unfold matching. apply _. Defined.
Global Instance removable_dec r : Decision (removable r).
Proof.
  unfold removable. destruct (r_transaction_id r) as [id |].
  - destruct (decide (id = EmptyString)) as [-> | Hne].
    + right. intros (id & [= <-] & Hne). apply Hne. reflexivity.
    + left. exists id. split; [reflexivity | exact Hne].
  - right. intros (id & [=] & _).
Defined.

(** The key under which the transaction [id] of an account is stored. *)
Definition txn_key (account_id id : string) : string * string :=
  ("ACCOUNT#" +:+ account_id, "TXN#" +:+ id).

Definition demo_page_add_and_remove : sync_response :=
  Demo.page [ Demo.txn (Some "t1") "a1" (Q2Qc (25 # 2)) "Coffee";
              Demo.txn (Some "t2") "a1" (Q2Qc (40 # 1)) "Groceries" ]
            [ {| r_transaction_id := Some "t1" |} ] "cursor-1".

Definition demo_rt_add_and_remove : runtime :=
  Demo.rt (Returned demo_page_add_and_remove) (Raised (ExternalError "unused")).

(** The account item after a legacy sync at time [now]. *)
Definition legacy_committed (now : string) (account : account_item) : account_item :=
  set_synced (a_pk account) (a_sk account) now (Some account).

Definition demo_legacy_rt : runtime :=
  Demo.rt (Raised (ExternalError "unused"))
          (Returned {| gr_transactions :=
                         Some [ Demo.txn (Some "t1") "a1" (Q2Qc (25 # 2)) "Coffee";
                                Demo.txn (Some "t2") "elsewhere" (Q2Qc (40 # 1)) "Groceries" ] |}).

End sync_reach_vocabulary.

Definition demo_three_stored : world :=
  Demo.with_transactions
    [ Demo.stored "t1" (Q2Qc (10 # 1)) "2024-03-01" "Food";
      Demo.stored "t2" (Q2Qc (20 # 1)) "2024-03-02" "Food";
      Demo.stored "t3" (Q2Qc (30 # 1)) "2024-03-03" "Food" ] Demo.world0.

(** From [w] to [w'], nothing has changed but, possibly, the goal stored
    under [key]. *)
Definition only_goal (key : string * string) (w w' : world) : Prop :=
  accounts w' = accounts w
  ∧ transactions w' = transactions w
  ∧ budgets w' = budgets w
  ∧ ∀ k, k ≠ key -> goals w' !! k = goals w !! k.

(** The response is an error envelope. *)
Definition is_error {A} (r : response A) : Prop :=
  match r with Error _ _ _ => True | Body _ _ => False end.

(** Valid identifiers for the examples: [uuid4] gives these in turn. *)
Definition demo_uuid (n : nat) : string :=
  "00000000-0000-4000-8000-0000000000" +:+ Calendar.pad2 (Z.of_nat n).

Definition demo_uuid_rt : runtime :=
  {| uuid4 := demo_uuid; utcnow := utcnow Demo.plain_rt;
     db_fault := db_fault Demo.plain_rt; isoformat := isoformat Demo.plain_rt;
     strftime_ymd := strftime_ymd Demo.plain_rt;
     strftime_ym := strftime_ym Demo.plain_rt;
     strptime_ymd := strptime_ymd Demo.plain_rt;
     fromisoformat := fromisoformat Demo.plain_rt;
     PLAID_SECRET_ARN := PLAID_SECRET_ARN Demo.plain_rt;
     get_secret_value := get_secret_value Demo.plain_rt;
     transactions_sync := transactions_sync Demo.plain_rt;
     transactions_get := transactions_get Demo.plain_rt |}.

(** A request to create a goal of 5000, of which 250 are saved. *)
Definition demo_new_goal : create_goal.request_body :=
  {| create_goal.title := Some "  Emergency fund ";
     create_goal.description := None;
     create_goal.target_amount := Some (Q2Qc (5000 # 1));
     create_goal.current_amount := Some (Q2Qc (250 # 1));
     create_goal.target_date := Some "2025-01-01";
     create_goal.category := Some "emergency" |}.

(** The tables are the same in [w] and [w']. *)
Definition same_tables (w w' : world) : Prop :=
  accounts w' = accounts w ∧ transactions w' = transactions w
  ∧ goals w' = goals w ∧ budgets w' = budgets w.


(** The world after the goal of the example has been created. *)
Definition demo_world_with_goal : world :=
  (create_goal.handler demo_uuid_rt Demo.user demo_new_goal Demo.world0).2.

(** What [sorted_by] needs of [before] on the elements of the list: for an
    element and a later one, the order [R] follows the answer of [before]. *)
Definition ordered_by {A} (before : A -> A -> bool) (R : relation A) (x y : A) : Prop :=
  if before y x then R y x else R x y.

(** The dates of a list of points go strictly up. *)
Definition dates_increase (points : list get_cash_flow.point) : Prop :=
  StronglySorted (fun p q => Str.ltb (get_cash_flow.pt_date p) (get_cash_flow.pt_date q) = true)
                 points.

(** Stored transactions of both signs over a few days of March 2024. *)
Definition demo_mixed_ledger : world :=
  Demo.with_transactions
    [ Demo.stored "t1" (Q2Qc (10 # 1)) "2024-03-02" "Salary";
      Demo.stored "t2" (Q2Qc (-5 # 1)) "2024-03-01" "Food";
      Demo.stored "t3" (Q2Qc (7 # 1)) "2024-03-01" "Salary";
      Demo.stored "t4" (Q2Qc (-30 # 1)) "2024-03-05" "Rent";
      Demo.stored "t5" (Q2Qc (-2 # 1)) "2024-03-07" "Food" ] Demo.world0.

Definition demo_march_cash_flow : get_cash_flow.event :=
  {| get_cash_flow.ev_user_id := Demo.user;
     get_cash_flow.ev_start_date := Some "2024-03-01";
     get_cash_flow.ev_end_date := Some "2024-03-31";
     get_cash_flow.ev_granularity := Some "daily" |}.

(** The rows go from the largest amount to the smallest. *)
Definition amounts_decrease (rows : list get_spending_by_category.category_row) : Prop :=
  StronglySorted (fun r s => (get_spending_by_category.amount s
                              ≤ get_spending_by_category.amount r)%Qc) rows.

(** Every entry of the tally has at least one transaction and a positive
    amount. *)
Definition tallied (cs : get_spending_by_category.spending) : Prop :=
  NoDup (Dict.keys cs) ∧ Forall (fun kv => (0 < kv.2.1)%Qc ∧ (1 ≤ kv.2.2)%nat) cs.

Definition demo_march_spending : get_spending_by_category.event :=
  {| get_spending_by_category.ev_user_id := Demo.user;
     get_spending_by_category.ev_start_date := Some "2024-03-01";
     get_spending_by_category.ev_end_date := Some "2024-03-31" |}.

(** The names of a list of rows go strictly up. *)
Definition names_increase (names : list string) : Prop :=
  StronglySorted (fun a b => Str.ltb a b = true) names.

Definition demo_march_budget : get_budget_comparison.event :=
  {| get_budget_comparison.ev_user_id := Demo.user;
     get_budget_comparison.ev_month := Some "2024-03" |}.

Section savings_report_vocabulary.
Import get_savings_progress.

(** The goal is among those the report covers: it is stored in the user's
    partition under a sort key that starts with GOAL#, and its status is
    active or absent. *)
Definition reported (user_id : string) (goal : goal_item) (w : world) : Prop :=
  ∃ sk, goals w !! ("USER#" +:+ user_id, sk) = Some goal
        ∧ String.prefix "GOAL#" sk = true
        ∧ default "active" (g_status goal) = "active".

(** The goal has reached its target: it has a target date that parses and
    a positive target amount that its current amount has reached. *)
Definition target_reached (rt : runtime) (goal : goal_item) : Prop :=
  ∃ target_date target_amount,
    g_target_date goal = Some target_date
    ∧ target_date ≠ EmptyString
    ∧ is_Some (strptime_ymd rt target_date)
    ∧ g_target_amount goal = Some target_amount
    ∧ (0 < target_amount)%Qc
    ∧ (target_amount ≤ default 0%Qc (g_current_amount goal))%Qc.

(** The creation time of the goal parses to a time with a UTC offset, as
    does every time that [get_timestamp] wrote, which ends in Z. *)
Definition created_with_offset (rt : runtime) (goal : goal_item) : Prop :=
  ∃ created,
    fromisoformat rt (replace_Z (default EmptyString (g_created_at goal))) = Some (created, true).

(** A goal of 5000 whose 5000 are saved. *)
Definition demo_reached_goal : create_goal.request_body :=
  {| create_goal.title := Some "New laptop";
     create_goal.description := None;
     create_goal.target_amount := Some (Q2Qc (5000 # 1));
     create_goal.current_amount := Some (Q2Qc (5000 # 1));
     create_goal.target_date := Some "2025-01-01";
     create_goal.category := Some "purchase" |}.

Definition demo_world_with_reached_goal : world :=
  (create_goal.handler demo_uuid_rt Demo.user demo_reached_goal Demo.world0).2.

(** The ["goal"] entry the report shows for a goal. *)
Definition summary (goal : goal_item) : goal_summary :=
  pr_goal (row_of goal (None, false, 0%Qc)).

(** A goal of a million of which one is saved, made two months ago. *)
Definition demo_slow_goal : goal_item :=
  {| g_pk := "USER#" +:+ Demo.user; g_sk := "GOAL#slow";
     g_id := Some "slow"; g_user_id := Some Demo.user;
     g_created_at := Some "2024-01-15T00:00:00Z";
     g_status := Some "active"; g_is_ai_generated := Some false;
     g_progress := Some (Q2Qc (1 # 1000000));
     g_title := Some "Island"; g_description := Some EmptyString;
     g_target_amount := Some (Q2Qc (1000000 # 1));
     g_current_amount := Some (Q2Qc (1 # 1));
     g_target_date := Some "2030-01-01"; g_category := Some "purchase";
     g_priority := Some 0; g_last_updated := None |}.

End savings_report_vocabulary.

Section transaction_listing_vocabulary.
Import get_transactions.

Definition demo_listing_event (limit offset category : option string) : event :=
  {| ev_user_id := Demo.user; ev_account_id := Some Demo.account_id;
     ev_start_date := None; ev_end_date := None;
     ev_limit := limit; ev_offset := offset; ev_category := category |}.

End transaction_listing_vocabulary.

Section authentication_vocabulary.
Import auth.

Definition demo_key : jwk := {| k_kid := Some "key-1" |}.

(** A pool whose one key signs the token good for an access token of
    user-1; every other token is refused. *)
Definition demo_jose (served : outcome (list jwk)) : jose :=
  {| get_unverified_header := fun token =>
       if String.eqb token "good" then Done (Some "key-1") else JWTError "Error decoding token headers.";
     fetch_jwks := served;
     decode := fun token key =>
       if String.eqb token "good"
       then Done {| c_sub := Some "user-1"; c_token_use := Some "access" |}
       else JWTError "Signature verification failed." |}.

End authentication_vocabulary.

(** The handler, with the revocation taken out. *)
Definition unlink (rt : runtime) (user_id account_id : string) (w : world)
    : response delete_account.unlinked * world :=
  if negb (validation.validate_uuid account_id)
  then (bad_request (if Str.is_empty account_id then "Account ID is required"
                     else "Invalid account ID format"), w)
  else
    match db_fault rt (db_calls w) with
    | Some _ => (internal_error "Failed to unlink account", tick_db w)
    | None =>
        match accounts w !! account_key user_id account_id with
        | None => (not_found "Account not found", tick_db w)
        | Some _ =>
            match db_fault rt (S (db_calls w)) with
            | Some _ => (internal_error "Failed to unlink account", tick_db (tick_db w))
            | None =>
                (success {| delete_account.un_success := true;
                            delete_account.un_message := "Account unlinked successfully" |},
                 set_accounts (base.delete (account_key user_id account_id))
                   (tick_db (tick_db w)))
            end
        end
    end.

(* ===================================================================== *)
(** * Properties *)
(* ===================================================================== *)

(* ===================================================================== *)
(** * Facts about numbers *)
(* ===================================================================== *)

Lemma Num_abs_nonneg (x : Qc) : (0 ≤ Num.abs x)%Qc.
Proof.
  unfold Num.abs, Qcle. cbn [this Q2Qc]. rewrite (Qred_correct (Qabs x)). apply Qabs_nonneg.
Qed.


Lemma Num_abs_of_nonpos (x : Qc) : (x ≤ 0)%Qc -> Num.abs x = (- x)%Qc.
Proof.
  intros H. apply Qc_is_canon. unfold Num.abs, Qcopp. cbn [this Q2Qc].
  rewrite !Qred_correct. apply Qabs_neg. exact H.
Qed.


Lemma Num_gtb_true (x y : Qc) : Num.gtb x y = true <-> (y < x)%Qc.
Proof. unfold Num.gtb. apply bool_decide_eq_true. Qed.

Lemma Num_geb_true (x y : Qc) : Num.geb x y = true <-> (y ≤ x)%Qc.
Proof. unfold Num.geb. apply bool_decide_eq_true. Qed.

Lemma Num_geb_false (x y : Qc) : Num.geb x y = false <-> (x < y)%Qc.
Proof.
  unfold Num.geb. rewrite bool_decide_eq_false. split.
  - apply Qcnot_le_lt.
  - apply Qclt_not_le.
Qed.

(* ===================================================================== *)
(** * map_plaid_transaction *)
(* ===================================================================== *)

Section map_facts.
Variable rt : runtime.

Lemma map_plaid_transaction_returns plaid_txn user_id account_id w :
  ∃ item,
    sync_transactions.map_plaid_transaction rt plaid_txn user_id account_id w
      = (Returned item, after_map w)
    ∧ t_pk item = "ACCOUNT#" +:+ account_id
    ∧ t_sk item = "TXN#" +:+ default (uuid4 rt (uuid_calls w)) (p_transaction_id plaid_txn)
    ∧ t_id item = default (uuid4 rt (S (uuid_calls w))) (p_transaction_id plaid_txn)
    ∧ t_plaid_transaction_id item = p_transaction_id plaid_txn
    ∧ t_amount item = Num.abs (default 0%Qc (p_amount plaid_txn))
    ∧ t_is_debit item = Num.gtb (default 0%Qc (p_amount plaid_txn)) 0%Qc.
Proof.
  eexists. split; [reflexivity |]. simpl. tauto.
Qed.

End map_facts.


Lemma string_app_inj (p a b : string) : p +:+ a = p +:+ b -> a = b.
Proof. induction p as [| c p IH]; simpl; [auto | intros [= H]; auto]. Qed.

Lemma key_of_id_inj (a b : string) : "TXN#" +:+ a = "TXN#" +:+ b -> a = b.
Proof. apply string_app_inj. Qed.




Section sync_cycle_properties.
Import sync_transactions.

Section sync_facts.
Variable rt : runtime.

Lemma get_plaid_credentials_pure w :
  ∃ r, get_plaid_credentials rt w = (r, w).
Proof.
  unfold get_plaid_credentials. destruct (Str.is_empty _); eexists; reflexivity.
Qed.

Ltac early_exit H :=
  injection H as <- <-; left; repeat split; done.

Lemma handler_incremental_cases (ev : event) (w : world) resp w' :
  use_sync_of ev = true ->
  handler rt ev w = (resp, w') ->
  (status_of resp ≠ 200 ∧ accounts w' = accounts w ∧ transactions w' = transactions w)
  ∨ (∃ account_id account token creds,
        ev_account_id ev = Some account_id
        ∧ db_fault rt (db_calls w) = None
        ∧ accounts w !! account_key (ev_user_id ev) account_id = Some account
        ∧ a_plaid_access_token account = Some token
        ∧ get_plaid_credentials rt (tick_db w) = (Returned creds, tick_db w)
        ∧ (resp, w') =
            incremental_answer
              (sync_cycle rt account (ev_user_id ev) account_id token creds stats0
                          (tick_db w))).
Proof.
  intros Hsync H. unfold handler, handler_try in H.
  destruct (ev_account_id ev) as [account_id |]; [| early_exit H].
  destruct (Str.is_empty account_id); [early_exit H |].
  destruct (validation.validate_uuid account_id); simpl in H; [| early_exit H].
  unfold bind at 1 in H.
  unfold database.get_account, database.get_by_id, database.db_call in H.
  destruct (db_fault rt (db_calls w)) as [e |] eqn:Hfault; [early_exit H |].
  change (the_table (tick_db w)) with (accounts w) in H.
  destruct (accounts w !! _) as [account |] eqn:Hacc; [| early_exit H].
  destruct (a_plaid_access_token account) as [token |] eqn:Htok; [| early_exit H].
  destruct (Str.is_empty token); [early_exit H |].
  unfold bind at 1, try_except at 1, bind at 1 in H.
  destruct (get_plaid_credentials_pure (tick_db w)) as [r Hr]. rewrite Hr in H.
  destruct r as [e | creds]; [early_exit H |].
  cbn [ret] in H. rewrite Hsync in H.
  unfold bind at 1 in H. unfold effective_days in H.
  destruct (validation.int _) as [days |]; [| early_exit H].
  cbn [ret] in H. right. exists account_id, account, token, creds.
  repeat split; try done.
  rewrite <- H. unfold try_except, bind, incremental_answer.
  destruct (sync_cycle _ _ _ _ _ _ _ _) as [[e | st] w1]; reflexivity.
Qed.

(** ** What a computation leaves untouched *)

Lemma keeps_ret {A} (a : A) : keeps_accounts (ret a).
Proof. intros w r w' [= <- <-]. reflexivity. Qed.

Lemma keeps_raise {A} e : keeps_accounts (@raise A e).
Proof. intros w r w' [= <- <-]. reflexivity. Qed.

Lemma keeps_lift_reply {A} (x : reply A) : keeps_accounts (lift_reply x).
Proof. intros w r w' [= <- <-]. reflexivity. Qed.

Lemma keeps_bind {A B} (m : M A) (k : A -> M B) :
  keeps_accounts m -> (∀ a, keeps_accounts (k a)) -> keeps_accounts (bind m k).
Proof.
  intros Hm Hk w r w' H. unfold bind in H.
  destruct (m w) as [[e | a] w1] eqn:Hmw.
  - injection H as <- <-. eapply Hm, Hmw.
  - rewrite (Hk a _ _ _ H). eapply Hm, Hmw.
Qed.

Lemma keeps_for_fold {A S} (xs : list A) (body : S -> A -> M S) s :
  (∀ s x, keeps_accounts (body s x)) -> keeps_accounts (for_fold xs body s).
Proof.
  intros Hbody. revert s. induction xs as [| x xs IH]; intros s; simpl.
  - apply keeps_ret.
  - apply keeps_bind; [apply Hbody | intros s'; apply IH].
Qed.

Lemma keeps_generate_id : keeps_accounts (database.generate_id rt).
Proof. intros w r w' [= <- <-]. reflexivity. Qed.

Lemma keeps_get_timestamp : keeps_accounts (database.get_timestamp rt).
Proof. intros w r w' [= <- <-]. reflexivity. Qed.

Lemma keeps_put_txn (item : txn_item) : keeps_accounts (database.put rt item).
Proof.
  intros w r w' H. unfold database.put, database.db_call in H.
  destruct (db_fault rt (db_calls w)); injection H as <- <-; reflexivity.
Qed.

Lemma keeps_delete_txn pk sk :
  keeps_accounts (database.delete (V := txn_item) rt pk sk).
Proof.
  intros w r w' H. unfold database.delete, database.db_call in H.
  destruct (db_fault rt (db_calls w)); injection H as <- <-; reflexivity.
Qed.

Lemma keeps_map plaid_txn user_id account_id :
  keeps_accounts (map_plaid_transaction rt plaid_txn user_id account_id).
Proof.
  intros w r w' H.
  destruct (map_plaid_transaction_returns rt plaid_txn user_id account_id w)
    as (item & Hrun & _).
  rewrite Hrun in H. injection H as <- <-. reflexivity.
Qed.

Lemma keeps_upsert_matching account user_id account_id bump st plaid_txn :
  keeps_accounts (upsert_matching rt account user_id account_id bump st plaid_txn).
Proof.
  unfold upsert_matching. destruct (same_account _ _); [| apply keeps_ret].
  apply keeps_bind; [apply keeps_map | intros item].
  apply keeps_bind; [apply keeps_put_txn | intros _; apply keeps_ret].
Qed.

Lemma keeps_delete_removed account_id st r :
  keeps_accounts (delete_removed rt account_id st r).
Proof.
  unfold delete_removed. destruct (r_transaction_id r) as [txn_id |]; [| apply keeps_ret].
  destruct (Str.is_empty txn_id); [apply keeps_ret |].
  apply keeps_bind; [apply keeps_delete_txn | intros _; apply keeps_ret].
Qed.

Lemma keeps_process_page account user_id account_id page st :
  keeps_accounts (process_page rt account user_id account_id page st).
Proof.
  unfold process_page.
  apply keeps_bind; [apply keeps_for_fold; intros; apply keeps_upsert_matching |].
  intros st1.
  apply keeps_bind; [apply keeps_for_fold; intros; apply keeps_upsert_matching |].
  intros st2. apply keeps_for_fold; intros; apply keeps_delete_removed.
Qed.

(** The aggregator call does not touch the world. *)
Lemma sync_from_plaid_pure token creds cursor count w :
  ∃ r, sync_transactions_from_plaid rt token creds cursor count w = (r, w).
Proof.
  unfold sync_transactions_from_plaid, bind, creds_key, lift_reply.
  destruct (creds_client_id creds); simpl; [| eexists; reflexivity].
  destruct (creds_secret creds); simpl; eexists; reflexivity.
Qed.

(** A loop raises as soon as its body does. *)
Lemma for_fold_raises {A S} (before after : list A) (x : A)
    (body : S -> A -> M S) s w s1 w1 e w2 :
  for_fold before body s w = (Returned s1, w1) ->
  body s1 x w1 = (Raised e, w2) ->
  for_fold (before ++ x :: after) body s w = (Raised e, w2).
Proof.
  revert s w. induction before as [| y before IH]; intros s w Hpre Hx; simpl in *.
  - injection Hpre as <- <-. unfold bind. rewrite Hx. reflexivity.
  - unfold bind in *. destruct (body s y w) as [[e' | s'] w'].
    + discriminate.
    + apply IH; assumption.
Qed.

(** A DynamoDB fault makes [put] and [delete] raise without writing. *)
Lemma put_faults (item : txn_item) w e :
  db_fault rt (db_calls w) = Some e ->
  database.put rt item w = (Raised e, tick_db w).
Proof. intros H. unfold database.put, database.db_call. rewrite H. reflexivity. Qed.

Lemma delete_faults pk sk w e :
  db_fault rt (db_calls w) = Some e ->
  database.delete (V := txn_item) rt pk sk w = (Raised e, tick_db w).
Proof. intros H. unfold database.delete, database.db_call. rewrite H. reflexivity. Qed.

Lemma sync_cycle_cases account user_id account_id token creds st w r w1 :
  sync_cycle rt account user_id account_id token creds st w = (r, w1) ->
  (∃ e, r = Raised e ∧ accounts w1 = accounts w)
  ∨ (∃ page st3 wp,
        sync_transactions_from_plaid rt token creds (a_plaid_sync_cursor account) 100 w
          = (Returned page, w)
        ∧ process_page rt account user_id account_id page st w = (Returned st3, wp)
        ∧ accounts wp = accounts w
        ∧ db_fault rt (db_calls wp) = None
        ∧ r = Returned (set_page (default false (sr_has_more page))
                                 (sr_next_cursor page) st3)
        ∧ w1 = committed rt user_id account_id page wp).
Proof.
  intros H. unfold sync_cycle in H. unfold bind at 1 in H.
  destruct (sync_from_plaid_pure token creds (a_plaid_sync_cursor account) 100 w)
    as [r0 Hr0].
  rewrite Hr0 in H. destruct r0 as [e | page].
  { injection H as <- <-. left. eauto. }
  unfold bind at 1 in H.
  destruct (process_page rt account user_id account_id page st w)
    as [[e | st3] wp] eqn:Hpage.
  { injection H as <- <-. left. exists e. split; [done |].
    eapply keeps_process_page, Hpage. }
  pose proof (keeps_process_page _ _ _ _ _ _ _ _ Hpage) as Hkeep.
  unfold bind, database.get_timestamp, database.update, database.db_call in H.
  cbn [db_calls tick_clock] in H.
  destruct (db_fault rt (db_calls wp)) as [e |] eqn:Hfault.
  { injection H as <- <-. left. exists e. split; [done |]. exact Hkeep. }
  injection H as <- <-. right. exists page, st3, wp. repeat split; done.
Qed.

Lemma validate_uuid_nonempty s : validation.validate_uuid s = true -> Str.is_empty s = false.
Proof. destruct s; [discriminate | reflexivity]. Qed.

(** When the request is well formed, the account is linked and the
    credentials are there, the answer is that of the cycle. *)
Lemma handler_reaches_cycle ev w account_id account token creds :
  ev_account_id ev = Some account_id ->
  validation.validate_uuid account_id = true ->
  db_fault rt (db_calls w) = None ->
  accounts w !! account_key (ev_user_id ev) account_id = Some account ->
  a_plaid_access_token account = Some token ->
  Str.is_empty token = false ->
  get_plaid_credentials rt (tick_db w) = (Returned creds, tick_db w) ->
  is_Some (validation.int (validation.get_query_param (ev_days ev) "30")) ->
  use_sync_of ev = true ->
  handler rt ev w =
    incremental_answer
      (sync_cycle rt account (ev_user_id ev) account_id token creds stats0 (tick_db w)).
Proof.
  intros Hid Huuid Hfault Hacc Htok Hne Hcreds [days Hdays] Hsync.
  unfold handler, handler_try. rewrite Hid, (validate_uuid_nonempty _ Huuid), Huuid.
  cbn beta iota delta [negb].
  unfold bind at 1. unfold database.get_account, database.get_by_id, database.db_call.
  rewrite Hfault. change (the_table (tick_db w)) with (accounts w).
  unfold account_key in Hacc. rewrite Hacc, Htok, Hne.
  unfold bind at 1, try_except at 1, bind at 1. rewrite Hcreds. cbn [ret].
  unfold bind at 1, effective_days. rewrite Hdays, Hsync. cbn [ret].
  unfold try_except, bind, incremental_answer.
  destruct (sync_cycle _ _ _ _ _ _ _ _) as [[e | st] w1]; reflexivity.
Qed.

Lemma committed_cursor user_id account_id page wp :
  ∃ item,
    accounts (committed rt user_id account_id page wp)
      !! account_key user_id account_id = Some item
    ∧ a_plaid_sync_cursor item = sr_next_cursor page.
Proof.
  unfold committed. cbn. eexists. split; [apply lookup_insert_eq |].
  destruct (accounts wp !! _); reflexivity.
Qed.

End sync_facts.

(** C1. In an incremental invocation that gets as far as the sync cycle:
    a raising aggregator call, a raising step of the page processing, and a
    raising final write are each answered with a 503 and leave the accounts
    table, hence the stored cursor, as it was; the cursor is written in one
    step that comes after the whole page has been processed, by which time the
    accounts table is still untouched, and that step stores the page's
    [next_cursor].  Whatever the request, an answer other than 200 leaves the
    accounts table unchanged. *)
Theorem C1_cursor_commits_after_page (rt : runtime) (ev : event) (w : world)
    (account_id : string) (account : account_item) (token : string)
    (creds : plaid_creds) :
  ev_account_id ev = Some account_id ->
  validation.validate_uuid account_id = true ->
  db_fault rt (db_calls w) = None ->
  accounts w !! account_key (ev_user_id ev) account_id = Some account ->
  a_plaid_access_token account = Some token ->
  Str.is_empty token = false ->
  get_plaid_credentials rt (tick_db w) = (Returned creds, tick_db w) ->
  is_Some (validation.int (validation.get_query_param (ev_days ev) "30")) ->
  use_sync_of ev = true ->
  let user_id := ev_user_id ev in
  let w0 := tick_db w in
  let fetch := sync_transactions_from_plaid rt token creds
                 (a_plaid_sync_cursor account) 100 in
  let unavailable e :=
    service_unavailable ("Failed to sync transactions: " +:+ exn_str e) in
  (∀ e, fetch w0 = (Raised e, w0) ->
        handler rt ev w = (unavailable e, w0) ∧ accounts w0 = accounts w)
  ∧ (∀ page e wp,
        fetch w0 = (Returned page, w0) ->
        process_page rt account user_id account_id page stats0 w0 = (Raised e, wp) ->
        handler rt ev w = (unavailable e, wp) ∧ accounts wp = accounts w)
  ∧ (∀ page st wp,
        fetch w0 = (Returned page, w0) ->
        process_page rt account user_id account_id page stats0 w0 = (Returned st, wp) ->
        accounts wp = accounts w
        ∧ match db_fault rt (db_calls wp) with
          | Some e =>
              handler rt ev w = (unavailable e, tick_db (tick_clock wp))
          | None =>
              handler rt ev w =
                (success (body_of (set_page (default false (sr_has_more page))
                                            (sr_next_cursor page) st)),
                 committed rt user_id account_id page wp)
              ∧ ∃ item,
                  accounts (committed rt user_id account_id page wp)
                    !! account_key user_id account_id = Some item
                  ∧ a_plaid_sync_cursor item = sr_next_cursor page
          end)
  ∧ (∀ resp w', handler rt ev w = (resp, w') ->
                status_of resp ≠ 200 -> accounts w' = accounts w).
Proof.
  intros Hid Huuid Hfault Hacc Htok Hne Hcreds Hdays Hsync user_id w0 fetch unavailable.
  pose proof (handler_reaches_cycle rt ev w account_id account token creds
                Hid Huuid Hfault Hacc Htok Hne Hcreds Hdays Hsync) as Hh.
  fold user_id w0 in Hh.
  split; [| split; [| split]].
  - intros e Hfetch. split; [| reflexivity].
    rewrite Hh. unfold sync_cycle, bind at 1. fold fetch. rewrite Hfetch. reflexivity.
  - intros page e wp Hfetch Hpage. split.
    + rewrite Hh. unfold sync_cycle, bind at 1. fold fetch. rewrite Hfetch.
      unfold bind at 1. rewrite Hpage. reflexivity.
    + apply (keeps_process_page rt _ _ _ _ _ _ _ _ Hpage).
  - intros page st wp Hfetch Hpage.
    pose proof (keeps_process_page rt _ _ _ _ _ _ _ _ Hpage) as Hkeep.
    split; [exact Hkeep |].
    assert (Hrun : handler rt ev w =
              incremental_answer
                ((now <- database.get_timestamp rt ;;
                  database.update rt ("USER#" +:+ user_id) ("ACCOUNT#" +:+ account_id)
                    (set_cursor_and_synced ("USER#" +:+ user_id)
                       ("ACCOUNT#" +:+ account_id) (sr_next_cursor page) now) ;;;
                  ret (set_page (default false (sr_has_more page))
                                (sr_next_cursor page) st)) wp)).
    { rewrite Hh. unfold sync_cycle, bind at 1. fold fetch. rewrite Hfetch.
      unfold bind at 1. rewrite Hpage. reflexivity. }
    rewrite Hrun.
    unfold bind, database.get_timestamp, database.update, database.db_call.
    cbn [db_calls tick_clock].
    destruct (db_fault rt (db_calls wp)) as [e |]; [reflexivity |].
    split; [reflexivity | apply committed_cursor].
  - intros resp w' Hr Hstatus. rewrite Hh in Hr.
    destruct (sync_cycle rt account user_id account_id token creds stats0 w0)
      as [[e | st] w1] eqn:Hcycle; simpl in Hr; injection Hr as <- <-.
    + destruct (sync_cycle_cases rt _ _ _ _ _ _ _ _ _ Hcycle)
        as [(e' & _ & Hkeep) | (page & st3 & wp & _ & _ & _ & _ & [=] & _)].
      exact Hkeep.
    + exfalso. apply Hstatus. reflexivity.
Qed.

Lemma C1_witness :
  status_of (handler demo_failing_rt (Demo.sync_event None None) Demo.world0).1 = 503
  ∧ accounts (handler demo_failing_rt (Demo.sync_event None None) Demo.world0).2
    = accounts Demo.world0.
Proof.
  destruct (C1_cursor_commits_after_page demo_failing_rt (Demo.sync_event None None)
              Demo.world0 Demo.account_id Demo.account "access-sandbox-1"
              {| creds_client_id := Some "client"; creds_secret := Some "secret";
                 creds_environment := Some "sandbox" |})
    as (_ & Hstep & _).
  - reflexivity.
  - reflexivity.
  - reflexivity.
  - reflexivity.
  - reflexivity.
  - reflexivity.
  - reflexivity.
  - exists 30. reflexivity.
  - reflexivity.
  - edestruct (Hstep demo_page) as [Hanswer Hkept].
    + reflexivity.
    + reflexivity.
    + rewrite Hanswer. split; [reflexivity | exact Hkept].
Defined.

End sync_cycle_properties.

Section legacy_window_properties.
Import sync_transactions.

Section legacy_facts.
Variable rt : runtime.

Lemma effective_days_run ev d w :
  validation.int (validation.get_query_param (ev_days ev) "30") = Some d ->
  effective_days ev w = (Returned (Z.min d 730), w).
Proof. intros H. unfold effective_days. rewrite H. reflexivity. Qed.

Lemma legacy_range_run days w :
  Z.abs days ≤ 999999999 ->
  0 ≤ utcnow rt (S (clock_reads w)) - days * usec_per_day < max_ticks ->
  legacy_range rt days w =
    (Returned (strftime_ymd rt (utcnow rt (S (clock_reads w)) - days * usec_per_day),
               strftime_ymd rt (utcnow rt (clock_reads w))),
     tick_clock (tick_clock w)).
Proof.
  intros Habs [Hlo Hhi].
  unfold legacy_range, bind, database.datetime_utcnow, timedelta_days, datetime_add.
  cbn [clock_reads tick_clock].
  rewrite (proj2 (Z.leb_le _ _) Habs). cbn [ret].
  replace (utcnow rt (S (clock_reads w)) + - (days * usec_per_day))
    with (utcnow rt (S (clock_reads w)) - days * usec_per_day) by lia.
  rewrite (proj2 (Z.leb_le _ _) Hlo), (proj2 (Z.ltb_lt _ _) Hhi). reflexivity.
Qed.

Lemma handler_reaches_legacy ev w account_id account token creds d :
  ev_account_id ev = Some account_id ->
  validation.validate_uuid account_id = true ->
  db_fault rt (db_calls w) = None ->
  accounts w !! account_key (ev_user_id ev) account_id = Some account ->
  a_plaid_access_token account = Some token ->
  Str.is_empty token = false ->
  get_plaid_credentials rt (tick_db w) = (Returned creds, tick_db w) ->
  validation.int (validation.get_query_param (ev_days ev) "30") = Some d ->
  use_sync_of ev = false ->
  handler rt ev w =
    legacy_answer rt account (ev_user_id ev) account_id token creds
                  (Z.min d 730) (tick_db w).
Proof.
  intros Hid Huuid Hfault Hacc Htok Hne Hcreds Hdays Hsync.
  unfold handler, handler_try. rewrite Hid, (validate_uuid_nonempty _ Huuid), Huuid.
  cbn beta iota delta [negb].
  unfold bind at 1. unfold database.get_account, database.get_by_id, database.db_call.
  rewrite Hfault. change (the_table (tick_db w)) with (accounts w).
  unfold account_key in Hacc. rewrite Hacc, Htok, Hne.
  unfold bind at 1, try_except at 1, bind at 1. rewrite Hcreds. cbn [ret].
  unfold bind at 1, effective_days. rewrite Hdays, Hsync. cbn [ret].
  unfold legacy_answer, bind at 1.
  destruct (legacy_range rt (Z.min d 730) (tick_db w)) as [[e | range] w1];
    [reflexivity |].
  unfold try_except, bind.
  destruct (legacy_cycle _ _ _ _ _ _ _ _ _ _) as [[e | st] w2]; reflexivity.
Qed.

End legacy_facts.

(** C8 as stated fails: a request for 0 days is not raised to 1.  The
    effective window is 0, and the range the aggregator is asked for starts
    on the day it ends. *)
Lemma C8_counterexample :
  validation.int "0" = Some 0
  ∧ effective_days (Demo.sync_event (Some "false") (Some "0")) Demo.world0
    = (Returned 0, Demo.world0)
  ∧ clamp 1 730 0 = 1
  ∧ (legacy_range Demo.plain_rt 0 (tick_db Demo.world0)).1
    = Returned ("2024-03-15", "2024-03-15")
  ∧ (legacy_range Demo.plain_rt (clamp 1 730 0) (tick_db Demo.world0)).1
    = Returned ("2024-03-14", "2024-03-15").
Proof. repeat split; reflexivity. Qed.

(** C8, amended.  The window is the requested number of days capped at 730
    and nothing else: a request above 730 uses 730, any request of at most
    730 days, also one below 1, is used as it is.  In legacy mode the range
    asked of the aggregator is computed from that window, and it starts that
    many days before the second reading of the clock. *)
Theorem C8_window_is_capped_at_730 (rt : runtime) (ev : event) (w : world)
    (account_id : string) (account : account_item) (token : string)
    (creds : plaid_creds) (d : Z) :
  ev_account_id ev = Some account_id ->
  validation.validate_uuid account_id = true ->
  db_fault rt (db_calls w) = None ->
  accounts w !! account_key (ev_user_id ev) account_id = Some account ->
  a_plaid_access_token account = Some token ->
  Str.is_empty token = false ->
  get_plaid_credentials rt (tick_db w) = (Returned creds, tick_db w) ->
  validation.int (validation.get_query_param (ev_days ev) "30") = Some d ->
  use_sync_of ev = false ->
  let days := Z.min d 730 in
  effective_days ev (tick_db w) = (Returned days, tick_db w)
  ∧ (730 < d -> days = 730)
  ∧ (d ≤ 730 -> days = d)
  ∧ handler rt ev w =
      legacy_answer rt account (ev_user_id ev) account_id token creds days (tick_db w)
  ∧ (Z.abs days ≤ 999999999 ->
     0 ≤ utcnow rt (S (clock_reads w)) - days * usec_per_day < max_ticks ->
     legacy_range rt days (tick_db w) =
       (Returned (strftime_ymd rt (utcnow rt (S (clock_reads w)) - days * usec_per_day),
                  strftime_ymd rt (utcnow rt (clock_reads w))),
        tick_clock (tick_clock (tick_db w)))).
Proof.
  intros Hid Huuid Hfault Hacc Htok Hne Hcreds Hdays Hsync days.
  split; [apply effective_days_run, Hdays |].
  split; [unfold days; lia |]. split; [unfold days; lia |].
  split; [eapply handler_reaches_legacy; eassumption |].
  intros Habs Hrange. apply (legacy_range_run rt days (tick_db w) Habs Hrange).
Qed.

Lemma C8_witness :
  effective_days (Demo.sync_event (Some "false") (Some "1000")) (tick_db Demo.world0)
    = (Returned 730, tick_db Demo.world0)
  ∧ (legacy_range Demo.plain_rt 730 (tick_db Demo.world0)).1
    = Returned ("2022-03-16", "2024-03-15").
Proof.
  destruct (C8_window_is_capped_at_730 Demo.plain_rt
              (Demo.sync_event (Some "false") (Some "1000"))
              Demo.world0 Demo.account_id Demo.account "access-sandbox-1"
              {| creds_client_id := Some "client"; creds_secret := Some "secret";
                 creds_environment := Some "sandbox" |} 1000)
    as (Hdays & _ & _ & _ & Hrange).
  - reflexivity.
  - reflexivity.
  - reflexivity.
  - reflexivity.
  - reflexivity.
  - reflexivity.
  - reflexivity.
  - reflexivity.
  - reflexivity.
  - split; [exact Hdays |].
    change (Z.min 1000 730) with 730 in Hrange.
    rewrite Hrange; [reflexivity | vm_compute; discriminate |].
    split; vm_compute; [discriminate | reflexivity].
Defined.

End legacy_window_properties.

Section replay_properties.
Import sync_transactions.

Section ops_facts.
Context {V : Type}.
Implicit Types (m : table V) (ops : list ((string * string) * option V)).

Lemma apply_ops_app ops1 ops2 m :
  apply_ops (ops1 ++ ops2) m = apply_ops ops2 (apply_ops ops1 m).
Proof. unfold apply_ops. apply foldl_app. Qed.

Lemma apply_op_lookup m op k :
  apply_op m op !! k = if decide (op.1 = k) then op.2 else m !! k.
Proof.
  unfold apply_op. destruct op as [k' [v |]]; simpl.
  - rewrite lookup_insert. reflexivity.
  - rewrite lookup_delete. reflexivity.
Qed.

Lemma apply_ops_lookup ops m k :
  apply_ops ops m !! k = default (m !! k) (last_write k ops).
Proof.
  revert m. induction ops as [| op ops IH]; intros m; [reflexivity |].
  change (apply_ops (op :: ops) m) with (apply_ops ops (apply_op m op)).
  rewrite IH. simpl. destruct (last_write k ops) as [r |]; [reflexivity |].
  rewrite apply_op_lookup. destruct (decide (op.1 = k)); reflexivity.
Qed.

(** Replaying a sequence of writes changes nothing. *)
Lemma apply_ops_idempotent ops m :
  apply_ops ops (apply_ops ops m) = apply_ops ops m.
Proof.
  apply map_eq. intros k. rewrite !apply_ops_lookup.
  destruct (last_write k ops); reflexivity.
Qed.

End ops_facts.

Section replay_facts.
Variable rt : runtime.

Lemma effect_ret {A} (a : A) : effect (ret a) [].
Proof. intros w a' w' [= <- <-]. reflexivity. Qed.

Lemma effect_bind {A B} (m : M A) (k : A -> M B) ops1 ops2 :
  effect m ops1 -> (∀ a, effect (k a) ops2) -> effect (bind m k) (ops1 ++ ops2).
Proof.
  intros Hm Hk w b w' H. unfold bind in H.
  destruct (m w) as [[e | a] w1] eqn:Hmw; [discriminate |].
  rewrite apply_ops_app, <- (Hm _ _ _ Hmw). eapply Hk, H.
Qed.

Lemma effect_for_fold {A S} (xs : list A) (body : S -> A -> M S) :
  Forall (fun x => ∃ ops, ∀ s, effect (body s x) ops) xs ->
  ∃ ops, ∀ s, effect (for_fold xs body s) ops.
Proof.
  induction 1 as [| x xs [ops1 Hx] _ [ops2 IH]].
  - exists []. intros s. apply effect_ret.
  - exists (ops1 ++ ops2). intros s. simpl. apply effect_bind; [apply Hx | apply IH].
Qed.

Lemma effect_map plaid_txn user_id account_id :
  effect (map_plaid_transaction rt plaid_txn user_id account_id) [].
Proof.
  intros w item w' H.
  destruct (map_plaid_transaction_returns rt plaid_txn user_id account_id w)
    as (item' & Hrun & _).
  rewrite Hrun in H. injection H as <- <-. reflexivity.
Qed.

Lemma stripped_put (item : txn_item) w a w' :
  database.put rt item w = (Returned a, w') ->
  stripped w' = <[(t_pk item, t_sk item) := strip_timestamps item]> (stripped w).
Proof.
  unfold database.put, database.db_call. intros H.
  destruct (db_fault rt (db_calls w)); [discriminate |].
  injection H as <- <-. unfold stripped. cbn. apply fmap_insert.
Qed.

Lemma stripped_delete pk sk w a w' :
  database.delete (V := txn_item) rt pk sk w = (Returned a, w') ->
  stripped w' = delete (pk, sk) (stripped w).
Proof.
  unfold database.delete, database.db_call. intros H.
  destruct (db_fault rt (db_calls w)); [discriminate |].
  injection H as <- <-. unfold stripped. cbn. apply fmap_delete.
Qed.

(** With an external id, the key and everything but the timestamps of the
    mapped item depend on the record alone. *)
Lemma map_modulo_clock plaid_txn user_id account_id :
  is_Some (p_transaction_id plaid_txn) ->
  ∃ key s, ∀ w, ∃ item,
    map_plaid_transaction rt plaid_txn user_id account_id w
      = (Returned item, after_map w)
    ∧ (t_pk item, t_sk item) = key
    ∧ strip_timestamps item = s.
Proof.
  intros [id Hid]. do 2 eexists. intros w. eexists.
  split; [reflexivity |]. rewrite Hid. unfold strip_timestamps. cbn.
  split; reflexivity.
Qed.

Lemma effect_upsert_matching ext user_id account_id bump plaid_txn :
  (p_account_id plaid_txn = ext -> is_Some (p_transaction_id plaid_txn)) ->
  ∃ ops, ∀ account st,
    a_plaid_account_id account = ext ->
    effect (upsert_matching rt account user_id account_id bump st plaid_txn) ops.
Proof.
  intros Hid. destruct (decide (p_account_id plaid_txn = ext)) as [Heq | Hne].
  - destruct (map_modulo_clock plaid_txn user_id account_id (Hid Heq))
      as (key & s & Hmap).
    exists [(key, Some s)]. intros account st Hext w st' w' H.
    unfold upsert_matching, same_account in H.
    rewrite Hext, bool_decide_eq_true_2 in H by exact Heq.
    unfold bind at 1 in H. destruct (Hmap w) as (item & Hrun & Hkey & Hs).
    rewrite Hrun in H. unfold bind at 1 in H.
    destruct (database.put rt item (after_map w)) as [[e | a] w1] eqn:Hput;
      [discriminate |].
    injection H as <- <-. rewrite (stripped_put _ _ _ _ Hput), Hkey, Hs.
    reflexivity.
  - exists []. intros account st Hext w st' w' H.
    unfold upsert_matching, same_account in H.
    rewrite Hext, bool_decide_eq_false_2 in H by exact Hne.
    injection H as <- <-. reflexivity.
Qed.

Lemma effect_delete_removed account_id r :
  ∃ ops, ∀ st, effect (delete_removed rt account_id st r) ops.
Proof.
  unfold delete_removed. destruct (r_transaction_id r) as [txn_id |].
  - destruct (Str.is_empty txn_id).
    + exists []. intros st. apply effect_ret.
    + exists [(("ACCOUNT#" +:+ account_id, "TXN#" +:+ txn_id), None)].
      intros st w st' w' H. unfold bind at 1 in H.
      destruct (database.delete rt _ _ w) as [[e | a] w1] eqn:Hdel; [discriminate |].
      injection H as <- <-. rewrite (stripped_delete _ _ _ _ _ Hdel). reflexivity.
  - exists []. intros st. apply effect_ret.
Qed.

(** The effect of a page on the stripped table depends on the page, the
    account's external id and the ids of the request, and on nothing else,
    provided every record that is stored carries an external id. *)
Lemma effect_process_page ext user_id account_id page :
  (∀ p, p ∈ (default [] (sr_added page) ++ default [] (sr_modified page))%list ->
        p_account_id p = ext -> is_Some (p_transaction_id p)) ->
  ∃ ops, ∀ account st,
    a_plaid_account_id account = ext ->
    effect (process_page rt account user_id account_id page st) ops.
Proof.
  intros Hids.
  assert (Hloop : ∀ bump xs,
    (∀ p, p ∈ xs -> p_account_id p = ext -> is_Some (p_transaction_id p)) ->
    ∃ ops, ∀ account st, a_plaid_account_id account = ext ->
      effect (for_fold xs (upsert_matching rt account user_id account_id bump) st) ops).
  { intros bump xs Hxs. induction xs as [| x xs IH].
    - exists []. intros account st _. apply effect_ret.
    - destruct (effect_upsert_matching ext user_id account_id bump x) as [ops1 H1].
      { apply Hxs. left. }
      destruct IH as [ops2 H2].
      { intros p Hp. apply Hxs. right. exact Hp. }
      exists (ops1 ++ ops2). intros account st Hext. simpl.
      apply effect_bind; [apply H1, Hext | intros st'; apply H2, Hext]. }
  destruct (Hloop incr_added (default [] (sr_added page))) as [ops1 H1].
  { intros p Hp. apply Hids. apply elem_of_app. left. exact Hp. }
  destruct (Hloop incr_modified (default [] (sr_modified page))) as [ops2 H2].
  { intros p Hp. apply Hids. apply elem_of_app. right. exact Hp. }
  destruct (effect_for_fold (default [] (sr_removed page))
              (delete_removed rt account_id)) as [ops3 H3].
  { apply Forall_forall. intros r _. apply effect_delete_removed. }
  exists (ops1 ++ ops2 ++ ops3). intros account st Hext. unfold process_page.
  apply effect_bind; [apply H1, Hext | intros st1].
  apply effect_bind; [apply H2, Hext | intros st2; apply H3].
Qed.

Lemma sync_from_plaid_returned token creds cursor count w page w' :
  sync_transactions_from_plaid rt token creds cursor count w = (Returned page, w') ->
  ∃ request, transactions_sync rt request = Returned page.
Proof.
  unfold sync_transactions_from_plaid, bind, creds_key, lift_reply.
  destruct (creds_client_id creds); simpl; [| discriminate].
  destruct (creds_secret creds); simpl; [| discriminate].
  intros [= H _]. eexists. exact H.
Qed.

(** A 200 in incremental mode: the page was processed from the world after
    the read of the account, and the transactions are those it left. *)
Lemma handler_success_inv ev w resp w' page :
  use_sync_of ev = true ->
  (∀ request, transactions_sync rt request = Returned page) ->
  handler rt ev w = (resp, w') ->
  status_of resp = 200 ->
  ∃ account_id account st wp,
    ev_account_id ev = Some account_id
    ∧ accounts w !! account_key (ev_user_id ev) account_id = Some account
    ∧ process_page rt account (ev_user_id ev) account_id page stats0 (tick_db w)
      = (Returned st, wp)
    ∧ transactions w' = transactions wp
    ∧ ∃ account',
        accounts w' !! account_key (ev_user_id ev) account_id = Some account'
        ∧ a_plaid_account_id account' = a_plaid_account_id account.
Proof.
  intros Hsync Hsame Hrun Hok.
  destruct (handler_incremental_cases rt ev w resp w' Hsync Hrun)
    as [(Hne & _) | (account_id & account & token & creds & Hid & _ & Hacc & _ & _ & Hans)];
    [contradiction |].
  destruct (sync_cycle rt account (ev_user_id ev) account_id token creds stats0 (tick_db w))
    as [[e | st] w1] eqn:Hcycle; simpl in Hans; injection Hans as -> ->;
    [discriminate |].
  destruct (sync_cycle_cases rt _ _ _ _ _ _ _ _ _ Hcycle)
    as [(e & [=] & _) | (page' & st3 & wp & Hfetch & Hpage & Hkeep & _ & _ & ->)].
  destruct (sync_from_plaid_returned _ _ _ _ _ _ _ Hfetch) as [request Hreq].
  rewrite Hsame in Hreq. injection Hreq as <-.
  exists account_id, account, st3, wp. repeat split; try done.
  unfold committed. cbn. rewrite lookup_insert_eq. eexists. split; [reflexivity |].
  rewrite Hkeep. cbn [accounts tick_db]. rewrite Hacc. reflexivity.
Qed.

End replay_facts.

(** C2 as stated fails.  The aggregator answers twice with the same page,
    whose one added record has no external transaction id: both runs
    succeed, and the second run leaves two stored transactions where the
    first left one.  When the record has an id the key is kept, but the
    stored item is not the same after the second run: its [created_at] is
    that of the second run. *)
Lemma C2_counterexample :
  let ev := Demo.sync_event None None in
  let account_pk := "ACCOUNT#" +:+ Demo.account_id in
  let run1 := handler demo_rt_without_id ev Demo.world0 in
  let run2 := handler demo_rt_without_id ev run1.2 in
  let run1' := handler demo_rt_with_id ev Demo.world0 in
  let run2' := handler demo_rt_with_id ev run1'.2 in
  status_of run1.1 = 200 ∧ status_of run2.1 = 200
  ∧ t_sk <$> database.query_items account_pk "TXN#" None true (transactions run1.2)
    = [ "TXN#uuid-0" ]
  ∧ t_sk <$> database.query_items account_pk "TXN#" None true (transactions run2.2)
    = [ "TXN#uuid-0"; "TXN#uuid-2" ]
  ∧ transactions run2.2 ≠ transactions run1.2
  ∧ status_of run1'.1 = 200 ∧ status_of run2'.1 = 200
  ∧ (fun t => (t_sk t, t_created_at t))
      <$> database.query_items account_pk "TXN#" None true (transactions run1'.2)
    = [ ("TXN#t1", "2024-03-15T00:00:00Z") ]
  ∧ (fun t => (t_sk t, t_created_at t))
      <$> database.query_items account_pk "TXN#" None true (transactions run2'.2)
    = [ ("TXN#t1", "2024-03-15T00:00:03Z") ].
Proof.
  cbv zeta.
  split; [vm_compute; reflexivity |]. split; [vm_compute; reflexivity |].
  split; [vm_compute; reflexivity |]. split; [vm_compute; reflexivity |].
  split.
  { intros Heq. apply (f_equal (fun t => length (map_to_list t))) in Heq.
    vm_compute in Heq. discriminate Heq. }
  split; [vm_compute; reflexivity |]. split; [vm_compute; reflexivity |].
  split; vm_compute; reflexivity.
Qed.

(** C2, amended.  When every added or modified record that belongs to the
    account carries an external transaction id, two successful incremental
    runs that receive the same page leave, after the second run, the same
    keys as after the first, and under each key the same item but for its
    [created_at] and [synced_at], which the second run writes anew. *)
Theorem C2_replay_is_stable_modulo_timestamps (rt : runtime) (ev : event)
    (page : sync_response) (account_id : string) (account : account_item)
    (w w1 w2 : world) (r1 r2 : response sync_body) :
  use_sync_of ev = true ->
  (∀ request, transactions_sync rt request = Returned page) ->
  ev_account_id ev = Some account_id ->
  accounts w !! account_key (ev_user_id ev) account_id = Some account ->
  (∀ p, p ∈ default [] (sr_added page) ++ default [] (sr_modified page) ->
        p_account_id p = a_plaid_account_id account ->
        is_Some (p_transaction_id p)) ->
  handler rt ev w = (r1, w1) -> status_of r1 = 200 ->
  handler rt ev w1 = (r2, w2) -> status_of r2 = 200 ->
  strip_timestamps <$> transactions w2 = strip_timestamps <$> transactions w1
  ∧ dom (transactions w2) = dom (transactions w1).
Proof.
  intros Hsync Hsame Hid Hacc Hids Hrun1 Hok1 Hrun2 Hok2.
  destruct (handler_success_inv rt ev w r1 w1 page Hsync Hsame Hrun1 Hok1)
    as (aid1 & acc1 & st1 & wp1 & Hid1 & Hacc1 & Hpage1 & Htx1 & acc1' & Hacc1' & Hext1).
  rewrite Hid in Hid1. injection Hid1 as <-.
  rewrite Hacc in Hacc1. injection Hacc1 as <-.
  destruct (handler_success_inv rt ev w1 r2 w2 page Hsync Hsame Hrun2 Hok2)
    as (aid2 & acc2 & st2 & wp2 & Hid2 & Hacc2 & Hpage2 & Htx2 & _).
  rewrite Hid in Hid2. injection Hid2 as <-.
  rewrite Hacc1' in Hacc2. injection Hacc2 as <-.
  destruct (effect_process_page rt (a_plaid_account_id account) (ev_user_id ev)
              account_id page Hids) as [ops Hops].
  pose proof (Hops account stats0 eq_refl _ _ _ Hpage1) as E1.
  pose proof (Hops acc1' stats0 Hext1 _ _ _ Hpage2) as E2.
  assert (Hfmap : strip_timestamps <$> transactions w2
                  = strip_timestamps <$> transactions w1).
  { change (strip_timestamps <$> transactions w2) with (stripped w2).
    change (strip_timestamps <$> transactions w1) with (stripped w1).
    assert (S2 : stripped w2 = stripped wp2) by (unfold stripped; rewrite Htx2; done).
    assert (S1 : stripped w1 = stripped wp1) by (unfold stripped; rewrite Htx1; done).
    rewrite S2, E2.
    change (stripped (tick_db w1)) with (stripped w1).
    rewrite S1, E1. apply apply_ops_idempotent. }
  split; [exact Hfmap |].
  rewrite <- (dom_fmap_L strip_timestamps (transactions w2)), Hfmap.
  apply dom_fmap_L.
Qed.

Lemma C2_witness :
  let ev := Demo.sync_event None None in
  let run1 := handler demo_rt_with_id ev Demo.world0 in
  let run2 := handler demo_rt_with_id ev run1.2 in
  strip_timestamps <$> transactions run2.2 = strip_timestamps <$> transactions run1.2
  ∧ dom (transactions run2.2) = dom (transactions run1.2).
Proof.
  cbv zeta.
  apply (C2_replay_is_stable_modulo_timestamps demo_rt_with_id
           (Demo.sync_event None None) demo_page Demo.account_id Demo.account
           Demo.world0 _ _
           (handler demo_rt_with_id (Demo.sync_event None None) Demo.world0).1
           (handler demo_rt_with_id (Demo.sync_event None None)
              (handler demo_rt_with_id (Demo.sync_event None None) Demo.world0).2).1).
  - reflexivity.
  - intros request. reflexivity.
  - reflexivity.
  - reflexivity.
  - intros p Hp _. apply list_elem_of_singleton in Hp. subst p. eexists. reflexivity.
  - apply surjective_pairing.
  - reflexivity.
  - apply surjective_pairing.
  - reflexivity.
Defined.

End replay_properties.

(* ===================================================================== *)
(** * Dictionaries, sums and [sorted] *)
(* ===================================================================== *)

Section dict_facts.
Context {V : Type}.
Implicit Types (d : list (string * V)) (k : string).

Lemma Dict_get_upd_eq zero k f d :
  Dict.get k (Dict.upd zero k f d) = Some (f (default zero (Dict.get k d))).
Proof.
  induction d as [| [k' v] d IH]; simpl.
  - rewrite String.eqb_refl. reflexivity.
  - destruct (String.eqb k k') eqn:E; simpl; rewrite E; [reflexivity | exact IH].
Qed.

Lemma Dict_get_upd_ne zero k k' f d :
  k ≠ k' -> Dict.get k' (Dict.upd zero k f d) = Dict.get k' d.
Proof.
  intros Hne. induction d as [| [k0 v] d IH]; simpl.
  - destruct (String.eqb k' k) eqn:E; [| reflexivity].
    apply String.eqb_eq in E. congruence.
  - destruct (String.eqb k k0) eqn:E; simpl.
    + apply String.eqb_eq in E. subst k0.
      destruct (String.eqb k' k) eqn:E'; [| reflexivity].
      apply String.eqb_eq in E'. congruence.
    + rewrite IH. reflexivity.
Qed.

Lemma Dict_get_Some_elem k v d : Dict.get k d = Some v -> (k, v) ∈ d.
Proof.
  induction d as [| [k' v'] d IH]; simpl; [discriminate |].
  destruct (String.eqb k k') eqn:E.
  - apply String.eqb_eq in E. intros [= ->]. subst. left.
  - intros H. right. auto.
Qed.

Lemma Dict_get_None k d : Dict.get k d = None <-> k ∉ Dict.keys d.
Proof.
  unfold Dict.keys. induction d as [| [k' v'] d IH]; simpl.
  - split; [intros _; apply not_elem_of_nil | reflexivity].
  - rewrite not_elem_of_cons. destruct (String.eqb k k') eqn:E.
    + apply String.eqb_eq in E. split; [discriminate | intros [? _]; congruence].
    + apply String.eqb_neq in E. rewrite IH. tauto.
Qed.

Lemma Dict_keys_upd zero k f d :
  Dict.keys (Dict.upd zero k f d)
  = if decide (k ∈ Dict.keys d) then Dict.keys d else Dict.keys d ++ [k].
Proof.
  unfold Dict.keys. induction d as [| [k' v] d IH].
  - reflexivity.
  - cbn [Dict.upd]. destruct (String.eqb k k') eqn:E.
    + apply String.eqb_eq in E. subst k'. cbn [fmap list_fmap fst].
      rewrite decide_True by left. reflexivity.
    + apply String.eqb_neq in E. cbn [fmap list_fmap fst] in *. rewrite IH.
      destruct (decide (k ∈ fst <$> d)) as [Hin | Hnin].
      * rewrite decide_True by (right; exact Hin). reflexivity.
      * rewrite decide_False; [reflexivity |].
        rewrite not_elem_of_cons. auto.
Qed.

Lemma Dict_keys_upd_NoDup zero k f d :
  NoDup (Dict.keys d) -> NoDup (Dict.keys (Dict.upd zero k f d)).
Proof.
  intros Hd. rewrite Dict_keys_upd. destruct (decide _) as [| Hnin]; [exact Hd |].
  apply NoDup_app. split; [exact Hd |]. split.
  - intros x Hx Hx'. apply list_elem_of_singleton in Hx'. subst. contradiction.
  - apply NoDup_singleton.
Qed.

Lemma Dict_elem_of_keys_upd zero k k' f d :
  k' ∈ Dict.keys (Dict.upd zero k f d) <-> k' = k ∨ k' ∈ Dict.keys d.
Proof.
  rewrite Dict_keys_upd. destruct (decide _) as [Hin | Hnin].
  - split; [auto | intros [-> |]; auto].
  - rewrite elem_of_app, list_elem_of_singleton. tauto.
Qed.

End dict_facts.

Lemma Num_sum_app xs ys : Num.sum (xs ++ ys) = (Num.sum xs + Num.sum ys)%Qc.
Proof.
  unfold Num.sum. induction xs as [| x xs IH]; simpl.
  - rewrite Qcplus_0_l. reflexivity.
  - rewrite IH. ring.
Qed.


(** Adding [a] under a key adds [a] to the sum of the values. *)
Lemma Dict_sum_cons k v (d : list (string * Qc)) :
  Num.sum (Dict.values ((k, v) :: d)) = (v + Num.sum (Dict.values d))%Qc.
Proof. reflexivity. Qed.

Lemma Dict_sum_upd k a (d : list (string * Qc)) :
  Num.sum (Dict.values (Dict.upd 0%Qc k (fun v => v + a)%Qc d))
  = (Num.sum (Dict.values d) + a)%Qc.
Proof.
  induction d as [| [k' v] d IH].
  - cbn [Dict.upd]. rewrite Dict_sum_cons. unfold Dict.values, Num.sum. simpl. ring.
  - cbn [Dict.upd]. destruct (String.eqb k k').
    + rewrite !Dict_sum_cons. ring.
    + rewrite !Dict_sum_cons, IH. ring.
Qed.

Lemma insert_sorted_Permutation {A} (before : A -> A -> bool) x l :
  insert_sorted before x l ≡ₚ x :: l.
Proof.
  induction l as [| y l IH]; simpl; [reflexivity |].
  destruct (before y x); [| reflexivity].
  rewrite IH. apply Permutation_swap.
Qed.

Lemma sorted_by_Permutation {A} (before : A -> A -> bool) l :
  sorted_by before l ≡ₚ l.
Proof.
  unfold sorted_by. induction l as [| x l IH]; simpl; [reflexivity |].
  rewrite insert_sorted_Permutation, IH. reflexivity.
Qed.

(* ===================================================================== *)
(** * What a range query returns *)
(* ===================================================================== *)

Lemma query_items_stored {V} (pk prefix : string) (limit : option nat)
    (forward : bool) (t : table V) (x : V) :
  x ∈ database.query_items pk prefix limit forward t -> ∃ k, t !! k = Some x.
Proof.
  unfold database.query_items. intros H.
  apply list_elem_of_fmap in H as ([k v] & -> & H).
  assert (Hin : (k, v) ∈ merge_sort (sk_le forward)
            (filter (fun kv => kv.1.1 = pk ∧ begins_with prefix kv.1.2 = true)
                    (map_to_list t))).
  { destruct limit; [eapply subseteq_take, H | exact H]. }
  rewrite merge_sort_Permutation in Hin.
  apply list_elem_of_filter in Hin as [_ Hin].
  apply elem_of_map_to_list in Hin. exists k. exact Hin.
Qed.

Section query_facts.
Variable rt : runtime.

Lemma get_account_transactions_stored user_id account_id limit offset w txns w' :
  database.get_account_transactions rt user_id account_id limit offset w
    = (Returned txns, w') ->
  transactions w' = transactions w
  ∧ ∀ x, x ∈ txns -> ∃ k, transactions w !! k = Some x.
Proof.
  unfold database.get_account_transactions, database.query_by_pk, bind,
    database.db_call.
  destruct (db_fault rt (db_calls w)); [discriminate |].
  intros [= <- <-]. split; [reflexivity |]. intros x Hx.
  apply subseteq_take, subseteq_drop in Hx.
  eapply query_items_stored, Hx.
Qed.

End query_facts.

Section cash_flow_properties.
Import get_cash_flow.

Section cash_flow_facts.
Variable rt : runtime.
Variable granularity : string.

Lemma bucket_amount_upd_eq key a d :
  bucket_amount key (Dict.upd 0%Qc key (fun v => v + a)%Qc d)
  = (bucket_amount key d + a)%Qc.
Proof. unfold bucket_amount. rewrite Dict_get_upd_eq. reflexivity. Qed.

Lemma bucket_amount_upd_ne key key' a d :
  key ≠ key' ->
  bucket_amount key' (Dict.upd 0%Qc key (fun v => v + a)%Qc d) = bucket_amount key' d.
Proof. intros H. unfold bucket_amount. rewrite Dict_get_upd_ne by exact H. reflexivity. Qed.

Lemma total_of_upd key a d :
  total_of (Dict.upd 0%Qc key (fun v => v + a)%Qc d) = (total_of d + a)%Qc.
Proof. apply Dict_sum_upd. Qed.

(** One iteration of the loop of [aggregate_by_granularity]. *)
Lemma aggregate_from_cons inf out txn rest :
  aggregate_from rt inf out (txn :: rest) granularity =
    match t_date txn with
    | None => Raised (TypeError "'NoneType' object is not subscriptable")
    | Some _ =>
        match bucket rt granularity txn with
        | None => aggregate_from rt inf out rest granularity
        | Some key =>
            if Num.geb (t_amount txn) 0
            then aggregate_from rt
                   (Dict.upd 0%Qc key (fun v => v + t_amount txn)%Qc inf) out
                   rest granularity
            else aggregate_from rt inf
                   (Dict.upd 0%Qc key (fun v => v + magnitude txn)%Qc out)
                   rest granularity
        end
    end.
Proof.
  cbn [aggregate_from]. unfold date_prefix, bucket.
  destruct (t_date txn) as [d |]; [| reflexivity].
  destruct (Str.is_empty (Str.take 10 d)); [reflexivity |].
  destruct (period_key rt granularity (Str.take 10 d)); reflexivity.
Qed.

Lemma aggregate_from_spec txns : ∀ inf out inf' out',
  aggregate_from rt inf out txns granularity = Returned (inf', out') ->
  (∀ key, bucket_amount key inf'
          = (bucket_amount key inf
             + Num.sum (t_amount <$> filter (inflow_to rt granularity key) txns))%Qc)
  ∧ (∀ key, bucket_amount key out'
          = (bucket_amount key out
             + Num.sum (magnitude <$> filter (outflow_to rt granularity key) txns))%Qc)
  ∧ total_of inf'
    = (total_of inf + Num.sum (t_amount <$> filter (inflow rt granularity) txns))%Qc
  ∧ total_of out'
    = (total_of out + Num.sum (magnitude <$> filter (outflow rt granularity) txns))%Qc
  ∧ (∀ key, key ∈ Dict.keys inf'
            <-> key ∈ Dict.keys inf ∨ ∃ t, t ∈ txns ∧ inflow_to rt granularity key t)
  ∧ (∀ key, key ∈ Dict.keys out'
            <-> key ∈ Dict.keys out ∨ ∃ t, t ∈ txns ∧ outflow_to rt granularity key t)
  ∧ (NoDup (Dict.keys inf) -> NoDup (Dict.keys inf'))
  ∧ (NoDup (Dict.keys out) -> NoDup (Dict.keys out')).
Proof.
  induction txns as [| txn rest IH]; intros inf out inf' out' H.
  { injection H as <- <-. rewrite !filter_nil. change (Num.sum _) with 0%Qc.
    split; [intros; ring |]. split; [intros; ring |].
    split; [ring |]. split; [ring |].
    split; [intros key; split; [auto | intros [? | (t & Ht & _)];
                                 [done | by apply elem_of_nil in Ht]] |].
    split; [intros key; split; [auto | intros [? | (t & Ht & _)];
                                 [done | by apply elem_of_nil in Ht]] |].
    split; auto. }
  rewrite aggregate_from_cons in H.
  destruct (t_date txn) as [d |] eqn:Hd; [| discriminate].
  destruct (bucket rt granularity txn) as [key0 |] eqn:Hb.
  2:{ (* the date cannot be used: the transaction is skipped *)
    destruct (IH _ _ _ _ H) as (I1 & I2 & I3 & I4 & I5 & I6 & I7 & I8).
    assert (Hin : ∀ key, ¬ inflow_to rt granularity key txn)
      by (intros key [_ E]; congruence).
    assert (Hout : ∀ key, ¬ outflow_to rt granularity key txn)
      by (intros key [_ E]; congruence).
    assert (Hin' : ¬ inflow rt granularity txn)
      by (intros [_ [? E]]; congruence).
    assert (Hout' : ¬ outflow rt granularity txn)
      by (intros [_ [? E]]; congruence).
    repeat split.
    - intros key. rewrite filter_cons_False by apply Hin. apply I1.
    - intros key. rewrite filter_cons_False by apply Hout. apply I2.
    - rewrite filter_cons_False by exact Hin'. exact I3.
    - rewrite filter_cons_False by exact Hout'. exact I4.
    - rewrite I5. intros [? | (t & Ht & Hc)]; [auto |]. right. exists t.
      split; [right; exact Ht | exact Hc].
    - rewrite I5. intros [? | (t & Ht & Hc)]; [auto |].
      apply elem_of_cons in Ht as [-> | Ht]; [by apply Hin in Hc | eauto].
    - rewrite I6. intros [? | (t & Ht & Hc)]; [auto |]. right. exists t.
      split; [right; exact Ht | exact Hc].
    - rewrite I6. intros [? | (t & Ht & Hc)]; [auto |].
      apply elem_of_cons in Ht as [-> | Ht]; [by apply Hout in Hc | eauto].
    - exact I7.
    - exact I8. }
  destruct (Num.geb (t_amount txn) 0) eqn:Hsign.
  - (* an inflow into [key0] *)
    apply Num_geb_true in Hsign.
    destruct (IH _ _ _ _ H) as (I1 & I2 & I3 & I4 & I5 & I6 & I7 & I8).
    assert (Hout : ∀ key, ¬ outflow_to rt granularity key txn).
    { intros key [Hlt _]. apply (Qclt_not_le _ _ Hlt Hsign). }
    assert (Hout' : ¬ outflow rt granularity txn).
    { intros [Hlt _]. apply (Qclt_not_le _ _ Hlt Hsign). }
    repeat split.
    + intros key. rewrite I1. destruct (decide (key = key0)) as [-> | Hne].
      * rewrite filter_cons_True by (split; assumption).
        rewrite bucket_amount_upd_eq, fmap_cons.
        change (Num.sum (?x :: ?l)) with (x + Num.sum l)%Qc. ring.
      * rewrite filter_cons_False by (intros [_ E]; congruence).
        rewrite bucket_amount_upd_ne by congruence. reflexivity.
    + intros key. rewrite filter_cons_False by apply Hout. apply I2.
    + rewrite I3, filter_cons_True by (split; [assumption | eauto]).
      rewrite total_of_upd, fmap_cons.
      change (Num.sum (?x :: ?l)) with (x + Num.sum l)%Qc. ring.
    + rewrite filter_cons_False by exact Hout'. exact I4.
    + rewrite I5, Dict_elem_of_keys_upd.
      intros [[-> | ?] | (t & Ht & Hc)]; [| auto |].
      * right. exists txn. split; [left | split; assumption].
      * right. exists t. split; [right; exact Ht | exact Hc].
    + rewrite I5, Dict_elem_of_keys_upd.
      intros [? | (t & Ht & Hc)]; [auto |].
      apply elem_of_cons in Ht as [-> | Ht]; [| eauto].
      destruct Hc as [_ E]. left. left. congruence.
    + rewrite I6. intros [? | (t & Ht & Hc)]; [auto |]. right. exists t.
      split; [right; exact Ht | exact Hc].
    + rewrite I6. intros [? | (t & Ht & Hc)]; [auto |].
      apply elem_of_cons in Ht as [-> | Ht]; [by apply Hout in Hc | eauto].
    + intros Hnd. apply I7, Dict_keys_upd_NoDup, Hnd.
    + exact I8.
  - (* an outflow from [key0] *)
    apply Num_geb_false in Hsign.
    destruct (IH _ _ _ _ H) as (I1 & I2 & I3 & I4 & I5 & I6 & I7 & I8).
    assert (Hin : ∀ key, ¬ inflow_to rt granularity key txn).
    { intros key [Hle _]. apply (Qclt_not_le _ _ Hsign Hle). }
    assert (Hin' : ¬ inflow rt granularity txn).
    { intros [Hle _]. apply (Qclt_not_le _ _ Hsign Hle). }
    repeat split.
    + intros key. rewrite filter_cons_False by apply Hin. apply I1.
    + intros key. rewrite I2. destruct (decide (key = key0)) as [-> | Hne].
      * rewrite filter_cons_True by (split; assumption).
        rewrite bucket_amount_upd_eq, fmap_cons.
        change (Num.sum (?x :: ?l)) with (x + Num.sum l)%Qc. ring.
      * rewrite filter_cons_False by (intros [_ E]; congruence).
        rewrite bucket_amount_upd_ne by congruence. reflexivity.
    + rewrite filter_cons_False by exact Hin'. exact I3.
    + rewrite I4, filter_cons_True by (split; [assumption | eauto]).
      rewrite total_of_upd, fmap_cons.
      change (Num.sum (?x :: ?l)) with (x + Num.sum l)%Qc. ring.
    + rewrite I5. intros [? | (t & Ht & Hc)]; [auto |]. right. exists t.
      split; [right; exact Ht | exact Hc].
    + rewrite I5. intros [? | (t & Ht & Hc)]; [auto |].
      apply elem_of_cons in Ht as [-> | Ht]; [by apply Hin in Hc | eauto].
    + rewrite I6, Dict_elem_of_keys_upd.
      intros [[-> | ?] | (t & Ht & Hc)]; [| auto |].
      * right. exists txn. split; [left | split; assumption].
      * right. exists t. split; [right; exact Ht | exact Hc].
    + rewrite I6, Dict_elem_of_keys_upd.
      intros [? | (t & Ht & Hc)]; [auto |].
      apply elem_of_cons in Ht as [-> | Ht]; [| eauto].
      destruct Hc as [_ E]. left. left. congruence.
    + exact I7.
    + intros Hnd. apply I8, Dict_keys_upd_NoDup, Hnd.
Qed.


End cash_flow_facts.

(** What the handler answers with comes from one aggregation. *)
Lemma cash_flow_handler_inv rt ev w status body w' :
  handler rt ev w = (Body status body, w') ->
  ∃ transactions inflows outflows,
    aggregate_by_granularity rt transactions (default "daily" (ev_granularity ev))
      = Returned (inflows, outflows)
    ∧ body = body_of inflows outflows.
Proof.
  unfold handler, handler_try. intros H.
  repeat match type of H with
         | context [if ?c then ret _ else _] =>
             destruct c; [discriminate H |]
         end.
  unfold bind at 1 in H.
  destruct (database.get_user_accounts rt (ev_user_id ev) w) as [[e | accts] w1];
    [discriminate |].
  unfold bind at 1 in H.
  destruct (collect rt _ _ _ accts w1) as [[e | txns] w2]; [discriminate |].
  unfold bind, lift_reply in H.
  destruct (aggregate_by_granularity rt txns _) as [e | [inf out]] eqn:Hagg;
    [discriminate |].
  injection H as <- <- <-. exists txns, inf, out. split; [exact Hagg | reflexivity].
Qed.



End cash_flow_properties.

Section shares_properties.
Import get_spending_by_category.

Lemma Num_sum_cons (x : Qc) (xs : list Qc) : Num.sum (x :: xs) = (x + Num.sum xs)%Qc.
Proof. reflexivity. Qed.


Lemma Num_sum_zeros {A} (xs : list A) : Num.sum ((fun _ => 0%Qc) <$> xs) = 0%Qc.
Proof.
  induction xs as [| x xs IH]; [reflexivity |].
  rewrite fmap_cons, Num_sum_cons, IH. ring.
Qed.







Section spending_facts.
Variable rt : runtime.


End spending_facts.

End shares_properties.


Lemma scale_positive (n : nat) : (0 < inject_Z (10 ^ Z.of_nat n))%Q.
Proof.
  change 0%Q with (inject_Z 0). rewrite <- Zlt_Qlt. apply Z.pow_pos_nonneg; lia.
Qed.


Section spending_properties.
Import get_spending_by_category.

Lemma tally_cons s e cs txn rest :
  tally s e cs (txn :: rest) =
    match t_date txn with
    | None => Raised (TypeError "'NoneType' object is not subscriptable")
    | Some d =>
        if Num.geb (t_amount txn) 0 then tally s e cs rest
        else if negb (in_range s e (Str.take 10 d)) then tally s e cs rest
        else tally s e
               (Dict.upd (0%Qc, 0%nat) (t_category_name txn)
                  (fun v => ((v.1 + magnitude txn)%Qc, S v.2)) cs) rest
    end.
Proof. cbn [tally]. unfold date_prefix. destruct (t_date txn); reflexivity. Qed.




Lemma round_half_even_zero (q : Q) : (q == 0)%Q -> Num.round_half_even q = 0.
Proof.
  intros E. unfold Num.round_half_even.
  assert (F : Qfloor q = 0) by (rewrite (Qfloor_comp _ _ E); reflexivity).
  rewrite F.
  assert (C : (q - inject_Z 0 ?= 1 # 2)%Q = Lt) by (apply Qlt_alt; rewrite E; reflexivity).
  rewrite C. reflexivity.
Qed.

Lemma Num_round_zero n : Num.round 0 n = 0%Qc.
Proof.
  apply Qc_is_canon. unfold Num.round.
  rewrite round_half_even_zero.
  - cbn [this Q2Qc]. rewrite !Qred_correct. unfold Qdiv. apply Qmult_0_l.
  - apply Qmult_0_l.
Qed.




End spending_properties.

Section preserves_facts.
Context (I : world -> Prop).

Lemma preserves_ret {A} (a : A) : preserves I (ret a).
Proof. intros w r w' HI [= <- <-]. exact HI. Qed.

Lemma preserves_raise {A} e : preserves I (@raise A e).
Proof. intros w r w' HI [= <- <-]. exact HI. Qed.

Lemma preserves_lift_reply {A} (x : reply A) : preserves I (lift_reply x).
Proof. intros w r w' HI [= <- <-]. exact HI. Qed.

Lemma preserves_bind {A B} (m : M A) (k : A -> M B) :
  preserves I m -> (∀ a, preserves I (k a)) -> preserves I (bind m k).
Proof.
  intros Hm Hk w r w' HI H. unfold bind in H.
  destruct (m w) as [[e | a] w1] eqn:Hmw.
  - injection H as <- <-. eapply Hm; eassumption.
  - eapply Hk; [| exact H]. eapply Hm; eassumption.
Qed.

Lemma preserves_try_except {A} (m : M A) (h : exn -> M A) :
  preserves I m -> (∀ e, preserves I (h e)) -> preserves I (try_except m h).
Proof.
  intros Hm Hh w r w' HI H. unfold try_except in H.
  destruct (m w) as [[e | a] w1] eqn:Hmw.
  - eapply Hh; [| exact H]. eapply Hm; eassumption.
  - injection H as <- <-. eapply Hm; eassumption.
Qed.

Lemma preserves_for_fold {A S} (xs : list A) (body : S -> A -> M S) s :
  (∀ s x, preserves I (body s x)) -> preserves I (for_fold xs body s).
Proof.
  intros Hbody. revert s. induction xs as [| x xs IH]; intros s; simpl.
  - apply preserves_ret.
  - apply preserves_bind; [apply Hbody | intros s'; apply IH].
Qed.

End preserves_facts.

(** Steps of a proof that a composed computation maintains an invariant. *)
Ltac preserves_step :=
  match goal with
  | |- preserves _ (bind _ _) => apply preserves_bind; [| intros ?]
  | |- preserves _ (try_except _ _) => apply preserves_try_except; [| intros ?]
  | |- preserves _ (ret _) => apply preserves_ret
  | |- preserves _ (raise _) => apply preserves_raise
  | |- preserves _ (lift_reply _) => apply preserves_lift_reply
  | |- preserves _ (for_fold _ _ _) => apply preserves_for_fold; intros ? ?
  | |- preserves _ (if ?c then _ else _) => destruct c
  | |- preserves _ (match ?x with _ => _ end) => destruct x
  end.

Section nonneg_facts.
Variable rt : runtime.

(** An invariant that only reads the transactions table survives whatever
    leaves that table alone. *)
Lemma preserves_generate_id : preserves nonneg_amounts (database.generate_id rt).
Proof. intros w r w' HI [= <- <-]. exact HI. Qed.

Lemma preserves_get_timestamp : preserves nonneg_amounts (database.get_timestamp rt).
Proof. intros w r w' HI [= <- <-]. exact HI. Qed.

Lemma preserves_datetime_utcnow : preserves nonneg_amounts (database.datetime_utcnow rt).
Proof. intros w r w' HI [= <- <-]. exact HI. Qed.

Lemma preserves_get_account user_id account_id :
  preserves nonneg_amounts (database.get_account rt user_id account_id).
Proof.
  intros w r w' HI H. unfold database.get_account, database.get_by_id, database.db_call in H.
  destruct (db_fault rt (db_calls w)); injection H as <- <-; exact HI.
Qed.

Lemma preserves_update_account pk sk (f : option account_item -> account_item) :
  preserves nonneg_amounts (database.update rt pk sk f).
Proof.
  intros w r w' HI H. unfold database.update, database.db_call in H.
  destruct (db_fault rt (db_calls w)); injection H as <- <-; exact HI.
Qed.

Lemma preserves_delete_txn pk sk :
  preserves nonneg_amounts (database.delete (V := txn_item) rt pk sk).
Proof.
  intros w r w' HI H. unfold database.delete, database.db_call in H.
  destruct (db_fault rt (db_calls w)); injection H as <- <-; [exact HI |].
  intros k item Hk. cbn in Hk. apply lookup_delete_Some in Hk as [_ Hk].
  eapply HI, Hk.
Qed.

Lemma preserves_put_nonneg (item : txn_item) :
  (0 ≤ t_amount item)%Qc -> preserves nonneg_amounts (database.put rt item).
Proof.
  intros Hitem w r w' HI H. unfold database.put, database.db_call in H.
  destruct (db_fault rt (db_calls w)); injection H as <- <-; [exact HI |].
  intros k x Hk. cbn in Hk. apply lookup_insert_Some in Hk as [[_ <-] | [_ Hk]].
  - exact Hitem.
  - eapply HI, Hk.
Qed.

(** Mapping and storing one record. *)
Lemma preserves_map_then_put plaid_txn user_id account_id {A} (k : M A) :
  preserves nonneg_amounts k ->
  preserves nonneg_amounts
    (txn_data <- sync_transactions.map_plaid_transaction rt plaid_txn user_id account_id ;;
     database.put rt txn_data ;;; k).
Proof.
  intros Hk w r w' HI H. unfold bind at 1 in H.
  destruct (map_plaid_transaction_returns rt plaid_txn user_id account_id w)
    as (item & Hrun & _ & _ & _ & _ & Hamount & _).
  rewrite Hrun in H.
  assert (Hitem : (0 ≤ t_amount item)%Qc) by (rewrite Hamount; apply Num_abs_nonneg).
  revert H. apply (preserves_bind nonneg_amounts);
    [apply preserves_put_nonneg, Hitem | intros _; exact Hk |].
  exact HI.
Qed.

Lemma preserves_sync_from_plaid token creds cursor count :
  preserves nonneg_amounts
    (sync_transactions.sync_transactions_from_plaid rt token creds cursor count).
Proof.
  intros w r w' HI H.
  destruct (sync_from_plaid_pure rt token creds cursor count w) as [r0 Hr0].
  rewrite Hr0 in H. injection H as <- <-. exact HI.
Qed.

Lemma preserves_get_plaid_credentials :
  preserves nonneg_amounts (sync_transactions.get_plaid_credentials rt).
Proof.
  intros w r w' HI H. destruct (get_plaid_credentials_pure rt w) as [r0 Hr0].
  rewrite Hr0 in H. injection H as <- <-. exact HI.
Qed.

Lemma preserves_get_transactions_legacy token creds s e ids :
  preserves nonneg_amounts
    (sync_transactions.get_transactions_legacy rt token creds s e ids).
Proof.
  unfold sync_transactions.get_transactions_legacy, sync_transactions.creds_key.
  repeat preserves_step.
Qed.

Lemma preserves_sync_handler_try ev :
  preserves nonneg_amounts (sync_transactions.handler_try rt ev).
Proof.
  unfold sync_transactions.handler_try.
  destruct (sync_transactions.ev_account_id ev) as [account_id |];
    [| apply preserves_ret].
  do 2 (preserves_step; [apply preserves_ret |]).
  preserves_step; [apply preserves_get_account |].
  repeat (preserves_step; try apply preserves_ret).
  - apply preserves_get_plaid_credentials.
  - unfold sync_transactions.effective_days. repeat preserves_step.
  - (* the incremental cycle *)
    unfold sync_transactions.sync_cycle, sync_transactions.process_page.
    preserves_step; [apply preserves_sync_from_plaid |].
    preserves_step.
    { preserves_step.
      { preserves_step. unfold sync_transactions.upsert_matching.
        preserves_step; [| apply preserves_ret].
        apply preserves_map_then_put, preserves_ret. }
      preserves_step.
      { preserves_step. unfold sync_transactions.upsert_matching.
        preserves_step; [| apply preserves_ret].
        apply preserves_map_then_put, preserves_ret. }
      preserves_step. unfold sync_transactions.delete_removed.
      repeat (preserves_step; try apply preserves_ret).
      apply preserves_delete_txn. }
    preserves_step; [apply preserves_get_timestamp |].
    preserves_step; [apply preserves_update_account | apply preserves_ret].
  - (* the legacy cycle *)
    unfold sync_transactions.legacy_range, timedelta_days, datetime_add.
    repeat (preserves_step; try apply preserves_datetime_utcnow).
  - unfold sync_transactions.legacy_cycle.
    preserves_step; [apply preserves_get_transactions_legacy |].
    preserves_step.
    { preserves_step. apply preserves_map_then_put, preserves_ret. }
    preserves_step; [apply preserves_get_timestamp |].
    preserves_step; [apply preserves_update_account | apply preserves_ret].
Qed.

Lemma sync_handler_nonneg ev w resp w' :
  nonneg_amounts w -> sync_transactions.handler rt ev w = (resp, w') ->
  nonneg_amounts w'.
Proof.
  intros HI H. unfold sync_transactions.handler in H.
  destruct (sync_transactions.handler_try rt ev w) as [[e | r] w1] eqn:Hrun;
    injection H as <- <-; eapply preserves_sync_handler_try; eassumption.
Qed.

Lemma synced_only_nonneg w : synced_only rt w -> nonneg_amounts w.
Proof.
  induction 1 as [w Hempty | w ev resp w' _ IH Hrun | w w' _ IH Hsame].
  - intros k item Hk. rewrite Hempty, lookup_empty in Hk. discriminate.
  - eapply sync_handler_nonneg; eassumption.
  - intros k item Hk. rewrite Hsame in Hk. eapply IH, Hk.
Qed.

End nonneg_facts.

Section no_expenses.
Variable rt : runtime.

Lemma fetched_nonneg user_id account_id limit offset w txns w' :
  nonneg_amounts w ->
  database.get_account_transactions rt user_id account_id limit offset w
    = (Returned txns, w') ->
  nonneg_amounts w' ∧ Forall nonneg txns.
Proof.
  intros HI H.
  destruct (get_account_transactions_stored rt _ _ _ _ _ _ _ H) as [Hsame Hin].
  split.
  - intros k item Hk. rewrite Hsame in Hk. eapply HI, Hk.
  - apply Forall_forall. intros x Hx. destruct (Hin x Hx) as [k Hk]. eapply HI, Hk.
Qed.

(** ** Spending by category *)

Lemma spending_tally_skips s e txns : ∀ cs cs',
  Forall nonneg txns ->
  get_spending_by_category.tally s e cs txns = Returned cs' -> cs' = cs.
Proof.
  induction txns as [| txn rest IH]; intros cs cs' Hall H.
  - injection H as <-. reflexivity.
  - apply Forall_cons in Hall as [Htxn Hrest]. rewrite tally_cons in H.
    destruct (t_date txn); [| discriminate].
    rewrite (proj2 (Num_geb_true _ _) Htxn) in H. apply (IH _ _ Hrest H).
Qed.

Lemma spending_collect_skips user_id s e accts : ∀ cs w cs' w',
  nonneg_amounts w ->
  get_spending_by_category.collect rt user_id s e cs accts w = (Returned cs', w') ->
  cs' = cs.
Proof.
  induction accts as [| account rest IH]; intros cs w cs' w' HI H.
  - injection H as <- <-. reflexivity.
  - cbn [get_spending_by_category.collect] in H. unfold bind at 1 in H.
    destruct (a_id account) as [account_id |]; [| eapply IH; eassumption].
    destruct (Str.is_empty account_id); [eapply IH; eassumption |].
    unfold bind at 1 in H.
    destruct (database.get_account_transactions rt user_id account_id 1000 0 w)
      as [[e0 | txns] w1] eqn:Hfetch; [discriminate |].
    destruct (fetched_nonneg _ _ _ _ _ _ _ HI Hfetch) as [HI1 Hall].
    unfold lift_reply in H.
    destruct (get_spending_by_category.tally s e cs txns) as [e0 | cs1] eqn:Htally;
      [discriminate |].
    apply (spending_tally_skips _ _ _ _ _ Hall) in Htally. subst cs1.
    eapply IH; eassumption.
Qed.

Lemma get_user_accounts_keeps user_id w accts w' :
  database.get_user_accounts rt user_id w = (Returned accts, w') ->
  transactions w' = transactions w.
Proof.
  unfold database.get_user_accounts, database.query_by_pk, database.db_call.
  destruct (db_fault rt (db_calls w)); [discriminate |]. intros [= _ <-]. reflexivity.
Qed.

Lemma spending_without_expenses ev w status body w' :
  nonneg_amounts w ->
  get_spending_by_category.handler rt ev w = (Body status body, w') ->
  body = get_spending_by_category.body_of [].
Proof.
  intros HI H. unfold get_spending_by_category.handler,
    get_spending_by_category.handler_try in H.
  repeat match type of H with
         | context [if ?c then ret _ else _] => destruct c; [discriminate H |]
         end.
  unfold bind at 1 in H.
  destruct (database.get_user_accounts rt _ w) as [[e | accts] w1] eqn:Hacc;
    [discriminate |].
  assert (HI1 : nonneg_amounts w1).
  { intros k item Hk. rewrite (get_user_accounts_keeps _ _ _ _ Hacc) in Hk.
    eapply HI, Hk. }
  unfold bind in H.
  destruct (get_spending_by_category.collect rt _ _ _ _ accts w1)
    as [[e | cs] w2] eqn:Hcollect; [discriminate |].
  apply (spending_collect_skips _ _ _ _ _ _ _ _ HI1) in Hcollect. subst cs.
  injection H as <- <- <-. reflexivity.
Qed.

(** ** Budget comparison *)

Lemma budget_tally_cons s e ca txn rest :
  get_budget_comparison.tally s e ca (txn :: rest) =
    match t_date txn with
    | None => Raised (TypeError "'NoneType' object is not subscriptable")
    | Some d =>
        if Num.geb (t_amount txn) 0 then get_budget_comparison.tally s e ca rest
        else if negb (in_month s e (Str.take 10 d))
        then get_budget_comparison.tally s e ca rest
        else get_budget_comparison.tally s e
               (Dict.upd 0%Qc (t_category_name txn)
                  (fun v => v + magnitude txn)%Qc ca) rest
    end.
Proof.
  cbn [get_budget_comparison.tally]. unfold date_prefix.
  destruct (t_date txn); reflexivity.
Qed.

Lemma budget_tally_skips s e txns : ∀ ca ca',
  Forall nonneg txns ->
  get_budget_comparison.tally s e ca txns = Returned ca' -> ca' = ca.
Proof.
  induction txns as [| txn rest IH]; intros ca ca' Hall H.
  - injection H as <-. reflexivity.
  - apply Forall_cons in Hall as [Htxn Hrest]. rewrite budget_tally_cons in H.
    destruct (t_date txn); [| discriminate].
    rewrite (proj2 (Num_geb_true _ _) Htxn) in H. apply (IH _ _ Hrest H).
Qed.

Lemma budget_collect_skips user_id s e accts : ∀ ca w ca' w',
  nonneg_amounts w ->
  get_budget_comparison.collect rt user_id s e ca accts w = (Returned ca', w') ->
  ca' = ca.
Proof.
  induction accts as [| account rest IH]; intros ca w ca' w' HI H.
  - injection H as <- <-. reflexivity.
  - cbn [get_budget_comparison.collect] in H. unfold bind at 1 in H.
    destruct (a_id account) as [account_id |]; [| eapply IH; eassumption].
    destruct (Str.is_empty account_id); [eapply IH; eassumption |].
    unfold bind at 1 in H.
    destruct (database.get_account_transactions rt user_id account_id 1000 0 w)
      as [[e0 | txns] w1] eqn:Hfetch; [discriminate |].
    destruct (fetched_nonneg _ _ _ _ _ _ _ HI Hfetch) as [HI1 Hall].
    unfold lift_reply in H.
    destruct (get_budget_comparison.tally s e ca txns) as [e0 | ca1] eqn:Htally;
      [discriminate |].
    apply (budget_tally_skips _ _ _ _ _ Hall) in Htally. subst ca1.
    eapply IH; eassumption.
Qed.

Lemma get_user_budget_keeps user_id month w r w' :
  get_budget_comparison.get_user_budget rt user_id month w = (r, w') ->
  transactions w' = transactions w.
Proof.
  unfold get_budget_comparison.get_user_budget, try_except, database.db_call.
  destruct (db_fault rt (db_calls w)); intros [= _ <-]; reflexivity.
Qed.

Lemma budget_without_expenses ev w status body w' :
  nonneg_amounts w ->
  get_budget_comparison.handler rt ev w = (Body status body, w') ->
  ∃ budget, body = get_budget_comparison.body_of budget [].
Proof.
  intros HI H. unfold get_budget_comparison.handler,
    get_budget_comparison.handler_try in H.
  repeat match type of H with
         | context [if ?c then ret _ else _] => destruct c; [discriminate H |]
         end.
  unfold bind at 1 in H.
  destruct (get_budget_comparison.get_user_budget rt _ _ w)
    as [[e | budget] w0] eqn:Hbudget; [discriminate |].
  pose proof (get_user_budget_keeps _ _ _ _ _ Hbudget) as Hsame0.
  unfold bind at 1, lift_reply in H.
  destruct (get_budget_comparison.month_range _) as [e | range]; [discriminate |].
  unfold bind at 1 in H.
  destruct (database.get_user_accounts rt _ w0) as [[e | accts] w1] eqn:Hacc;
    [discriminate |].
  assert (HI1 : nonneg_amounts w1).
  { intros k item Hk. rewrite (get_user_accounts_keeps _ _ _ _ Hacc), Hsame0 in Hk.
    eapply HI, Hk. }
  unfold bind in H.
  destruct (get_budget_comparison.collect rt _ _ _ _ accts w1)
    as [[e | ca] w2] eqn:Hcollect; [discriminate |].
  apply (budget_collect_skips _ _ _ _ _ _ _ _ HI1) in Hcollect. subst ca.
  injection H as <- <- <-. eauto.
Qed.

Lemma over_nothing (budgeted : Qc) : get_budget_comparison.over 0 budgeted = false.
Proof.
  unfold get_budget_comparison.over.
  destruct (Num.gtb budgeted 0) eqn:Hb; [| reflexivity].
  apply Num_gtb_true in Hb. unfold Num.gtb. apply bool_decide_eq_false_2.
  apply Qcle_not_lt, Qclt_le_weak, Hb.
Qed.

Lemma budget_body_without_actuals budget :
  let body := get_budget_comparison.body_of budget [] in
  get_budget_comparison.total_actual body = 0%Qc
  ∧ get_budget_comparison.total_is_over_budget body = false
  ∧ get_budget_comparison.percent_used body = 0%Qc
  ∧ Forall (fun row => get_budget_comparison.actual row = 0%Qc
                       ∧ get_budget_comparison.is_over_budget row = false)
           (get_budget_comparison.by_category body).
Proof.
  cbv zeta. unfold get_budget_comparison.body_of.
  cbn [get_budget_comparison.total_actual get_budget_comparison.total_is_over_budget
       get_budget_comparison.percent_used get_budget_comparison.by_category].
  change (Num.sum (Dict.values [])) with 0%Qc.
  split; [apply Num_round_zero |]. split; [apply over_nothing |]. split.
  { destruct (Num.gtb _ 0).
    - replace (0 / default 0 (budget ≫= b_total_budget))%Qc with 0%Qc
        by (unfold Qcdiv; ring).
      apply Num_round_zero.
    - apply Num_round_zero. }
  apply Forall_fmap, Forall_forall. intros name _. simpl. split.
  - apply Num_round_zero.
  - apply over_nothing.
Qed.

(** ** Cash flow *)

Lemma filter_range_sublist s e txns : ∀ kept,
  Forall nonneg txns ->
  get_cash_flow.filter_range s e txns = Returned kept -> Forall nonneg kept.
Proof.
  induction txns as [| txn rest IH]; intros kept Hall H.
  - injection H as <-. constructor.
  - apply Forall_cons in Hall as [Htxn Hrest]. cbn [get_cash_flow.filter_range] in H.
    destruct (date_prefix txn); [discriminate |].
    destruct (get_cash_flow.filter_range s e rest) as [e0 | kept0]; [discriminate |].
    injection H as <-. specialize (IH _ Hrest eq_refl).
    destruct (in_range _ _ _); [constructor; assumption | exact IH].
Qed.

Lemma cash_flow_collect_nonneg user_id s e accts : ∀ w txns w',
  nonneg_amounts w ->
  get_cash_flow.collect rt user_id s e accts w = (Returned txns, w') ->
  Forall nonneg txns.
Proof.
  induction accts as [| account rest IH]; intros w txns w' HI H.
  - injection H as <- <-. constructor.
  - cbn [get_cash_flow.collect] in H. unfold bind at 1 in H.
    assert (Hrest : ∀ mine w1, nonneg_amounts w1 -> Forall nonneg mine ->
              (others <- get_cash_flow.collect rt user_id s e rest ;;
               ret (mine ++ others)) w1 = (Returned txns, w') ->
              Forall nonneg txns).
    { intros mine w1 HI1 Hmine Hk. unfold bind in Hk.
      destruct (get_cash_flow.collect rt user_id s e rest w1)
        as [[e0 | others] w2] eqn:Hothers; [discriminate |].
      injection Hk as <- <-. apply Forall_app. split; [exact Hmine |].
      eapply IH; eassumption. }
    destruct (a_id account) as [account_id |];
      [| apply (Hrest [] w HI (Forall_nil_2 _) H)].
    destruct (Str.is_empty account_id); [apply (Hrest [] w HI (Forall_nil_2 _) H) |].
    unfold bind at 1 in H.
    destruct (database.get_account_transactions rt user_id account_id 1000 0 w)
      as [[e0 | fetched] w1] eqn:Hfetch; [discriminate |].
    destruct (fetched_nonneg _ _ _ _ _ _ _ HI Hfetch) as [HI1 Hall].
    unfold lift_reply in H.
    destruct (get_cash_flow.filter_range s e fetched) as [e0 | mine] eqn:Hfilter;
      [discriminate |].
    apply (Hrest mine w1 HI1 (filter_range_sublist _ _ _ _ Hall Hfilter) H).
Qed.

Lemma aggregate_without_outflows granularity txns inflows outflows :
  Forall nonneg txns ->
  get_cash_flow.aggregate_by_granularity rt txns granularity
    = Returned (inflows, outflows) ->
  outflows = [].
Proof.
  intros Hall H.
  destruct (aggregate_from_spec rt granularity txns [] [] inflows outflows H)
    as (_ & _ & _ & _ & _ & Hkeys & _).
  destruct outflows as [| [key v] rest]; [reflexivity |]. exfalso.
  destruct (proj1 (Hkeys key)) as [Hin | (t & Ht & Hlt & _)].
  - left.
  - by apply elem_of_nil in Hin.
  - rewrite Forall_forall in Hall. apply (Qclt_not_le _ _ Hlt), Hall, Ht.
Qed.

Lemma cash_flow_without_expenses ev w status body w' :
  nonneg_amounts w ->
  get_cash_flow.handler rt ev w = (Body status body, w') ->
  ∃ inflows, body = get_cash_flow.body_of inflows [].
Proof.
  intros HI H. unfold get_cash_flow.handler, get_cash_flow.handler_try in H.
  repeat match type of H with
         | context [if ?c then ret _ else _] => destruct c; [discriminate H |]
         end.
  unfold bind at 1 in H.
  destruct (database.get_user_accounts rt _ w) as [[e | accts] w1] eqn:Hacc;
    [discriminate |].
  assert (HI1 : nonneg_amounts w1).
  { intros k item Hk. rewrite (get_user_accounts_keeps _ _ _ _ Hacc) in Hk.
    eapply HI, Hk. }
  unfold bind at 1 in H.
  destruct (get_cash_flow.collect rt _ _ _ accts w1) as [[e | txns] w2] eqn:Hcollect;
    [discriminate |].
  pose proof (cash_flow_collect_nonneg _ _ _ _ _ _ _ HI1 Hcollect) as Hall.
  unfold bind, lift_reply in H.
  destruct (get_cash_flow.aggregate_by_granularity rt txns _)
    as [e | [inf out]] eqn:Hagg; [discriminate |].
  rewrite (aggregate_without_outflows _ _ _ _ Hall Hagg) in H.
  injection H as <- <- <-. eauto.
Qed.

Lemma cash_flow_body_without_outflows inflows :
  let body := get_cash_flow.body_of inflows [] in
  get_cash_flow.outflows body = []
  ∧ get_cash_flow.total_outflow body = 0%Qc
  ∧ get_cash_flow.net_flow body = get_cash_flow.total_inflow body.
Proof.
  cbv zeta. unfold get_cash_flow.body_of. cbn.
  split; [reflexivity |]. split; [apply Num_round_zero |].
  f_equal. unfold get_cash_flow.net_of.
  change (get_cash_flow.total_of []) with 0%Qc. ring.
Qed.

End no_expenses.

(** C9. Whatever the sync engine maps has a non-negative stored amount, so
    in a world whose transactions were written by the sync handler alone
    every stored amount is non-negative; the three rollups skip a
    transaction whose amount is not negative when they look for expenses;
    hence in such a world, whenever a rollup answers with a body: spending by
    category has no category and a total of 0, the budget comparison has an
    actual of 0 overall and in every category and nothing over budget, and
    the cash flow has no outflow bucket, a total outflow of 0 and a net flow
    equal to the total inflow. *)
Theorem C9_synced_amounts_are_never_expenses (rt : runtime) (w : world) :
  synced_only rt w ->
  (∀ k item, transactions w !! k = Some item -> (0 ≤ t_amount item)%Qc)
  ∧ (∀ start_date end_date category_spending txn rest,
       (0 ≤ t_amount txn)%Qc -> is_Some (t_date txn) ->
       get_spending_by_category.tally start_date end_date category_spending (txn :: rest)
       = get_spending_by_category.tally start_date end_date category_spending rest)
  ∧ (∀ start_date end_date category_actual txn rest,
       (0 ≤ t_amount txn)%Qc -> is_Some (t_date txn) ->
       get_budget_comparison.tally start_date end_date category_actual (txn :: rest)
       = get_budget_comparison.tally start_date end_date category_actual rest)
  ∧ (∀ ev status body w',
       get_spending_by_category.handler rt ev w = (Body status body, w') ->
       get_spending_by_category.categories body = []
       ∧ get_spending_by_category.total_spending body = 0%Qc)
  ∧ (∀ ev status body w',
       get_budget_comparison.handler rt ev w = (Body status body, w') ->
       get_budget_comparison.total_actual body = 0%Qc
       ∧ get_budget_comparison.total_is_over_budget body = false
       ∧ get_budget_comparison.percent_used body = 0%Qc
       ∧ Forall (fun row => get_budget_comparison.actual row = 0%Qc
                            ∧ get_budget_comparison.is_over_budget row = false)
                (get_budget_comparison.by_category body))
  ∧ (∀ ev status body w',
       get_cash_flow.handler rt ev w = (Body status body, w') ->
       get_cash_flow.outflows body = []
       ∧ get_cash_flow.total_outflow body = 0%Qc
       ∧ get_cash_flow.net_flow body = get_cash_flow.total_inflow body).
Proof.
  intros Hsynced. pose proof (synced_only_nonneg rt w Hsynced) as HI.
  split; [exact HI |]. split.
  { intros s e cs txn rest Hamount [d Hd]. rewrite tally_cons, Hd.
    rewrite (proj2 (Num_geb_true _ _) Hamount). reflexivity. }
  split.
  { intros s e ca txn rest Hamount [d Hd]. rewrite budget_tally_cons, Hd.
    rewrite (proj2 (Num_geb_true _ _) Hamount). reflexivity. }
  split.
  { intros ev status body w' H.
    rewrite (spending_without_expenses rt ev w status body w' HI H).
    split; [reflexivity | apply Num_round_zero]. }
  split.
  { intros ev status body w' H.
    destruct (budget_without_expenses rt ev w status body w' HI H) as [budget ->].
    apply budget_body_without_actuals. }
  intros ev status body w' H.
  destruct (cash_flow_without_expenses rt ev w status body w' HI H) as [inflows ->].
  apply cash_flow_body_without_outflows.
Qed.

Lemma C9_witness :
  match get_cash_flow.handler demo_two_sided_rt demo_cash_flow_event demo_synced_world with
  | (Body _ body, _) =>
      get_cash_flow.outflows body = []
      ∧ get_cash_flow.total_outflow body = 0%Qc
      ∧ get_cash_flow.net_flow body = get_cash_flow.total_inflow body
  | _ => False
  end.
Proof.
  assert (Hsynced : synced_only demo_two_sided_rt demo_synced_world).
  { apply (synced_sync demo_two_sided_rt Demo.world0 (Demo.sync_event None None)
             (sync_transactions.handler demo_two_sided_rt (Demo.sync_event None None)
                Demo.world0).1).
    - apply synced_none. reflexivity.
    - unfold demo_synced_world. apply surjective_pairing. }
  destruct (get_cash_flow.handler demo_two_sided_rt demo_cash_flow_event
              demo_synced_world) as [[status body | status code message] w'] eqn:Hrun.
  - destruct (C9_synced_amounts_are_never_expenses demo_two_sided_rt
                demo_synced_world Hsynced) as (_ & _ & _ & _ & _ & Hflow).
    apply (Hflow _ _ _ _ Hrun).
  - apply (f_equal fst) in Hrun. vm_compute in Hrun. discriminate Hrun.
Defined.

(** The branch at hand does not answer with a body. *)
Ltac exits H :=
  first [discriminate H | unfold ret, raise in H; simpl in H; discriminate H].

Section goal_facts.
Variable rt : runtime.

Lemma progress_of_positive_target current target :
  (0 < target)%Qc -> progress_of current target = (current / target)%Qc.
Proof.
  intros H. unfold progress_of. rewrite (proj2 (Num_gtb_true _ _) H). reflexivity.
Qed.

Lemma progress_of_no_target current target :
  (target ≤ 0)%Qc -> progress_of current target = 0%Qc.
Proof.
  intros H. unfold progress_of, Num.gtb.
  rewrite bool_decide_eq_false_2; [reflexivity | apply Qcle_not_lt, H].
Qed.

Lemma default_pick {A} (d : A) (new old : option A) :
  default (default d old) new = default d (pick new old).
Proof. destruct new; reflexivity. Qed.

(** [create_goal] stores the item it returns; without a ["progress"] key in
    [goal_data] the progress is computed from the amounts. *)
Lemma create_goal_stores user_id goal_data w goal w' :
  goal_repository.create_goal rt user_id goal_data w = (Returned goal, w') ->
  goals w' !! (g_pk goal, g_sk goal) = Some goal
  ∧ g_current_amount goal = gd_current_amount goal_data
  ∧ g_target_amount goal = gd_target_amount goal_data
  ∧ g_progress goal
    = Some (default (progress_of (default 0%Qc (gd_current_amount goal_data))
                                 (default 1%Qc (gd_target_amount goal_data)))
                    (gd_progress goal_data)).
Proof.
  unfold goal_repository.create_goal, bind, database.generate_id,
    database.get_timestamp, database.put, database.db_call.
  cbn [db_calls tick_uuid tick_clock].
  destruct (db_fault rt (db_calls w)); [discriminate |].
  intros [= <- <-]. cbn. split; [apply lookup_insert_eq | auto].
Qed.

(** [update_goal] on a stored goal, with an update that touches an amount. *)
Lemma update_goal_recomputes user_id goal_id updates w old goal w' :
  goals w !! goal_key user_id goal_id = Some old ->
  is_Some (u_current_amount updates) ∨ is_Some (u_target_amount updates) ->
  goal_repository.update_goal rt user_id goal_id updates w = (Returned goal, w') ->
  goals w' !! goal_key user_id goal_id = Some goal
  ∧ g_current_amount goal = pick (u_current_amount updates) (g_current_amount old)
  ∧ g_target_amount goal = pick (u_target_amount updates) (g_target_amount old)
  ∧ g_progress goal = Some (progress_from_amounts goal).
Proof.
  intros Hold Htouch H.
  unfold goal_repository.update_goal, bind at 1, database.get_timestamp in H.
  cbn [with_last_updated u_current_amount u_target_amount] in H.
  rewrite bool_decide_eq_true_2 in H by exact Htouch.
  unfold bind at 1, bind at 1, goal_repository.get_goal, database.get_by_id,
    database.db_call in H.
  cbn [db_calls tick_clock] in H.
  destruct (db_fault rt (db_calls w)); [cbn in H; discriminate H |].
  cbv beta iota in H.
  change (the_table (tick_db (tick_clock w))) with (goals w) in H.
  unfold goal_key in Hold. rewrite Hold in H. cbn [ret] in H.
  unfold database.update, database.db_call in H. cbn [db_calls tick_db] in H.
  destruct (db_fault rt (S _)); [cbn in H; discriminate H |].
  cbv beta iota in H.
  change (the_table (tick_db (tick_db (tick_clock w)))) with (goals w) in H.
  rewrite Hold in H. injection H as <- <-. cbn.
  split; [apply lookup_insert_eq |]. split; [reflexivity |]. split; [reflexivity |].
  unfold progress_from_amounts. cbn. rewrite !default_pick. reflexivity.
Qed.

Lemma create_handler_progress user_id body w status goal w' :
  create_goal.handler rt user_id body w = (Body status goal, w') ->
  ∃ current target,
    (0 < target)%Qc
    ∧ create_goal.target_amount body = Some target
    ∧ current = default 0%Qc (create_goal.current_amount body)
    ∧ goals w' !! (g_pk goal, g_sk goal) = Some goal
    ∧ g_current_amount goal = Some current
    ∧ g_target_amount goal = Some target
    ∧ g_progress goal = Some (current / target)%Qc.
Proof.
  unfold create_goal.handler, create_goal.handler_try. intros H.
  unfold bind at 1, create_goal.require_fields in H.
  destruct (create_goal.title body) as [title |];
    destruct (create_goal.target_amount body) as [target |];
    try (cbn in H; discriminate H).
  cbn [ret] in H. unfold default in H. cbn [from_option id] in H.
  destruct (Str.is_empty _); [exits H |].
  destruct (validate_amount target); [exits H |].
  destruct (validate_amount _); [exits H |].
  destruct (Num.leb target 0) eqn:Hle; [exits H |].
  destruct (_ && _); [exits H |].
  destruct (negb _); [exits H |].
  unfold bind in H.
  destruct (goal_repository.create_goal rt user_id _ w) as [[e | g] w1] eqn:Hcreate;
    [destruct e; exits H |].
  injection H as _ <- <-.
  destruct (create_goal_stores _ _ _ _ _ Hcreate) as (Hstored & Hc & Ht & Hp).
  cbn in Hc, Ht, Hp.
  assert (Hpos : (0 < target)%Qc).
  { unfold Num.leb in Hle. apply bool_decide_eq_false in Hle.
    apply Qcnot_le_lt, Hle. }
  exists (default 0%Qc (create_goal.current_amount body)), target.
  repeat split; try done.
  rewrite Hp. f_equal. apply progress_of_positive_target, Hpos.
Qed.

Lemma update_handler_progress user_id goal_id body w status goal w' :
  update_goal.handler rt user_id goal_id body w = (Body status goal, w') ->
  is_Some (update_goal.current_amount body) ∨ is_Some (update_goal.target_amount body) ->
  ∃ id old,
    goal_id = Some id
    ∧ goals w !! goal_key user_id id = Some old
    ∧ goals w' !! goal_key user_id id = Some goal
    ∧ g_current_amount goal
      = pick (update_goal.current_amount body) (g_current_amount old)
    ∧ g_target_amount goal
      = pick (update_goal.target_amount body) (g_target_amount old)
    ∧ g_progress goal = Some (progress_from_amounts goal).
Proof.
  unfold update_goal.handler, update_goal.handler_try. intros H Htouch.
  destruct goal_id as [id |]; [| exits H].
  destruct (Str.is_empty id); [exits H |].
  destruct (negb _); [exits H |].
  destruct (update_goal.is_empty body); [exits H |].
  unfold bind at 1, goal_repository.get_goal, database.get_by_id, database.db_call in H.
  destruct (db_fault rt (db_calls w)) eqn:Hfault; [destruct e; exits H |].
  change (the_table (tick_db w)) with (goals w) in H.
  destruct (goals w !! _) as [old |] eqn:Hold; [| exits H].
  destruct (update_goal.build_updates rt body) as [s updates | s c m] eqn:Hbuild;
    [| exits H].
  unfold bind in H.
  destruct (goal_repository.update_goal rt user_id id updates (tick_db w))
    as [[e | g] w1] eqn:Hupdate; [destruct e; exits H |].
  injection H as _ <- <-.
  assert (Hfields : u_current_amount updates = update_goal.current_amount body
                    ∧ u_target_amount updates = update_goal.target_amount body).
  { unfold update_goal.build_updates in Hbuild.
    repeat match type of Hbuild with
           | (if ?c then _ else _) = _ => destruct c; [discriminate Hbuild |]
           | match ?x with Some _ => _ | None => _ end = _ =>
               destruct x; [discriminate Hbuild |]
           end.
    injection Hbuild as _ <-. split; reflexivity. }
  destruct Hfields as [Hc Ht].
  destruct (update_goal_recomputes user_id id updates (tick_db w) old g w1)
    as (Hstored & Hcur & Htar & Hprog).
  - exact Hold.
  - rewrite Hc, Ht. exact Htouch.
  - exact Hupdate.
  - exists id, old. rewrite <- Hc, <- Ht. repeat split; done.
Qed.

Lemma contribute_handler_progress user_id goal_id body w status goal contribution w' :
  contribute_to_goal.handler rt user_id goal_id body w
    = (Body status (goal, contribution), w') ->
  ∃ id old amount,
    goal_id = Some id
    ∧ contribute_to_goal.amount body = Some amount
    ∧ goals w !! goal_key user_id id = Some old
    ∧ goals w' !! goal_key user_id id = Some goal
    ∧ g_current_amount goal = Some (default 0%Qc (g_current_amount old) + amount)%Qc
    ∧ g_target_amount goal = g_target_amount old
    ∧ g_progress goal = Some (progress_from_amounts goal).
Proof.
  unfold contribute_to_goal.handler, contribute_to_goal.handler_try. intros H.
  destruct goal_id as [id |]; [| exits H].
  destruct (Str.is_empty id); [exits H |].
  destruct (negb _); [exits H |].
  destruct (contribute_to_goal.amount body) as [amount |]; [| exits H].
  destruct (validate_amount amount); [exits H |].
  destruct (Num.leb amount 0); [exits H |].
  unfold bind at 1, goal_repository.get_goal, database.get_by_id, database.db_call in H.
  destruct (db_fault rt (db_calls w)) eqn:Hfault; [destruct e; exits H |].
  change (the_table (tick_db w)) with (goals w) in H.
  destruct (goals w !! _) as [old |] eqn:Hold; [| exits H].
  unfold bind at 1 in H.
  destruct (goal_repository.update_goal rt user_id id _ (tick_db w))
    as [[e | g] w1] eqn:Hupdate; [destruct e; exits H |].
  unfold bind, database.generate_id, database.get_timestamp in H. cbn [ret] in H.
  injection H as _ <- _ <-.
  eapply update_goal_recomputes in Hupdate as (Hstored & Hcur & Htar & Hprog);
    [| exact Hold | left; eexists; reflexivity].
  exists id, old, amount. repeat split; try done.
Qed.

End goal_facts.

Lemma progress_exceeds_one current target :
  (0 < target)%Qc -> (target < current)%Qc -> (1 < progress_of current target)%Qc.
Proof.
  intros Hpos Hlt. rewrite (progress_of_positive_target _ _ Hpos).
  assert (Hinv : (0 < / target)%Qc).
  { unfold Qclt. cbn [this Qcinv Q2Qc]. rewrite (Qred_correct (/ this target)).
    apply Qinv_lt_0_compat. exact Hpos. }
  assert (Hne : target ≠ 0%Qc).
  { intros ->. apply (Qclt_not_eq _ _ Hpos). reflexivity. }
  rewrite <- (Qcmult_inv_r target Hne). unfold Qcdiv.
  apply Qcmult_lt_compat_r; assumption.
Qed.

(** C5. A goal written by the create, update or contribute handler carries
    the progress computed from the amounts it is stored with: current over
    target when the target is positive, 0 otherwise, by the same formula in
    the three handlers, and without a bound, so that it exceeds 1 when the
    current amount exceeds the target.  An update is covered when it sets an
    amount; a contribution always raises the current amount. *)
Theorem C5_progress_follows_amounts (rt : runtime) :
  (∀ user_id body w status goal w',
     create_goal.handler rt user_id body w = (Body status goal, w') ->
     ∃ current target,
       (0 < target)%Qc
       ∧ goals w' !! (g_pk goal, g_sk goal) = Some goal
       ∧ g_current_amount goal = Some current
       ∧ g_target_amount goal = Some target
       ∧ g_progress goal = Some (current / target)%Qc
       ∧ g_progress goal = Some (progress_from_amounts goal))
  ∧ (∀ user_id goal_id body w status goal w',
       update_goal.handler rt user_id goal_id body w = (Body status goal, w') ->
       is_Some (update_goal.current_amount body)
       ∨ is_Some (update_goal.target_amount body) ->
       ∃ id old,
         goal_id = Some id
         ∧ goals w !! goal_key user_id id = Some old
         ∧ goals w' !! goal_key user_id id = Some goal
         ∧ g_current_amount goal
           = pick (update_goal.current_amount body) (g_current_amount old)
         ∧ g_target_amount goal
           = pick (update_goal.target_amount body) (g_target_amount old)
         ∧ g_progress goal = Some (progress_from_amounts goal))
  ∧ (∀ user_id goal_id body w status goal contribution w',
       contribute_to_goal.handler rt user_id goal_id body w
         = (Body status (goal, contribution), w') ->
       ∃ id old amount,
         goal_id = Some id
         ∧ contribute_to_goal.amount body = Some amount
         ∧ goals w !! goal_key user_id id = Some old
         ∧ goals w' !! goal_key user_id id = Some goal
         ∧ g_current_amount goal
           = Some (default 0%Qc (g_current_amount old) + amount)%Qc
         ∧ g_target_amount goal = g_target_amount old
         ∧ g_progress goal = Some (progress_from_amounts goal))
  ∧ (∀ goal current target,
       g_current_amount goal = Some current ->
       g_target_amount goal = Some target ->
       ((0 < target)%Qc -> progress_from_amounts goal = (current / target)%Qc)
       ∧ ((target ≤ 0)%Qc -> progress_from_amounts goal = 0%Qc)
       ∧ ((0 < target)%Qc -> (target < current)%Qc ->
          (1 < progress_from_amounts goal)%Qc)).
Proof.
  split; [| split; [| split]].
  - intros user_id body w status goal w' H.
    destruct (create_handler_progress rt _ _ _ _ _ _ H)
      as (current & target & Hpos & _ & _ & Hstored & Hc & Ht & Hp).
    exists current, target. repeat split; try done.
    rewrite Hp. unfold progress_from_amounts. rewrite Hc, Ht. cbn [default from_option id].
    f_equal. symmetry. apply progress_of_positive_target, Hpos.
  - apply update_handler_progress.
  - apply contribute_handler_progress.
  - intros goal current target Hc Ht. unfold progress_from_amounts.
    rewrite Hc, Ht. cbn [default from_option id]. split; [| split].
    + apply progress_of_positive_target.
    + apply progress_of_no_target.
    + apply progress_exceeds_one.
Qed.

Lemma C5_witness :
  match create_goal.handler Demo.plain_rt Demo.user demo_goal_body Demo.world0 with
  | (Body _ goal, _) =>
      g_progress goal = Some (Q2Qc 200 / Q2Qc 1000)%Qc
      ∧ g_progress goal = Some (progress_from_amounts goal)
  | _ => False
  end.
Proof.
  destruct (create_goal.handler Demo.plain_rt Demo.user demo_goal_body Demo.world0)
    as [[status goal | status code message] w'] eqn:Hrun.
  - destruct (C5_progress_follows_amounts Demo.plain_rt) as (Hcreate & _).
    destruct (Hcreate _ _ _ _ _ _ Hrun)
      as (current & target & _ & _ & Hc & Ht & Hp & Hsame).
    split; [| exact Hsame].
    apply (f_equal (fun r => match r with
                             | (Body _ g, _) => (g_current_amount g, g_target_amount g)
                             | _ => (None, None)
                             end)) in Hrun.
    rewrite Hc, Ht in Hrun. vm_compute in Hrun.
    injection Hrun as Hc' Ht'. rewrite Hp. f_equal. f_equal.
    + apply Qc_is_canon. rewrite <- Hc'. reflexivity.
    + apply Qc_is_canon. rewrite <- Ht'. reflexivity.
  - apply (f_equal fst) in Hrun. vm_compute in Hrun. discriminate Hrun.
Defined.

Section projection_properties.
Import get_savings_progress.

(** C6 as stated fails: for a goal that is past its target date, below its
    target and 60 days old, the projection returns the goal's target date,
    not a missing date; [on_track] is false and the monthly estimate is
    200 / 60 * 30 = 100, as the claim says. *)
Lemma C6_counterexample :
  match calculate_projected_completion Demo.plain_rt demo_overdue_goal Demo.world0 with
  | (Returned (projected_date, on_track, monthly), _) =>
      projected_date = Some "2024-03-01"
      ∧ projected_date ≠ None
      ∧ on_track = false
      ∧ this monthly = (100 # 1)%Q
  | _ => False
  end.
Proof.
  vm_compute. split; [reflexivity |]. split; [discriminate |].
  split; reflexivity.
Qed.

(** C6, amended.  For a goal with a positive target amount whose target date
    has passed (days remaining at most 0), whose current amount is below the
    target and whose creation lies at least one whole day back, the
    projection returns the goal's own target date as the projected date,
    [on_track = false] and a monthly estimate of [daily_rate * 30] with
    [daily_rate = current_amount / days_elapsed]; it reads the clock once. *)
Theorem C6_overdue_goal_projection (rt : runtime) (goal : goal_item) (w : world)
    (target_date : string) (target created : Z) (aware : bool) :
  g_target_date goal = Some target_date ->
  Str.is_empty target_date = false ->
  let current_amount := default 0%Qc (g_current_amount goal) in
  let target_amount := default 0%Qc (g_target_amount goal) in
  let now := utcnow rt (clock_reads w) in
  let days_elapsed := days_of (now - created) in
  let daily_rate := (current_amount / Num.of_Z days_elapsed)%Qc in
  (0 < target_amount)%Qc ->
  strptime_ymd rt target_date = Some target ->
  fromisoformat rt (replace_Z (default EmptyString (g_created_at goal))) = Some (created, aware) ->
  (current_amount < target_amount)%Qc ->
  0 < days_elapsed ->
  days_of (target - now) ≤ 0 ->
  calculate_projected_completion rt goal w
  = (Returned (Some target_date, false, (daily_rate * Num.of_Z 30)%Qc), tick_clock w).
Proof.
  intros Hdate Hne current_amount target_amount now days_elapsed daily_rate
    Hpos Htarget Hcreated Hbelow Helapsed Hpassed.
  unfold calculate_projected_completion. rewrite Hdate, Hne.
  fold target_amount current_amount.
  assert (Hleb : Num.leb target_amount 0 = false).
  { unfold Num.leb. apply bool_decide_eq_false_2, Qclt_not_le, Hpos. }
  rewrite Hleb. cbn [orb]. rewrite Htarget, Hcreated.
  unfold bind, database.datetime_utcnow. fold now.
  assert (Hremaining : Num.leb (target_amount - current_amount) 0 = false).
  { unfold Num.leb. apply bool_decide_eq_false_2, Qclt_not_le.
    unfold Qclt, Qcminus, Qcplus, Qcopp in *. cbn [this Q2Qc] in *.
    rewrite !Qred_correct. change (this (Q2Qc 0)) with 0%Q in *.
    revert Hbelow. generalize (this target_amount), (this current_amount).
    intros a b Hab. lra. }
  rewrite Hremaining. fold days_elapsed.
  rewrite (proj2 (Z.leb_gt _ _) Helapsed), (proj2 (Z.leb_le _ _) Hpassed).
  reflexivity.
Qed.

Lemma C6_witness :
  calculate_projected_completion Demo.plain_rt demo_overdue_goal Demo.world0
  = (Returned (Some "2024-03-01", false,
               (Q2Qc 200 / Num.of_Z 60 * Num.of_Z 30)%Qc),
     tick_clock Demo.world0).
Proof.
  apply (C6_overdue_goal_projection Demo.plain_rt demo_overdue_goal Demo.world0
           "2024-03-01" (Calendar.days_from_civil 2024 3 1 * usec_per_day)
           (Calendar.days_from_civil 2024 1 15 * usec_per_day) true).
  - reflexivity.
  - reflexivity.
  - reflexivity.
  - reflexivity.
  - reflexivity.
  - reflexivity.
  - reflexivity.
  - vm_compute. discriminate.
Defined.

End projection_properties.

(* ===================================================================== *)
(** * Request validation *)
(* ===================================================================== *)










Section sync_reach_properties.
Import sync_transactions.

(* ===================================================================== *)
(** * What a sync invocation can reach *)
(* ===================================================================== *)

Section confined_facts.
Variable rt : runtime.
Variables (account_pk : string) (key : string * string) (w0 : world).

Local Abbreviation I := (confined account_pk key w0).

Lemma confined_refl w : confined account_pk key w w.
Proof. repeat split. Qed.

Lemma confined_same_tables w w' :
  accounts w' = accounts w -> transactions w' = transactions w ->
  goals w' = goals w -> budgets w' = budgets w -> I w -> I w'.
Proof.
  intros Ha Ht Hg Hb (H1 & H2 & H3 & H4). unfold confined.
  rewrite Ha, Ht, Hg, Hb. auto.
Qed.

Lemma confined_generate_id : preserves I (database.generate_id rt).
Proof. intros w r w' HI [= <- <-]. exact HI. Qed.

Lemma confined_get_timestamp : preserves I (database.get_timestamp rt).
Proof. intros w r w' HI [= <- <-]. exact HI. Qed.

Lemma confined_datetime_utcnow : preserves I (database.datetime_utcnow rt).
Proof. intros w r w' HI [= <- <-]. exact HI. Qed.

Lemma confined_get_account user_id account_id :
  preserves I (database.get_account rt user_id account_id).
Proof.
  intros w r w' HI H. unfold database.get_account, database.get_by_id, database.db_call in H.
  destruct (db_fault rt (db_calls w)); injection H as <- <-; exact HI.
Qed.

Lemma confined_update_account (f : option account_item -> account_item) :
  preserves I (database.update rt key.1 key.2 f).
Proof.
  intros w r w' HI H. unfold database.update, database.db_call in H.
  destruct (db_fault rt (db_calls w)); injection H as <- <-; [exact HI |].
  destruct HI as (H1 & H2 & H3 & H4). repeat split; try assumption.
  intros k Hk. cbn. rewrite lookup_insert_ne; [apply H3, Hk |].
  destruct key; simpl. congruence.
Qed.

Lemma confined_delete_txn sk :
  preserves I (database.delete (V := txn_item) rt account_pk sk).
Proof.
  intros w r w' HI H. unfold database.delete, database.db_call in H.
  destruct (db_fault rt (db_calls w)); injection H as <- <-; [exact HI |].
  destruct HI as (H1 & H2 & H3 & H4). repeat split; try assumption.
  intros k Hk. cbn. rewrite lookup_delete_ne; [apply H4, Hk |].
  intros <-. apply Hk. reflexivity.
Qed.

Lemma confined_put_txn (item : txn_item) :
  t_pk item = account_pk -> preserves I (database.put rt item).
Proof.
  intros Hpk w r w' HI H. unfold database.put, database.db_call in H.
  destruct (db_fault rt (db_calls w)); injection H as <- <-; [exact HI |].
  destruct HI as (H1 & H2 & H3 & H4). repeat split; try assumption.
  intros k Hk. cbn. rewrite lookup_insert_ne; [apply H4, Hk |].
  intros <-. apply Hk. exact Hpk.
Qed.

Lemma confined_map_then_put plaid_txn user_id account_id {A} (k : M A) :
  account_pk = "ACCOUNT#" +:+ account_id ->
  preserves I k ->
  preserves I
    (txn_data <- map_plaid_transaction rt plaid_txn user_id account_id ;;
     database.put rt txn_data ;;; k).
Proof.
  intros Hpk Hk w r w' HI H. unfold bind at 1 in H.
  destruct (map_plaid_transaction_returns rt plaid_txn user_id account_id w)
    as (item & Hrun & Hitem & _).
  rewrite Hrun in H.
  revert H. apply (preserves_bind I);
    [apply confined_put_txn; congruence | intros _; exact Hk |].
  exact HI.
Qed.

Lemma confined_sync_from_plaid token creds cursor count :
  preserves I (sync_transactions_from_plaid rt token creds cursor count).
Proof.
  intros w r w' HI H.
  destruct (sync_from_plaid_pure rt token creds cursor count w) as [r0 Hr0].
  rewrite Hr0 in H. injection H as <- <-. exact HI.
Qed.

Lemma confined_get_plaid_credentials : preserves I (get_plaid_credentials rt).
Proof.
  intros w r w' HI H. destruct (get_plaid_credentials_pure rt w) as [r0 Hr0].
  rewrite Hr0 in H. injection H as <- <-. exact HI.
Qed.

Lemma confined_get_transactions_legacy token creds s e ids :
  preserves I (get_transactions_legacy rt token creds s e ids).
Proof.
  unfold get_transactions_legacy, creds_key. repeat preserves_step.
Qed.

End confined_facts.

Lemma confined_handler_try rt ev w0 :
  preserves (confined ("ACCOUNT#" +:+ default EmptyString (ev_account_id ev))
                      (account_key (ev_user_id ev) (default EmptyString (ev_account_id ev))) w0)
            (handler_try rt ev).
Proof.
  unfold handler_try.
  destruct (ev_account_id ev) as [account_id |]; [| apply preserves_ret].
  cbn [default from_option id].
  do 2 (preserves_step; [apply preserves_ret |]).
  preserves_step; [apply confined_get_account |].
  repeat (preserves_step; try apply preserves_ret).
  - apply confined_get_plaid_credentials.
  - unfold effective_days. repeat preserves_step.
  - unfold sync_cycle, process_page.
    preserves_step; [apply confined_sync_from_plaid |].
    preserves_step.
    { preserves_step.
      { preserves_step. unfold upsert_matching.
        preserves_step; [| apply preserves_ret].
        apply confined_map_then_put; [reflexivity | apply preserves_ret]. }
      preserves_step.
      { preserves_step. unfold upsert_matching.
        preserves_step; [| apply preserves_ret].
        apply confined_map_then_put; [reflexivity | apply preserves_ret]. }
      preserves_step. unfold delete_removed.
      repeat (preserves_step; try apply preserves_ret).
      apply confined_delete_txn. }
    preserves_step; [apply confined_get_timestamp |].
    preserves_step; [| apply preserves_ret].
    apply (confined_update_account rt _ (account_key (ev_user_id ev) account_id)).
  - unfold legacy_range, timedelta_days, datetime_add.
    repeat (preserves_step; try apply confined_datetime_utcnow).
  - unfold legacy_cycle.
    preserves_step; [apply confined_get_transactions_legacy |].
    preserves_step.
    { preserves_step. apply confined_map_then_put; [reflexivity | apply preserves_ret]. }
    preserves_step; [apply confined_get_timestamp |].
    preserves_step; [| apply preserves_ret].
    apply (confined_update_account rt _ (account_key (ev_user_id ev) account_id)).
Qed.

(** X2. Whatever the request, the mode and the outcome, a sync
    invocation for an account changes nothing but the account's own item
    and the transactions in the account's own partition: every other
    account item, the transactions of every other account, the goals and
    the budgets are afterwards what they were before. *)
Theorem sync_is_confined_to_its_account (rt : runtime) (ev : event) (w : world) :
  let account_id := default EmptyString (ev_account_id ev) in
  confined ("ACCOUNT#" +:+ account_id) (account_key (ev_user_id ev) account_id)
           w (handler rt ev w).2.
Proof.
  intros account_id. unfold handler.
  destruct (handler_try rt ev w) as [[e | r] w1] eqn:Hrun; simpl;
    eapply confined_handler_try; try exact Hrun; apply confined_refl.
Qed.

(* ===================================================================== *)
(** * What a page leaves behind *)
(* ===================================================================== *)

Section page_facts.
Variable rt : runtime.

Lemma is_empty_false s : Str.is_empty s = false <-> s ≠ EmptyString.
Proof. destruct s; simpl; split; congruence. Qed.

Lemma same_account_matching p account :
  same_account p account = true <-> matching account p.
Proof. unfold same_account, matching. apply bool_decide_eq_true. Qed.

(** The counters after the loop over [added] or [modified]. *)
Lemma upsert_loop_counts account user_id account_id bump xs : ∀ st w st' w',
  for_fold xs (upsert_matching rt account user_id account_id bump) st w
    = (Returned st', w') ->
  st' = Nat.iter (length (filter (matching account) xs)) bump st.
Proof.
  induction xs as [| x xs IH]; intros st w st' w' H; simpl in H.
  - injection H as <- <-. reflexivity.
  - unfold bind at 1 in H.
    destruct (upsert_matching rt account user_id account_id bump st x w)
      as [[e | st1] w1] eqn:Hx; [discriminate |].
    apply IH in H. rewrite H. unfold upsert_matching in Hx.
    rewrite filter_cons.
    destruct (same_account x account) eqn:Hsame.
    + apply same_account_matching in Hsame. rewrite decide_True by exact Hsame.
      unfold bind in Hx.
      destruct (map_plaid_transaction rt x user_id account_id w) as [[e | item] w2];
        [discriminate |].
      destruct (database.put rt item w2) as [[e | item'] w3]; [discriminate |].
      injection Hx as <- <-. cbn [length]. rewrite Nat.iter_succ_r. reflexivity.
    + injection Hx as <- <-. rewrite decide_False; [reflexivity |].
      intros Hm. apply same_account_matching in Hm. congruence.
Qed.

Lemma removable_iff r :
  removable r <->
  match r_transaction_id r with
  | Some id => Str.is_empty id = false
  | None => False
  end.
Proof.
  unfold removable. destruct (r_transaction_id r) as [id |].
  - rewrite is_empty_false. split.
    + intros (id' & [= <-] & H). exact H.
    + intros H. exists id. split; [reflexivity | exact H].
  - split; [intros (id & [=] & _) | intros []].
Qed.

Lemma removal_loop_counts account_id xs : ∀ st w st' w',
  for_fold xs (delete_removed rt account_id) st w = (Returned st', w') ->
  st' = Nat.iter (length (filter removable xs)) incr_removed st.
Proof.
  induction xs as [| x xs IH]; intros st w st' w' H; simpl in H.
  - injection H as <- <-. reflexivity.
  - unfold bind at 1 in H.
    destruct (delete_removed rt account_id st x w) as [[e | st1] w1] eqn:Hx;
      [discriminate |].
    apply IH in H. rewrite H. unfold delete_removed in Hx.
    rewrite filter_cons. pose proof (removable_iff x) as Hiff.
    destruct (r_transaction_id x) as [id |].
    + destruct (Str.is_empty id) eqn:Hid.
      * injection Hx as <- <-. rewrite decide_False; [reflexivity |].
        intros Hr. apply Hiff in Hr. discriminate.
      * rewrite decide_True by (apply Hiff; reflexivity).
        unfold bind in Hx.
        destruct (database.delete rt _ _ w) as [[e | b] w2]; [discriminate |].
        injection Hx as <- <-. cbn [length]. rewrite Nat.iter_succ_r. reflexivity.
    + injection Hx as <- <-. rewrite decide_False; [reflexivity |].
      intros Hr. apply Hiff in Hr. exact Hr.
Qed.

Lemma iter_incr_added n st :
  Nat.iter n incr_added st =
    {| st_added := n + st_added st; st_modified := st_modified st;
       st_removed := st_removed st; st_has_more := st_has_more st;
       st_cursor := st_cursor st |}.
Proof.
  induction n as [| n IH]; simpl; [destruct st; reflexivity |].
  rewrite IH. reflexivity.
Qed.

Lemma iter_incr_modified n st :
  Nat.iter n incr_modified st =
    {| st_added := st_added st; st_modified := n + st_modified st;
       st_removed := st_removed st; st_has_more := st_has_more st;
       st_cursor := st_cursor st |}.
Proof.
  induction n as [| n IH]; simpl; [destruct st; reflexivity |].
  rewrite IH. reflexivity.
Qed.

Lemma iter_incr_removed n st :
  Nat.iter n incr_removed st =
    {| st_added := st_added st; st_modified := st_modified st;
       st_removed := n + st_removed st; st_has_more := st_has_more st;
       st_cursor := st_cursor st |}.
Proof.
  induction n as [| n IH]; simpl; [destruct st; reflexivity |].
  rewrite IH. reflexivity.
Qed.

Lemma process_page_counts account user_id account_id page w st w' :
  process_page rt account user_id account_id page stats0 w = (Returned st, w') ->
  st = {| st_added := length (filter (matching account) (default [] (sr_added page)));
          st_modified := length (filter (matching account) (default [] (sr_modified page)));
          st_removed := length (filter removable (default [] (sr_removed page)));
          st_has_more := false; st_cursor := None |}.
Proof.
  unfold process_page. intros H. unfold bind at 1 in H.
  destruct (for_fold (default [] (sr_added page)) _ stats0 w) as [[e | st1] w1] eqn:H1;
    [discriminate |].
  unfold bind at 1 in H.
  destruct (for_fold (default [] (sr_modified page)) _ st1 w1) as [[e | st2] w2] eqn:H2;
    [discriminate |].
  apply upsert_loop_counts in H1. apply upsert_loop_counts in H2.
  apply removal_loop_counts in H.
  rewrite H, H2, H1, iter_incr_removed, iter_incr_modified, iter_incr_added.
  cbn. rewrite !Nat.add_0_r. reflexivity.
Qed.

End page_facts.

(** X3. The figures of a 200 in incremental mode: there is a page
    the aggregator returned and the account item read at the start such
    that [added] and [modified] count the records of the page's two lists
    whose external account id is the account's, [removed] counts the
    removals that carry a non-empty id, whether or not anything was stored
    under it, [synced] is the sum of the first two, and [has_more] and
    [cursor] are the page's, [has_more] being false when the page has
    none. *)
Theorem incremental_sync_counts (rt : runtime) (ev : event) (w w' : world)
    (body : sync_body) :
  use_sync_of ev = true ->
  handler rt ev w = (Body 200 body, w') ->
  ∃ account_id account page request,
    ev_account_id ev = Some account_id
    ∧ accounts w !! account_key (ev_user_id ev) account_id = Some account
    ∧ transactions_sync rt request = Returned page
    ∧ added body = length (filter (matching account) (default [] (sr_added page)))
    ∧ modified body = length (filter (matching account) (default [] (sr_modified page)))
    ∧ removed body = length (filter removable (default [] (sr_removed page)))
    ∧ synced body = (added body + modified body)%nat
    ∧ has_more body = default false (sr_has_more page)
    ∧ cursor body = sr_next_cursor page.
Proof.
  intros Hsync Hrun.
  destruct (handler_incremental_cases rt ev w _ w' Hsync Hrun)
    as [(Hne & _) | (account_id & account & token & creds & Hid & _ & Hacc & _ & _ & Hans)].
  { exfalso. apply Hne. reflexivity. }
  destruct (sync_cycle rt account (ev_user_id ev) account_id token creds stats0 (tick_db w))
    as [[e | st] w1] eqn:Hcycle; simpl in Hans; [discriminate Hans |].
  injection Hans as -> ->.
  destruct (sync_cycle_cases rt _ _ _ _ _ _ _ _ _ Hcycle)
    as [(e & [=] & _) | (page & st3 & wp & Hfetch & Hpage & _ & _ & [= ->] & _)].
  destruct (sync_from_plaid_returned rt _ _ _ _ _ _ _ Hfetch) as [request Hreq].
  apply process_page_counts in Hpage. subst st3.
  exists account_id, account, page, request.
  repeat split; try done.
Qed.

Lemma incremental_sync_counts_witness :
  match handler demo_rt_with_id (Demo.sync_event None None) Demo.world0 with
  | (Body _ body, _) =>
      added body = 1%nat ∧ modified body = 0%nat ∧ removed body = 0%nat
      ∧ synced body = 1%nat
  | _ => False
  end.
Proof.
  destruct (handler demo_rt_with_id (Demo.sync_event None None) Demo.world0)
    as [[status body | status code message] w'] eqn:Hrun.
  - assert (Hstatus : status = 200).
    { apply (f_equal (fun x => status_of x.1)) in Hrun. vm_compute in Hrun. congruence. }
    subst status.
    destruct (incremental_sync_counts demo_rt_with_id (Demo.sync_event None None)
                Demo.world0 w' body eq_refl Hrun)
      as (account_id & account & page & request & Hid & Hacc & Hreq
          & Ha & Hm & Hr & Hs & _).
    injection Hid as <-. injection Hreq as <-.
    vm_compute in Hacc. injection Hacc as <-.
    rewrite Hs, Ha, Hm, Hr. vm_compute. auto.
  - apply (f_equal fst) in Hrun. vm_compute in Hrun. discriminate Hrun.
Defined.

(* ===================================================================== *)
(** * Removals and upserts of one page *)
(* ===================================================================== *)

Section removal_facts.
Variable rt : runtime.

(** A removal never stores anything. *)
Lemma delete_removed_keeps_absent account_id st r w st' w' k :
  delete_removed rt account_id st r w = (Returned st', w') ->
  transactions w !! k = None -> transactions w' !! k = None.
Proof.
  unfold delete_removed. intros H Hk.
  destruct (r_transaction_id r) as [id |]; [| injection H as <- <-; exact Hk].
  destruct (Str.is_empty id); [injection H as <- <-; exact Hk |].
  unfold bind, database.delete, database.db_call in H.
  destruct (db_fault rt (db_calls w)); [discriminate |].
  injection H as <- <-. cbn. apply lookup_delete_None. right. exact Hk.
Qed.

Lemma delete_removed_deletes account_id st r w st' w' id :
  delete_removed rt account_id st r w = (Returned st', w') ->
  r_transaction_id r = Some id -> id ≠ EmptyString ->
  transactions w' !! txn_key account_id id = None.
Proof.
  unfold delete_removed. intros H Hid Hne. rewrite Hid in H.
  rewrite (proj2 (is_empty_false id) Hne) in H.
  unfold bind, database.delete, database.db_call in H.
  destruct (db_fault rt (db_calls w)); [discriminate |].
  injection H as <- <-. cbn. apply lookup_delete_eq.
Qed.

Lemma removal_loop_absent account_id xs : ∀ st w st' w' k,
  for_fold xs (delete_removed rt account_id) st w = (Returned st', w') ->
  transactions w !! k = None -> transactions w' !! k = None.
Proof.
  induction xs as [| x xs IH]; intros st w st' w' k H Hk; simpl in H.
  - injection H as <- <-. exact Hk.
  - unfold bind at 1 in H.
    destruct (delete_removed rt account_id st x w) as [[e | st1] w1] eqn:Hx;
      [discriminate |].
    eapply IH; [exact H |]. eapply delete_removed_keeps_absent; eassumption.
Qed.

Lemma removal_loop_deletes account_id xs : ∀ st w st' w' r id,
  for_fold xs (delete_removed rt account_id) st w = (Returned st', w') ->
  r ∈ xs -> r_transaction_id r = Some id -> id ≠ EmptyString ->
  transactions w' !! txn_key account_id id = None.
Proof.
  induction xs as [| x xs IH]; intros st w st' w' r id H Hin Hid Hne; simpl in H.
  - apply elem_of_nil in Hin. contradiction.
  - unfold bind at 1 in H.
    destruct (delete_removed rt account_id st x w) as [[e | st1] w1] eqn:Hx;
      [discriminate |].
    apply elem_of_cons in Hin as [-> | Hin].
    + eapply removal_loop_absent; [exact H |].
      eapply delete_removed_deletes; eassumption.
    + eapply IH; eassumption.
Qed.

(** A removal of other ids leaves a stored key in place. *)
Lemma delete_removed_keeps_present account_id st r w st' w' id :
  delete_removed rt account_id st r w = (Returned st', w') ->
  r_transaction_id r ≠ Some id ->
  is_Some (transactions w !! txn_key account_id id) ->
  is_Some (transactions w' !! txn_key account_id id).
Proof.
  unfold delete_removed. intros H Hother Hk.
  destruct (r_transaction_id r) as [id' |]; [| injection H as <- <-; exact Hk].
  destruct (Str.is_empty id'); [injection H as <- <-; exact Hk |].
  unfold bind, database.delete, database.db_call in H.
  destruct (db_fault rt (db_calls w)); [discriminate |].
  injection H as <- <-. cbn. rewrite lookup_delete_ne; [exact Hk |].
  unfold txn_key. intros Heq. apply (f_equal snd) in Heq. cbn [snd] in Heq.
  apply key_of_id_inj in Heq. congruence.
Qed.

Lemma removal_loop_keeps_present account_id xs : ∀ st w st' w' id,
  for_fold xs (delete_removed rt account_id) st w = (Returned st', w') ->
  (∀ r, r ∈ xs -> r_transaction_id r ≠ Some id) ->
  is_Some (transactions w !! txn_key account_id id) ->
  is_Some (transactions w' !! txn_key account_id id).
Proof.
  induction xs as [| x xs IH]; intros st w st' w' id H Hother Hk; simpl in H.
  - injection H as <- <-. exact Hk.
  - unfold bind at 1 in H.
    destruct (delete_removed rt account_id st x w) as [[e | st1] w1] eqn:Hx;
      [discriminate |].
    eapply IH; [exact H | |].
    + intros r Hr. apply Hother. right. exact Hr.
    + eapply delete_removed_keeps_present; [exact Hx | | exact Hk].
      apply Hother. left.
Qed.

(** An upsert never deletes; an upsert of a matching record with an id
    stores under that id's key. *)
Lemma upsert_keeps_present account user_id account_id bump st p w st' w' k :
  upsert_matching rt account user_id account_id bump st p w = (Returned st', w') ->
  is_Some (transactions w !! k) -> is_Some (transactions w' !! k).
Proof.
  unfold upsert_matching. intros H Hk.
  destruct (same_account p account); [| injection H as <- <-; exact Hk].
  unfold bind at 1 in H.
  destruct (map_plaid_transaction_returns rt p user_id account_id w)
    as (item & Hrun & _).
  rewrite Hrun in H. unfold bind, database.put, database.db_call in H.
  destruct (db_fault rt (db_calls (after_map w))); [discriminate |].
  injection H as <- <-. cbn.
  destruct (decide ((t_pk item, t_sk item) = k)) as [<- | Hne].
  - rewrite lookup_insert_eq. eexists. reflexivity.
  - rewrite lookup_insert_ne by exact Hne. exact Hk.
Qed.

Lemma upsert_stores account user_id account_id bump st p w st' w' id :
  upsert_matching rt account user_id account_id bump st p w = (Returned st', w') ->
  matching account p -> p_transaction_id p = Some id ->
  is_Some (transactions w' !! txn_key account_id id).
Proof.
  unfold upsert_matching. intros H Hm Hid.
  rewrite (proj2 (same_account_matching p account) Hm) in H.
  unfold bind at 1 in H.
  destruct (map_plaid_transaction_returns rt p user_id account_id w)
    as (item & Hrun & Hpk & Hsk & _).
  rewrite Hrun in H. unfold bind, database.put, database.db_call in H.
  destruct (db_fault rt (db_calls (after_map w))); [discriminate |].
  injection H as <- <-. cbn. rewrite Hpk, Hsk, Hid. cbn.
  unfold txn_key. rewrite lookup_insert_eq. eexists. reflexivity.
Qed.

Lemma upsert_loop_keeps_present account user_id account_id bump xs : ∀ st w st' w' k,
  for_fold xs (upsert_matching rt account user_id account_id bump) st w
    = (Returned st', w') ->
  is_Some (transactions w !! k) -> is_Some (transactions w' !! k).
Proof.
  induction xs as [| x xs IH]; intros st w st' w' k H Hk; simpl in H.
  - injection H as <- <-. exact Hk.
  - unfold bind at 1 in H.
    destruct (upsert_matching rt account user_id account_id bump st x w)
      as [[e | st1] w1] eqn:Hx; [discriminate |].
    eapply IH; [exact H |]. eapply upsert_keeps_present; eassumption.
Qed.

Lemma upsert_loop_stores account user_id account_id bump xs : ∀ st w st' w' p id,
  for_fold xs (upsert_matching rt account user_id account_id bump) st w
    = (Returned st', w') ->
  p ∈ xs -> matching account p -> p_transaction_id p = Some id ->
  is_Some (transactions w' !! txn_key account_id id).
Proof.
  induction xs as [| x xs IH]; intros st w st' w' p id H Hin Hm Hid; simpl in H.
  - apply elem_of_nil in Hin. contradiction.
  - unfold bind at 1 in H.
    destruct (upsert_matching rt account user_id account_id bump st x w)
      as [[e | st1] w1] eqn:Hx; [discriminate |].
    apply elem_of_cons in Hin as [-> | Hin].
    + eapply upsert_loop_keeps_present; [exact H |].
      eapply upsert_stores; eassumption.
    + eapply IH; eassumption.
Qed.

Lemma process_page_outcome account user_id account_id page st w st' w' :
  process_page rt account user_id account_id page st w = (Returned st', w') ->
  (∀ r id, r ∈ default [] (sr_removed page) ->
     r_transaction_id r = Some id -> id ≠ EmptyString ->
     transactions w' !! txn_key account_id id = None)
  ∧ (∀ p id, p ∈ default [] (sr_added page) ++ default [] (sr_modified page) ->
       matching account p -> p_transaction_id p = Some id ->
       (∀ r, r ∈ default [] (sr_removed page) -> r_transaction_id r ≠ Some id) ->
       is_Some (transactions w' !! txn_key account_id id)).
Proof.
  unfold process_page. intros H. unfold bind at 1 in H.
  destruct (for_fold (default [] (sr_added page)) _ st w) as [[e | st1] w1] eqn:H1;
    [discriminate |].
  unfold bind at 1 in H.
  destruct (for_fold (default [] (sr_modified page)) _ st1 w1) as [[e | st2] w2] eqn:H2;
    [discriminate |].
  split.
  - intros r id Hr Hid Hne. eapply removal_loop_deletes; eassumption.
  - intros p id Hp Hm Hid Hkept.
    eapply removal_loop_keeps_present; [exact H | exact Hkept |].
    apply elem_of_app in Hp as [Hp | Hp].
    + eapply upsert_loop_keeps_present; [exact H2 |].
      eapply upsert_loop_stores; eassumption.
    + eapply upsert_loop_stores; eassumption.
Qed.

End removal_facts.

(** X4. After a 200 in incremental mode, for the page the
    aggregator returned: no transaction is stored under the id of any
    removal of the page, also when the same page lists that id as added or
    modified, the removals being carried out last; and a transaction is
    stored under the id of every added or modified record of the account
    that the page does not remove. *)
Theorem removals_win_over_upserts (rt : runtime) (ev : event) (w w' : world)
    (body : sync_body) (page : sync_response) :
  use_sync_of ev = true ->
  (∀ request, transactions_sync rt request = Returned page) ->
  handler rt ev w = (Body 200 body, w') ->
  ∃ account_id account,
    ev_account_id ev = Some account_id
    ∧ accounts w !! account_key (ev_user_id ev) account_id = Some account
    ∧ (∀ r id, r ∈ default [] (sr_removed page) ->
         r_transaction_id r = Some id -> id ≠ EmptyString ->
         transactions w' !! txn_key account_id id = None)
    ∧ (∀ p id, p ∈ default [] (sr_added page) ++ default [] (sr_modified page) ->
         matching account p -> p_transaction_id p = Some id ->
         (∀ r, r ∈ default [] (sr_removed page) -> r_transaction_id r ≠ Some id) ->
         is_Some (transactions w' !! txn_key account_id id)).
Proof.
  intros Hsync Hsame Hrun.
  destruct (handler_success_inv rt ev w _ w' page Hsync Hsame Hrun eq_refl)
    as (account_id & account & st & wp & Hid & Hacc & Hpage & Htx & _).
  exists account_id, account. split; [exact Hid |]. split; [exact Hacc |].
  rewrite Htx. eapply process_page_outcome, Hpage.
Qed.

Lemma removals_win_over_upserts_witness :
  let w' := (handler demo_rt_add_and_remove (Demo.sync_event None None) Demo.world0).2 in
  transactions w' !! txn_key Demo.account_id "t1" = None
  ∧ is_Some (transactions w' !! txn_key Demo.account_id "t2").
Proof.
  cbv zeta.
  destruct (handler demo_rt_add_and_remove (Demo.sync_event None None) Demo.world0)
    as [[status body | status code message] w'] eqn:Hrun.
  - assert (Hstatus : status = 200).
    { apply (f_equal (fun x => status_of x.1)) in Hrun. vm_compute in Hrun. congruence. }
    subst status.
    destruct (removals_win_over_upserts demo_rt_add_and_remove
                (Demo.sync_event None None) Demo.world0 w' body
                demo_page_add_and_remove eq_refl (fun _ => eq_refl) Hrun)
      as (account_id & account & Hid & Hacc & Hremoved & Hstored).
    injection Hid as <-. vm_compute in Hacc. injection Hacc as <-.
    cbn [snd]. split.
    + apply (Hremoved {| r_transaction_id := Some "t1" |});
        [apply list_elem_of_singleton; reflexivity | reflexivity | discriminate].
    + apply (Hstored (Demo.txn (Some "t2") "a1" (Q2Qc (40 # 1)) "Groceries")).
      * right. left.
      * reflexivity.
      * reflexivity.
      * intros r Hr. apply list_elem_of_singleton in Hr. subst r. discriminate.
  - apply (f_equal fst) in Hrun. vm_compute in Hrun. discriminate Hrun.
Defined.

(* ===================================================================== *)
(** * The legacy branch *)
(* ===================================================================== *)

Section legacy_outcome.
Variable rt : runtime.

Lemma get_transactions_legacy_cases token creds s e ids w r w' :
  get_transactions_legacy rt token creds s e ids w = (r, w') ->
  w' = w ∧ ∀ response, r = Returned response ->
    ∃ request, transactions_get rt request = Returned response
               ∧ gq_start_date request = s ∧ gq_end_date request = e
               ∧ gq_account_ids request = match ids with [] => None | _ => Some ids end.
Proof.
  unfold get_transactions_legacy, bind, creds_key, lift_reply.
  destruct (creds_client_id creds); simpl; [| intros [= <- <-]; split; [done | discriminate]].
  destruct (creds_secret creds); simpl; [| intros [= <- <-]; split; [done | discriminate]].
  intros [= <- <-]. split; [reflexivity |]. intros response Hr.
  eexists. split; [exact Hr |]. repeat split.
Qed.

Lemma store_loop_counts user_id account_id xs : ∀ st w st' w',
  for_fold xs
    (fun st plaid_txn =>
       txn_data <- map_plaid_transaction rt plaid_txn user_id account_id ;;
       database.put rt txn_data ;;;
       ret (incr_added st)) st w = (Returned st', w') ->
  st' = Nat.iter (length xs) incr_added st ∧ accounts w' = accounts w.
Proof.
  induction xs as [| x xs IH]; intros st w st' w' H; simpl in H.
  - injection H as <- <-. split; reflexivity.
  - unfold bind at 1 in H. unfold bind at 1 in H.
    destruct (map_plaid_transaction_returns rt x user_id account_id w)
      as (item & Hrun & _).
    rewrite Hrun in H. unfold bind at 1, database.put, database.db_call in H.
    destruct (db_fault rt (db_calls (after_map w))); [discriminate |].
    cbn [ret] in H. apply IH in H as [-> Hacc]. split.
    + cbn [length]. rewrite Nat.iter_succ_r. reflexivity.
    + rewrite Hacc. reflexivity.
Qed.

Lemma legacy_cycle_outcome account user_id account_id token creds s e w st w' :
  legacy_cycle rt account user_id account_id token creds s e stats0 w
    = (Returned st, w') ->
  ∃ response request now,
    transactions_get rt request = Returned response
    ∧ gq_start_date request = s ∧ gq_end_date request = e
    ∧ gq_account_ids request = Some [a_plaid_account_id account]
    ∧ st = Nat.iter (length (default [] (gr_transactions response))) incr_added stats0
    ∧ accounts w' = <[account_key user_id account_id :=
                       set_synced ("USER#" +:+ user_id) ("ACCOUNT#" +:+ account_id) now
                                  (accounts w !! account_key user_id account_id)]>
                    (accounts w).
Proof.
  unfold legacy_cycle. intros H. unfold bind at 1 in H.
  destruct (get_transactions_legacy rt token creds s e [a_plaid_account_id account] w)
    as [[err | response] w1] eqn:Hget; [discriminate |].
  apply get_transactions_legacy_cases in Hget as [-> Hget].
  destruct (Hget response eq_refl) as (request & Hreq & Hs & He & Hids).
  unfold bind at 1 in H.
  destruct (for_fold (default [] (gr_transactions response)) _ stats0 w)
    as [[err | st1] w2] eqn:Hloop; [discriminate |].
  apply store_loop_counts in Hloop as [-> Hacc].
  unfold bind, database.get_timestamp, database.update, database.db_call in H.
  cbn [db_calls tick_clock] in H.
  destruct (db_fault rt (db_calls w2)); [discriminate |].
  injection H as <- <-.
  exists response, request, (isoformat rt (utcnow rt (clock_reads w2)) +:+ "Z").
  repeat split; try done.
  cbn. rewrite Hacc. reflexivity.
Qed.

Lemma legacy_range_keeps days w r w' :
  legacy_range rt days w = (r, w') -> accounts w' = accounts w.
Proof.
  unfold legacy_range, bind, database.datetime_utcnow, timedelta_days, datetime_add.
  cbn [clock_reads tick_clock].
  destruct (Z.abs days <=? 999999999); cbn [ret raise];
    [| intros [= <- <-]; reflexivity].
  destruct (_ && _); intros [= <- <-]; reflexivity.
Qed.

(** A 200 of the legacy branch comes out of its cycle. *)
Lemma handler_legacy_inv ev w body w' :
  use_sync_of ev = false ->
  handler rt ev w = (Body 200 body, w') ->
  ∃ account_id account token creds range w1 st,
    ev_account_id ev = Some account_id
    ∧ accounts w !! account_key (ev_user_id ev) account_id = Some account
    ∧ accounts w1 = accounts w
    ∧ legacy_cycle rt account (ev_user_id ev) account_id token creds
        range.1 range.2 stats0 w1 = (Returned st, w')
    ∧ body = body_of st.
Proof.
  intros Hsync H. unfold handler, handler_try in H.
  destruct (ev_account_id ev) as [account_id |]; [| exits H].
  destruct (Str.is_empty account_id); [exits H |].
  destruct (validation.validate_uuid account_id); simpl in H; [| exits H].
  unfold bind at 1 in H.
  unfold database.get_account, database.get_by_id, database.db_call in H.
  destruct (db_fault rt (db_calls w)) as [e |] eqn:Hfault; [exits H |].
  change (the_table (tick_db w)) with (accounts w) in H.
  destruct (accounts w !! _) as [account |] eqn:Hacc; [| exits H].
  destruct (a_plaid_access_token account) as [token |] eqn:Htok; [| exits H].
  destruct (Str.is_empty token); [exits H |].
  unfold bind at 1, try_except at 1, bind at 1 in H.
  destruct (get_plaid_credentials_pure rt (tick_db w)) as [r Hr]. rewrite Hr in H.
  destruct r as [e | creds]; [exits H |].
  cbn [ret] in H. rewrite Hsync in H.
  unfold bind at 1 in H. unfold effective_days in H.
  destruct (validation.int _) as [days |]; [| exits H].
  cbn [ret] in H. unfold bind at 1 in H.
  destruct (legacy_range rt (Z.min days 730) (tick_db w)) as [[e | range] w1] eqn:Hrange;
    [exits H |].
  apply legacy_range_keeps in Hrange.
  unfold try_except, bind in H.
  destruct (legacy_cycle rt account (ev_user_id ev) account_id token creds
              range.1 range.2 stats0 w1) as [[e | st] w2] eqn:Hcycle; [exits H |].
  cbn [ret] in H. injection H as <- <-.
  exists account_id, account, token, creds, range, w1, st.
  repeat split; try done.
Qed.

End legacy_outcome.

(** X5. A 200 of the legacy mode: the aggregator was asked for the
    external account of the account item alone; every transaction it
    returned is counted as added, none as modified or removed; the answer
    carries no cursor and [has_more] is false; and the account item keeps
    the sync cursor it had, only its [last_synced] being written. *)
Theorem legacy_sync_keeps_the_cursor (rt : runtime) (ev : event) (w w' : world)
    (body : sync_body) :
  use_sync_of ev = false ->
  handler rt ev w = (Body 200 body, w') ->
  ∃ account_id account response request now,
    ev_account_id ev = Some account_id
    ∧ accounts w !! account_key (ev_user_id ev) account_id = Some account
    ∧ transactions_get rt request = Returned response
    ∧ gq_account_ids request = Some [a_plaid_account_id account]
    ∧ added body = length (default [] (gr_transactions response))
    ∧ synced body = added body
    ∧ modified body = 0%nat ∧ removed body = 0%nat
    ∧ has_more body = false ∧ cursor body = None
    ∧ accounts w' !! account_key (ev_user_id ev) account_id
      = Some (legacy_committed now account)
    ∧ a_plaid_sync_cursor (legacy_committed now account) = a_plaid_sync_cursor account
    ∧ a_last_synced (legacy_committed now account) = Some now.
Proof.
  intros Hsync Hrun.
  destruct (handler_legacy_inv rt ev w body w' Hsync Hrun)
    as (account_id & account & token & creds & range & w1 & st
        & Hid & Hacc & Hkeep & Hcycle & ->).
  destruct (legacy_cycle_outcome rt _ _ _ _ _ _ _ _ _ _ Hcycle)
    as (response & request & now & Hreq & _ & _ & Hids & -> & Haccounts).
  exists account_id, account, response, request, now.
  rewrite iter_incr_added. cbn.
  repeat split; try done; try lia.
  rewrite Haccounts, lookup_insert_eq, Hkeep, Hacc. reflexivity.
Qed.

Lemma legacy_sync_keeps_the_cursor_witness :
  match handler demo_legacy_rt (Demo.sync_event (Some "false") None) Demo.world0 with
  | (Body _ body, w') =>
      added body = 2%nat ∧ cursor body = None
      ∧ ∃ account', accounts w' !! account_key Demo.user Demo.account_id = Some account'
                    ∧ a_plaid_sync_cursor account' = None
  | _ => False
  end.
Proof.
  destruct (handler demo_legacy_rt (Demo.sync_event (Some "false") None) Demo.world0)
    as [[status body | status code message] w'] eqn:Hrun.
  - assert (Hstatus : status = 200).
    { apply (f_equal (fun x => status_of x.1)) in Hrun. vm_compute in Hrun. congruence. }
    subst status.
    destruct (legacy_sync_keeps_the_cursor demo_legacy_rt
                (Demo.sync_event (Some "false") None) Demo.world0 w' body eq_refl Hrun)
      as (account_id & account & response & request & now & Hid & Hacc & Hreq & _
          & Ha & _ & _ & _ & _ & Hc & Hstored & Hcursor & _).
    injection Hid as <-. vm_compute in Hacc. injection Hacc as <-.
    injection Hreq as <-.
    split; [rewrite Ha; reflexivity |]. split; [exact Hc |].
    eexists. split; [exact Hstored | exact Hcursor].
  - apply (f_equal fst) in Hrun. vm_compute in Hrun. discriminate Hrun.
Defined.



End sync_reach_properties.

(* ===================================================================== *)
(** * Pages of an account's transactions *)
(* ===================================================================== *)

Lemma take_drop_take {A} (limit offset : nat) (l : list A) :
  take limit (drop offset (take (limit + offset) l)) = take limit (drop offset l).
Proof.
  rewrite (Nat.add_comm limit offset), <- take_drop_commute, take_take.
  f_equal. lia.
Qed.

Lemma take_add {A} (n m : nat) (l : list A) :
  take (n + m) l = take n l ++ take m (drop n l).
Proof.
  revert l. induction n as [| n IH]; intros [| x l]; simpl;
    rewrite ?take_nil; try reflexivity.
  f_equal. apply IH.
Qed.

Lemma query_items_limit {V} (pk prefix : string) (n : nat) (forward : bool)
    (t : table V) :
  database.query_items pk prefix (Some n) forward t
  = take n (database.query_items pk prefix None forward t).
Proof. unfold database.query_items. rewrite fmap_take. reflexivity. Qed.

(** What a range query without a limit returns: the items stored in the
    partition under a sort key with the prefix, and nothing else. *)
Lemma query_items_all {V} (pk prefix : string) (forward : bool) (t : table V) (x : V) :
  x ∈ database.query_items pk prefix None forward t
  <-> ∃ sk, t !! (pk, sk) = Some x ∧ begins_with prefix sk = true.
Proof.
  unfold database.query_items. rewrite list_elem_of_fmap. split.
  - intros ([[pk' sk] v] & -> & H). rewrite merge_sort_Permutation in H.
    apply list_elem_of_filter in H as [[Hpk Hsk] H]. simpl in *. subst pk'.
    apply elem_of_map_to_list in H. exists sk. split; assumption.
  - intros (sk & Hlook & Hsk). exists ((pk, sk), x). split; [reflexivity |].
    rewrite merge_sort_Permutation. apply list_elem_of_filter. split.
    + split; [reflexivity | exact Hsk].
    + apply elem_of_map_to_list. exact Hlook.
Qed.

(** The repository's page: positions [offset] to [offset + limit] of the
    account's listing, most recent first. *)
Lemma get_account_transactions_returns (rt : runtime) (user_id account_id : string)
    (limit offset : nat) (w : world) :
  db_fault rt (db_calls w) = None ->
  database.get_account_transactions rt user_id account_id limit offset w
  = (Returned (take limit (drop offset
       (database.query_items ("ACCOUNT#" +:+ account_id) "TXN#" None false
          (transactions w)))), tick_db w).
Proof.
  intros Hfault.
  unfold database.get_account_transactions, database.query_by_pk, bind,
    database.db_call.
  rewrite Hfault. cbn [ret].
  change (the_table (tick_db w)) with (transactions w).
  destruct (limit + offset)%nat as [| n] eqn:Hsum.
  - assert (limit = 0%nat) as -> by lia. reflexivity.
  - rewrite query_items_limit, <- Hsum, take_drop_take. reflexivity.
Qed.

(** X7. A page of an account's transactions is a slice of one
    listing, that of the transactions stored in the account's partition
    under a sort key that starts with TXN#.  With [limit] and
    [offset] the answer is the items from position [offset] on, at most
    [limit] of them; this also holds when both are 0, where the query goes
    out without a limit.  Consecutive pages therefore join into the larger
    page. *)
Theorem account_transactions_are_a_slice (rt : runtime) (user_id account_id : string)
    (limit offset : nat) (w : world) :
  db_fault rt (db_calls w) = None ->
  let listing := database.query_items ("ACCOUNT#" +:+ account_id) "TXN#" None false
                   (transactions w) in
  database.get_account_transactions rt user_id account_id limit offset w
    = (Returned (take limit (drop offset listing)), tick_db w)
  ∧ (∀ x, x ∈ listing <->
          ∃ sk, transactions w !! ("ACCOUNT#" +:+ account_id, sk) = Some x
                ∧ String.prefix "TXN#" sk = true)
  ∧ take limit (drop offset listing) ++ take limit (drop (offset + limit) listing)
    = take (limit + limit) (drop offset listing).
Proof.
  intros Hfault listing. split; [| split].
  - apply get_account_transactions_returns, Hfault.
  - intros x. apply query_items_all.
  - rewrite take_add, drop_drop. reflexivity.
Qed.

Lemma account_transactions_are_a_slice_witness :
  t_id <$> (match database.get_account_transactions Demo.plain_rt Demo.user
                    Demo.account_id 2 1 demo_three_stored with
            | (Returned txns, _) => txns
            | _ => []
            end) = ["t2"; "t1"].
Proof.
  destruct (account_transactions_are_a_slice Demo.plain_rt Demo.user Demo.account_id
              2 1 demo_three_stored eq_refl) as (Hpage & _).
  rewrite Hpage. vm_compute. reflexivity.
Defined.

(* ===================================================================== *)
(** * Goals: what the handlers store and what they leave alone *)
(* ===================================================================== *)

Lemma only_goal_refl key w : only_goal key w w.
Proof. repeat split. Qed.





Section goal_handlers.
Variable rt : runtime.


End goal_handlers.



Section goal_writes.
Variable rt : runtime.

Lemma same_tables_only_goal key w w' : same_tables w w' -> only_goal key w w'.
Proof. intros (Ha & Ht & Hg & Hb). repeat split; try assumption. intros. rewrite Hg. done. Qed.

(** [update_goal] of the repository: it raises without having written, or
    it writes one item, that of its key. *)
Lemma repository_update_goal_cases user_id goal_id updates w r w' :
  goal_repository.update_goal rt user_id goal_id updates w = (r, w') ->
  (∃ e, r = Raised e ∧ same_tables w w')
  ∨ (∃ now progress,
       let key := goal_key user_id goal_id in
       let item := apply_goal_updates key.1 key.2
                     {| u_title := u_title updates;
                        u_description := u_description updates;
                        u_target_amount := u_target_amount updates;
                        u_current_amount := u_current_amount updates;
                        u_target_date := u_target_date updates;
                        u_category := u_category updates;
                        u_priority := u_priority updates;
                        u_last_updated := Some now;
                        u_progress := progress |}
                     (goals w !! key) in
       r = Returned item
       ∧ (progress = u_progress updates
          ∨ is_Some (u_current_amount updates) ∨ is_Some (u_target_amount updates))
       ∧ accounts w' = accounts w ∧ transactions w' = transactions w
       ∧ budgets w' = budgets w
       ∧ goals w' = <[key := item]> (goals w)).
Proof.
  intros H.
  unfold goal_repository.update_goal, bind at 1, database.get_timestamp in H.
  cbn [with_last_updated u_current_amount u_target_amount] in H.
  unfold bind at 1 in H.
  destruct (bool_decide _) eqn:Htouch.
  - apply bool_decide_eq_true in Htouch.
    unfold bind at 1, goal_repository.get_goal, database.get_by_id, database.db_call in H.
    cbn [db_calls tick_clock] in H.
    destruct (db_fault rt (db_calls w)).
    { injection H as <- <-. left. eexists. split; [reflexivity | repeat split]. }
    cbv beta iota in H.
    change (the_table (tick_db (tick_clock w))) with (goals w) in H.
    destruct (goals w !! _) as [old |] eqn:Hold; cbn [ret] in H;
      unfold database.update, database.db_call in H; cbn [db_calls tick_db] in H;
      (destruct (db_fault rt (S _));
       [injection H as <- <-; left; eexists; split; [reflexivity | repeat split] |]);
      cbv beta iota in H;
      change (the_table (tick_db (tick_db (tick_clock w)))) with (goals w) in H;
      injection H as <- <-; right; eexists; eexists; cbv zeta;
      (split; [reflexivity |]); (split; [right; exact Htouch |]);
      repeat split.
  - cbn [ret] in H. unfold database.update, database.db_call in H.
    cbn [db_calls tick_clock] in H.
    destruct (db_fault rt (db_calls w)).
    { injection H as <- <-. left. eexists. split; [reflexivity | repeat split]. }
    cbv beta iota in H.
    change (the_table (tick_db (tick_clock w))) with (goals w) in H.
    injection H as <- <-. right. eexists. eexists. cbv zeta.
    split; [reflexivity |]. split; [left; reflexivity |]. repeat split.
Qed.

End goal_writes.

(** The branch at hand answers without having written. *)
Ltac answered_unchanged H :=
  cbn in H;
  try match type of H with
      | context [match ?e with ValidationError _ => _ | _ => _ end] => destruct e
      end;
  injection H as <- <-;
  (split; [repeat split; intros; reflexivity | intros _; reflexivity]).

Section goal_effects.
Variable rt : runtime.

Lemma get_goal_cases user_id goal_id w r w' :
  goal_repository.get_goal rt user_id goal_id w = (r, w') ->
  w' = tick_db w
  ∧ match r with
    | Raised e => db_fault rt (db_calls w) = Some e
    | Returned found =>
        db_fault rt (db_calls w) = None ∧ found = goals w !! goal_key user_id goal_id
    end.
Proof.
  unfold goal_repository.get_goal, database.get_by_id, database.db_call.
  destruct (db_fault rt (db_calls w)); intros [= <- <-]; repeat split.
Qed.

Lemma create_handler_effect user_id body w r w' :
  create_goal.handler rt user_id body w = (r, w') ->
  only_goal (goal_key user_id (uuid4 rt (uuid_calls w))) w w'
  ∧ (is_error r -> goals w' = goals w).
Proof.
  unfold create_goal.handler, create_goal.handler_try. intros H.
  unfold bind at 1, create_goal.require_fields in H.
  destruct (create_goal.title body) as [title |];
    destruct (create_goal.target_amount body) as [target |];
    try (answered_unchanged H).
  cbn [ret] in H.
  destruct (Str.is_empty _); [answered_unchanged H |].
  destruct (validate_amount (default _ (Some target))); [answered_unchanged H |].
  destruct (validate_amount _); [answered_unchanged H |].
  destruct (Num.leb _ _); [answered_unchanged H |].
  destruct (_ && _); [answered_unchanged H |].
  destruct (negb _); [answered_unchanged H |].
  unfold bind, goal_repository.create_goal, bind, database.generate_id,
    database.get_timestamp, database.put, database.db_call in H.
  cbn [db_calls tick_uuid tick_clock] in H.
  destruct (db_fault rt (db_calls w)); [answered_unchanged H |].
  cbn in H. injection H as <- <-. split; [| intros []].
  repeat split. intros k Hk. cbn. apply lookup_insert_ne. intros Heq. apply Hk. rewrite <- Heq. reflexivity.
Qed.

Lemma update_handler_effect user_id goal_id body w r w' :
  update_goal.handler rt user_id (Some goal_id) body w = (r, w') ->
  only_goal (goal_key user_id goal_id) w w'
  ∧ (is_error r -> goals w' = goals w).
Proof.
  unfold update_goal.handler, update_goal.handler_try. intros H.
  destruct (Str.is_empty goal_id); [answered_unchanged H |].
  destruct (negb _); [answered_unchanged H |].
  destruct (update_goal.is_empty body); [answered_unchanged H |].
  unfold bind at 1 in H.
  destruct (goal_repository.get_goal rt user_id goal_id w) as [[e | found] w1] eqn:Hget.
  { apply get_goal_cases in Hget as [-> _]. answered_unchanged H. }
  apply get_goal_cases in Hget as [-> _].
  destruct found as [old |]; [| answered_unchanged H].
  destruct (update_goal.build_updates rt body) as [s updates | s c m];
    [| answered_unchanged H].
  unfold bind in H.
  destruct (goal_repository.update_goal rt user_id goal_id updates (tick_db w))
    as [[e | g] w1] eqn:Hupdate.
  - destruct (repository_update_goal_cases rt _ _ _ _ _ _ Hupdate)
      as [(e' & _ & Ha & Ht & Hg & Hb) | (now & progress & [=] & _)].
    cbn in Ha, Ht, Hg, Hb.
    destruct e; injection H as <- <-;
      (split; [repeat split; try assumption; intros; rewrite Hg; reflexivity
              | intros _; exact Hg]).
  - destruct (repository_update_goal_cases rt _ _ _ _ _ _ Hupdate)
      as [(e' & [=] & _) | (now & progress & _ & _ & Ha & Ht & Hb & Hg)].
    cbn in Ha, Ht, Hb, Hg. injection H as <- <-. split; [| intros []].
    repeat split; try assumption.
    intros k Hk. rewrite Hg. apply lookup_insert_ne. intros Heq. apply Hk. rewrite <- Heq. reflexivity.
Qed.

Lemma contribute_handler_effect user_id goal_id body w r w' :
  contribute_to_goal.handler rt user_id (Some goal_id) body w = (r, w') ->
  only_goal (goal_key user_id goal_id) w w'
  ∧ (is_error r -> goals w' = goals w).
Proof.
  unfold contribute_to_goal.handler, contribute_to_goal.handler_try. intros H.
  destruct (Str.is_empty goal_id); [answered_unchanged H |].
  destruct (negb _); [answered_unchanged H |].
  destruct (contribute_to_goal.amount body) as [amount |]; [| answered_unchanged H].
  destruct (validate_amount amount); [answered_unchanged H |].
  destruct (Num.leb amount 0); [answered_unchanged H |].
  unfold bind at 1 in H.
  destruct (goal_repository.get_goal rt user_id goal_id w) as [[e | found] w1] eqn:Hget.
  { apply get_goal_cases in Hget as [-> _]. answered_unchanged H. }
  apply get_goal_cases in Hget as [-> _].
  destruct found as [old |]; [| answered_unchanged H].
  unfold bind at 1 in H.
  destruct (goal_repository.update_goal rt user_id goal_id _ (tick_db w))
    as [[e | g] w1] eqn:Hupdate.
  - destruct (repository_update_goal_cases rt _ _ _ _ _ _ Hupdate)
      as [(e' & _ & Ha & Ht & Hg & Hb) | (now & progress & [=] & _)].
    cbn in Ha, Ht, Hg, Hb.
    destruct e; injection H as <- <-;
      (split; [repeat split; try assumption; intros; rewrite Hg; reflexivity
              | intros _; exact Hg]).
  - destruct (repository_update_goal_cases rt _ _ _ _ _ _ Hupdate)
      as [(e' & [=] & _) | (now & progress & _ & _ & Ha & Ht & Hb & Hg)].
    cbn in Ha, Ht, Hb, Hg.
    unfold bind, database.generate_id, database.get_timestamp in H. cbn [ret] in H.
    injection H as <- <-. split; [| intros []].
    repeat split; try assumption.
    intros k Hk. cbn. rewrite Hg. apply lookup_insert_ne. intros Heq. apply Hk. rewrite <- Heq. reflexivity.
Qed.

Lemma delete_handler_effect user_id goal_id w r w' :
  delete_goal.handler rt user_id (Some goal_id) w = (r, w') ->
  only_goal (goal_key user_id goal_id) w w'
  ∧ (is_error r -> goals w' = goals w).
Proof.
  unfold delete_goal.handler, delete_goal.handler_try. intros H.
  destruct (Str.is_empty goal_id); [answered_unchanged H |].
  destruct (negb _); [answered_unchanged H |].
  unfold bind at 1 in H.
  destruct (goal_repository.get_goal rt user_id goal_id w) as [[e | found] w1] eqn:Hget.
  { apply get_goal_cases in Hget as [-> _]. answered_unchanged H. }
  apply get_goal_cases in Hget as [-> _].
  destruct found as [old |]; [| answered_unchanged H].
  unfold bind, database.delete_goal, database.delete, database.db_call in H.
  cbn [db_calls tick_db] in H.
  destruct (db_fault rt (S (db_calls w))); [answered_unchanged H |].
  cbn in H. injection H as <- <-. split; [| intros []].
  repeat split. intros k Hk. cbn. apply lookup_delete_ne. intros Heq. apply Hk. rewrite <- Heq. reflexivity.
Qed.

End goal_effects.

(** X9. The four handlers that write goals are confined and
    all-or-nothing.  Whatever the request and the outcome, a create, update,
    contribute or delete leaves the accounts, the transactions and the
    budgets alone, and every goal but the one addressed (for a create, the
    one under the identifier drawn); and when the answer is an error
    envelope, whatever its status, the goals table is what it was. *)
Theorem goal_writes_are_confined_and_atomic (rt : runtime) (user_id goal_id : string)
    (w : world) :
  (∀ body,
     let run := create_goal.handler rt user_id body w in
     only_goal (goal_key user_id (uuid4 rt (uuid_calls w))) w run.2
     ∧ (is_error run.1 -> goals run.2 = goals w))
  ∧ (∀ body,
       let run := update_goal.handler rt user_id (Some goal_id) body w in
       only_goal (goal_key user_id goal_id) w run.2
       ∧ (is_error run.1 -> goals run.2 = goals w))
  ∧ (∀ body,
       let run := contribute_to_goal.handler rt user_id (Some goal_id) body w in
       only_goal (goal_key user_id goal_id) w run.2
       ∧ (is_error run.1 -> goals run.2 = goals w))
  ∧ (let run := delete_goal.handler rt user_id (Some goal_id) w in
     only_goal (goal_key user_id goal_id) w run.2
     ∧ (is_error run.1 -> goals run.2 = goals w)).
Proof.
  split; [| split; [| split]].
  - intros body run. apply (create_handler_effect rt user_id body w).
    apply surjective_pairing.
  - intros body run. apply (update_handler_effect rt user_id goal_id body w).
    apply surjective_pairing.
  - intros body run. apply (contribute_handler_effect rt user_id goal_id body w).
    apply surjective_pairing.
  - intros run. apply (delete_handler_effect rt user_id goal_id w).
    apply surjective_pairing.
Qed.

Section goal_updates.
Variable rt : runtime.



End goal_updates.



(** X11. A delete answers 200 only for a goal that was stored, and
    the goal is then gone while every other goal is as it was; it answers
    404 only for a goal that was not there, and changes nothing.  After a
    200, a read of the goal and a second delete of it both answer 404,
    provided their own read of the table does not fail. *)
Theorem deleted_goal_is_gone (rt : runtime) (user_id goal_id : string)
    (w w' : world) (r : response delete_goal.deleted) :
  delete_goal.handler rt user_id (Some goal_id) w = (r, w') ->
  let key := goal_key user_id goal_id in
  (status_of r = 200 ->
     is_Some (goals w !! key)
     ∧ goals w' = delete key (goals w)
     ∧ (db_fault rt (db_calls w') = None ->
        get_goal.handler rt user_id (Some goal_id) w'
          = (not_found "Goal not found", tick_db w')
        ∧ delete_goal.handler rt user_id (Some goal_id) w'
          = (not_found "Goal not found", tick_db w')))
  ∧ (status_of r = 404 -> goals w !! key = None ∧ goals w' = goals w).
Proof.
  intros H key. unfold delete_goal.handler, delete_goal.handler_try in H.
  destruct (Str.is_empty goal_id) eqn:Hempty.
  { cbn in H. injection H as <- <-. split; discriminate. }
  destruct (validation.validate_uuid goal_id) eqn:Huuid; cbn [negb] in H.
  2: { cbn in H. injection H as <- <-. split; discriminate. }
  unfold bind at 1 in H.
  destruct (goal_repository.get_goal rt user_id goal_id w) as [[e | found] w1] eqn:Hget.
  { cbn in H. injection H as <- <-. split; discriminate. }
  apply get_goal_cases in Hget as [-> [_ ->]]. fold key in H.
  destruct (goals w !! key) as [old |] eqn:Hold.
  - unfold bind, database.delete_goal, database.delete, database.db_call in H.
    cbn [db_calls tick_db] in H.
    destruct (db_fault rt (S (db_calls w))).
    { cbn in H. injection H as <- <-. split; discriminate. }
    cbn in H. injection H as <- <-. split; [| discriminate].
    intros _. split; [eexists; reflexivity |]. split; [reflexivity |].
    intros Hfault. cbn [db_calls tick_db set_goals with_table GoalRepository] in Hfault.
    unfold get_goal.handler, get_goal.handler_try, delete_goal.handler,
      delete_goal.handler_try.
    rewrite Hempty, Huuid. cbn [negb].
    unfold bind, goal_repository.get_goal, database.get_by_id, database.db_call.
    cbn [db_calls tick_db set_goals with_table GoalRepository the_table goals].
    rewrite Hfault. cbn [goals tick_db set_goals].
    fold key. rewrite lookup_delete_eq. split; reflexivity.
  - cbn in H. injection H as <- <-. split; [discriminate |].
    intros _. split; reflexivity.
Qed.

Lemma deleted_goal_is_gone_witness :
  let run := delete_goal.handler demo_uuid_rt Demo.user (Some (demo_uuid 0))
               demo_world_with_goal in
  status_of run.1 = 200
  ∧ get_goal.handler demo_uuid_rt Demo.user (Some (demo_uuid 0)) run.2
    = (not_found "Goal not found", tick_db run.2).
Proof.
  cbv zeta.
  destruct (deleted_goal_is_gone demo_uuid_rt Demo.user (demo_uuid 0)
              demo_world_with_goal _ _ (surjective_pairing _)) as [Hgone _].
  assert (Hstatus : status_of (delete_goal.handler demo_uuid_rt Demo.user
                                 (Some (demo_uuid 0)) demo_world_with_goal).1 = 200)
    by (vm_compute; reflexivity).
  split; [exact Hstatus |].
  destruct (Hgone Hstatus) as (_ & _ & Hafter).
  apply Hafter. reflexivity.
Defined.

(** X12. The listing of a user's goals, for a status among active,
    completed and all, when the read of the table does not fail: the answer
    is a 200 whose entries are the formatted goals stored in the user's
    partition under a sort key that starts with GOAL#, of the status asked
    for (a goal without a status counting as active, and [all] taking every
    goal), and of the category asked for when one is, compared without
    regard to letter case; nothing else is listed and nothing is written. *)
Theorem listing_shows_the_stored_goals (rt : runtime) (ev : list_goals.event)
    (w : world) :
  let status := validation.get_query_param (list_goals.ev_status ev) "active" in
  status ∈ ["active"; "completed"; "all"] ->
  db_fault rt (db_calls w) = None ->
  ∃ views,
    list_goals.handler rt ev w = (success views, tick_db w)
    ∧ ∀ v, v ∈ views <->
        ∃ sk goal,
          goals w !! ("USER#" +:+ list_goals.ev_user_id ev, sk) = Some goal
          ∧ String.prefix "GOAL#" sk = true
          ∧ (status = "all" ∨ default "active" (g_status goal) = status)
          ∧ (missing (list_goals.ev_category ev) = true
             ∨ list_goals.in_category (default EmptyString (list_goals.ev_category ev)) goal)
          ∧ v = format_goal goal.
Proof.
  intros status Hstatus Hfault.
  unfold list_goals.handler, list_goals.handler_try. fold status.
  assert (Henum : validation.validate_enum status ["active"; "completed"; "all"] "status"
                  = Returned tt).
  { unfold validation.validate_enum.
    assert (H : existsb (String.eqb status) ["active"; "completed"; "all"] = true).
    { apply existsb_exists. exists status. split.
      - apply list_elem_of_In. exact Hstatus.
      - apply String.eqb_refl. }
    rewrite H. reflexivity. }
  rewrite Henum.
  unfold bind at 1, database.get_user_goals, bind, database.query_by_pk,
    database.db_call.
  rewrite Hfault. cbn [ret].
  change (the_table (tick_db w)) with (goals w).
  eexists. split; [reflexivity |].
  intros v. rewrite list_elem_of_fmap.
  set (all := database.query_items _ _ _ _ _).
  assert (Hall : ∀ g, g ∈ all <->
            ∃ sk, goals w !! ("USER#" +:+ list_goals.ev_user_id ev, sk) = Some g
                  ∧ String.prefix "GOAL#" sk = true)
    by (intros g; apply query_items_all).
  assert (Hby_status : ∀ g,
            g ∈ (if negb (String.eqb status "all")
                 then filter (fun g => default "active" (g_status g) = status) all
                 else all)
            <-> g ∈ all ∧ (status = "all" ∨ default "active" (g_status g) = status)).
  { intros g. destruct (String.eqb status "all") eqn:Heq; cbn [negb].
    - apply String.eqb_eq in Heq. split; [intros H; split; [exact H | left; exact Heq] |].
      intros [H _]. exact H.
    - apply String.eqb_neq in Heq. rewrite list_elem_of_filter. split.
      + intros [Hs H]. split; [exact H | right; exact Hs].
      + intros [H [Hs | Hs]]; [contradiction | split; assumption]. }
  split.
  - intros (g & -> & Hg).
    destruct (missing (list_goals.ev_category ev)) eqn:Hmissing.
    + apply Hby_status in Hg as [Hg Hs]. apply Hall in Hg as (sk & Hsk & Hprefix).
      exists sk, g. repeat split; try assumption. left. reflexivity.
    + apply list_elem_of_filter in Hg as [Hc Hg].
      apply Hby_status in Hg as [Hg Hs]. apply Hall in Hg as (sk & Hsk & Hprefix).
      exists sk, g. repeat split; try assumption. right. exact Hc.
  - intros (sk & g & Hsk & Hprefix & Hs & Hc & ->). exists g. split; [reflexivity |].
    assert (Hg : g ∈ all) by (apply Hall; exists sk; split; assumption).
    destruct (missing (list_goals.ev_category ev)) eqn:Hmissing.
    + apply Hby_status. split; assumption.
    + apply list_elem_of_filter. split.
      * destruct Hc as [Hc | Hc]; [discriminate | exact Hc].
      * apply Hby_status. split; assumption.
Qed.

Lemma listing_shows_the_stored_goals_witness :
  ∃ views,
    list_goals.handler demo_uuid_rt
      {| list_goals.ev_user_id := Demo.user; list_goals.ev_status := None;
         list_goals.ev_category := Some "EMERGENCY" |} demo_world_with_goal
    = (success views, tick_db demo_world_with_goal)
    ∧ gv_title <$> views = [Some "Emergency fund"].
Proof.
  destruct (listing_shows_the_stored_goals demo_uuid_rt
              {| list_goals.ev_user_id := Demo.user; list_goals.ev_status := None;
                 list_goals.ev_category := Some "EMERGENCY" |} demo_world_with_goal)
    as (views & Hrun & _).
  - left.
  - reflexivity.
  - exists views. split; [exact Hrun |].
    apply (f_equal (fun x => match x.1 with Body _ vs => gv_title <$> vs | _ => [] end))
      in Hrun.
    cbn beta iota delta [fst success] in Hrun. rewrite <- Hrun. vm_compute. reflexivity.
Defined.

(* ===================================================================== *)
(** * The order of the answers *)
(* ===================================================================== *)

(** ** The order of strings *)

Lemma Str_ltb_trans (a b c : string) :
  Str.ltb a b = true -> Str.ltb b c = true -> Str.ltb a c = true.
Proof.
  unfold Str.ltb, String.ltb. intros Hab Hbc.
  destruct (String.compare a b) eqn:Eab; try discriminate.
  destruct (String.compare b c) eqn:Ebc; try discriminate.
  change (OrderedTypeEx.String_as_OT.cmp a b = Lt) in Eab. change (OrderedTypeEx.String_as_OT.cmp b c = Lt) in Ebc.
  apply OrderedTypeEx.String_as_OT.cmp_lt in Eab, Ebc.
  pose proof (OrderedTypeEx.String_as_OT.lt_trans _ _ _ Eab Ebc) as Hac.
  apply OrderedTypeEx.String_as_OT.cmp_lt in Hac. change (String.compare a c = Lt) in Hac.
  rewrite Hac. reflexivity.
Qed.

Lemma Str_ltb_irrefl (a : string) : Str.ltb a a = false.
Proof.
  unfold Str.ltb, String.ltb.
  destruct (String.compare a a) eqn:E; try reflexivity.
  pose proof (String.compare_antisym a a) as H. rewrite E in H. discriminate.
Qed.

(** Of two different strings one sorts before the other. *)
Lemma Str_ltb_connected (a b : string) :
  a ≠ b -> Str.ltb a b = false -> Str.ltb b a = true.
Proof.
  unfold Str.ltb, String.ltb. intros Hne H.
  rewrite String.compare_antisym.
  destruct (String.compare a b) eqn:E; try discriminate; [| reflexivity].
  apply String.compare_eq_iff in E. contradiction.
Qed.

(** ** [sorted] *)

Lemma insert_sorted_sorted {A} (before : A -> A -> bool) (R : relation A)
    `{!Transitive R} (x : A) (l : list A) :
  Forall (ordered_by before R x) l ->
  StronglySorted R l -> StronglySorted R (insert_sorted before x l).
Proof.
  intros Hx Hl. induction Hl as [| y l Hl IH Hy]; simpl.
  - repeat constructor.
  - apply Forall_cons in Hx as [Hxy Hx]. unfold ordered_by in Hxy.
    destruct (before y x).
    + constructor; [apply IH, Hx |].
      rewrite insert_sorted_Permutation. constructor; assumption.
    + constructor; [constructor; assumption |].
      constructor; [exact Hxy |].
      eapply Forall_impl; [exact Hy |]. intros z Hz. etransitivity; eassumption.
Qed.

Lemma sorted_by_sorted {A} (before : A -> A -> bool) (R : relation A)
    `{!Transitive R} (l : list A) :
  ForallOrdPairs (ordered_by before R) l ->
  StronglySorted R (sorted_by before l).
Proof.
  induction 1 as [| x l Hx Hl IH]; simpl; [constructor |].
  apply insert_sorted_sorted; [exact _ | | exact IH].
  change (foldr (insert_sorted before) [] l) with (sorted_by before l).
  rewrite sorted_by_Permutation. exact Hx.
Qed.

Lemma ForallOrdPairs_all {A} (P : A -> A -> Prop) (l : list A) :
  (∀ x y, P x y) -> ForallOrdPairs P l.
Proof.
  intros HP. induction l as [| x l IH]; constructor; [| exact IH].
  apply Forall_forall. intros y _. apply HP.
Qed.

Lemma ForallOrdPairs_NoDup {A B} (f : A -> B) (P : A -> A -> Prop) (l : list A) :
  NoDup (f <$> l) -> (∀ x y, f x ≠ f y -> P x y) -> ForallOrdPairs P l.
Proof.
  intros Hnd HP. induction l as [| x l IH]; constructor.
  - apply Forall_forall. intros y Hy. apply HP. intros Heq.
    rewrite fmap_cons in Hnd. apply NoDup_cons in Hnd as [Hx _].
    apply Hx. rewrite Heq. apply list_elem_of_fmap. exists y. split; [reflexivity | exact Hy].
  - apply IH. rewrite fmap_cons in Hnd. apply NoDup_cons in Hnd as [_ Hnd]. exact Hnd.
Qed.

(** ** Rounding keeps the order *)

Ltac compare_spec H :=
  match type of H with
  | Qcompare _ _ = Eq => apply Qeq_alt in H
  | Qcompare _ _ = Lt => apply Qlt_alt in H
  | Qcompare _ _ = Gt => apply Qgt_alt in H
  end.

Lemma round_half_even_mono (p q : Q) :
  (p <= q)%Q -> Num.round_half_even p ≤ Num.round_half_even q.
Proof.
  intros Hle. unfold Num.round_half_even.
  pose proof (Qfloor_resp_le _ _ Hle) as Hfloor.
  pose proof (Qfloor_le p) as Hp. pose proof (Qlt_floor p) as Hp'.
  pose proof (Qfloor_le q) as Hq. pose proof (Qlt_floor q) as Hq'.
  rewrite inject_Z_plus in Hp', Hq'. change (inject_Z 1) with 1%Q in Hp', Hq'.
  destruct (Z.eq_dec (Qfloor p) (Qfloor q)) as [Heq | Hne].
  - rewrite Heq in *.
    destruct (Qcompare (p - inject_Z (Qfloor q)) (1 # 2)) eqn:Cp;
      destruct (Qcompare (q - inject_Z (Qfloor q)) (1 # 2)) eqn:Cq;
      compare_spec Cp; compare_spec Cq;
      try (exfalso; lra);
      destruct (Z.even (Qfloor q)); lia.
  - assert (Hlt : Qfloor p + 1 ≤ Qfloor q) by lia.
    destruct (Qcompare (p - inject_Z (Qfloor p)) (1 # 2));
      destruct (Qcompare (q - inject_Z (Qfloor q)) (1 # 2));
      destruct (Z.even (Qfloor p)); destruct (Z.even (Qfloor q)); lia.
Qed.

(** [round(x, n) <= round(y, n)] whenever [x <= y]. *)
Lemma Num_round_mono (x y : Qc) (n : nat) :
  (x ≤ y)%Qc -> (Num.round x n ≤ Num.round y n)%Qc.
Proof.
  intros Hle. pose proof (scale_positive n) as Hs.
  unfold Qcle, Num.round. cbn [this Q2Qc]. rewrite !Qred_correct.
  set (s := inject_Z (10 ^ Z.of_nat n)) in *.
  assert (Hinv : (0 < / s)%Q) by (apply Qinv_lt_0_compat, Hs).
  unfold Qdiv. apply Qmult_le_compat_r; [| apply Qlt_le_weak, Hinv].
  rewrite <- Zle_Qle. apply round_half_even_mono.
  apply Qmult_le_compat_r; [exact Hle | apply Qlt_le_weak, Hs].
Qed.

Lemma Num_round_nonneg (x : Qc) (n : nat) : (0 ≤ x)%Qc -> (0 ≤ Num.round x n)%Qc.
Proof. intros H. rewrite <- (Num_round_zero n). apply Num_round_mono, H. Qed.

(* ===================================================================== *)
(** * Cash flow: the points of the answer *)
(* ===================================================================== *)

Lemma Str_ltb_Transitive : Transitive (fun a b : string => Str.ltb a b = true).
Proof. intros a b c. apply Str_ltb_trans. Qed.

Section cash_flow_order.
Variable rt : runtime.

Lemma aggregate_from_NoDup granularity txns : ∀ inf out inf' out',
  get_cash_flow.aggregate_from rt inf out txns granularity = Returned (inf', out') ->
  NoDup (Dict.keys inf) -> NoDup (Dict.keys out) ->
  NoDup (Dict.keys inf') ∧ NoDup (Dict.keys out').
Proof.
  induction txns as [| txn rest IH]; intros inf out inf' out' H Hinf Hout.
  - injection H as <- <-. split; assumption.
  - rewrite aggregate_from_cons in H.
    destruct (t_date txn); [| discriminate].
    destruct (bucket rt granularity txn) as [key |]; [| eapply IH; eassumption].
    destruct (Num.geb (t_amount txn) 0).
    + eapply IH; [exact H | apply Dict_keys_upd_NoDup, Hinf | exact Hout].
    + eapply IH; [exact H | exact Hinf | apply Dict_keys_upd_NoDup, Hout].
Qed.

Lemma points_of_increase (d : get_cash_flow.flows) :
  NoDup (Dict.keys d) -> dates_increase (get_cash_flow.points_of d).
Proof.
  intros Hd. unfold dates_increase, get_cash_flow.points_of.
  apply (StronglySorted_fmap _ (fun x y : string * Qc => Str.ltb x.1 y.1 = true)).
  { intros x y H. exact H. }
  apply sorted_by_sorted.
  { intros x y z. apply Str_ltb_trans. }
  apply (ForallOrdPairs_NoDup fst); [exact Hd |].
  intros x y Hne. unfold ordered_by, get_cash_flow.key_before.
  destruct (Str.ltb y.1 x.1) eqn:E; [reflexivity |].
  apply Str_ltb_connected; [congruence | exact E].
Qed.

End cash_flow_order.

(** X13. In a 200 of the cash-flow handler the inflow points
    come in strictly increasing order of their period key, and so do the
    outflow points: the order is that of the keys as strings, and no period
    has two points in one list. *)
Theorem cash_flow_points_are_in_date_order (rt : runtime) (ev : get_cash_flow.event)
    (w w' : world) (status : Z) (body : get_cash_flow.cash_flow_body) :
  get_cash_flow.handler rt ev w = (Body status body, w') ->
  dates_increase (get_cash_flow.inflows body)
  ∧ dates_increase (get_cash_flow.outflows body).
Proof.
  intros Hrun.
  destruct (cash_flow_handler_inv rt ev w status body w' Hrun)
    as (txns & inflows & outflows & Hagg & ->).
  unfold get_cash_flow.aggregate_by_granularity in Hagg.
  destruct (aggregate_from_NoDup rt _ _ _ _ _ _ Hagg) as [Hin Hout];
    [constructor | constructor |].
  split; apply points_of_increase; assumption.
Qed.

Lemma cash_flow_points_are_in_date_order_witness :
  match get_cash_flow.handler Demo.plain_rt demo_march_cash_flow demo_mixed_ledger with
  | (Body _ body, _) =>
      dates_increase (get_cash_flow.inflows body)
      ∧ get_cash_flow.pt_date <$> get_cash_flow.inflows body
        = ["2024-03-01"; "2024-03-02"]
  | _ => False
  end.
Proof.
  destruct (get_cash_flow.handler Demo.plain_rt demo_march_cash_flow demo_mixed_ledger)
    as [[status body | status code message] w'] eqn:Hrun.
  - split.
    + apply (cash_flow_points_are_in_date_order _ _ _ _ _ _ Hrun).
    + apply (f_equal (fun x => match x.1 with
                               | Body _ b => get_cash_flow.pt_date <$> get_cash_flow.inflows b
                               | _ => []
                               end)) in Hrun.
      cbn beta iota delta [fst] in Hrun. rewrite <- Hrun. vm_compute. reflexivity.
  - apply (f_equal fst) in Hrun. vm_compute in Hrun. discriminate Hrun.
Defined.

(* ===================================================================== *)
(** * Spending by category: the rows of the answer *)
(* ===================================================================== *)

Section spending_order.
Variable rt : runtime.

Lemma Forall_upd {V} (P : string * V -> Prop) zero k f (d : list (string * V)) :
  Forall P d -> (∀ v, P (k, v) -> P (k, f v)) -> P (k, f zero) ->
  Forall P (Dict.upd zero k f d).
Proof.
  intros Hd Hf Hz. induction Hd as [| [k' v] d Hkv Hd IH]; cbn [Dict.upd].
  - repeat constructor. exact Hz.
  - destruct (String.eqb k k') eqn:E.
    + apply String.eqb_eq in E. subst k'. constructor; [apply Hf, Hkv | exact Hd].
    + constructor; [exact Hkv | exact IH].
Qed.

Lemma magnitude_positive txn : (t_amount txn < 0)%Qc -> (0 < magnitude txn)%Qc.
Proof.
  intros H. unfold magnitude. rewrite Num_abs_of_nonpos by (apply Qclt_le_weak, H).
  apply Qclt_minus_iff in H. rewrite Qcplus_0_l in H. exact H.
Qed.

Lemma tally_tallied s e txns : ∀ cs cs',
  get_spending_by_category.tally s e cs txns = Returned cs' -> tallied cs -> tallied cs'.
Proof.
  induction txns as [| txn rest IH]; intros cs cs' H Hcs.
  - injection H as <-. exact Hcs.
  - rewrite tally_cons in H. destruct (t_date txn); [| discriminate].
    destruct (Num.geb (t_amount txn) 0) eqn:Hsign; [eapply IH; eassumption |].
    apply Num_geb_false in Hsign.
    destruct (negb _); [eapply IH; eassumption |].
    eapply IH; [exact H |]. destruct Hcs as [Hnd Hall]. split.
    + apply Dict_keys_upd_NoDup, Hnd.
    + pose proof (magnitude_positive txn Hsign) as Hm.
      apply Forall_upd; [exact Hall | |]; cbn [fst snd].
      * intros v [Hpos Hcount]. split; [| lia].
        apply Qclt_le_trans with (y := (0 + magnitude txn)%Qc).
        { rewrite Qcplus_0_l. exact Hm. }
        apply Qcplus_le_compat; [apply Qclt_le_weak, Hpos | apply Qcle_refl].
      * split; [| lia]. rewrite Qcplus_0_l. exact Hm.
Qed.

Lemma collect_tallied user_id s e accts : ∀ cs w cs' w',
  get_spending_by_category.collect rt user_id s e cs accts w = (Returned cs', w') ->
  tallied cs -> tallied cs'.
Proof.
  induction accts as [| account rest IH]; intros cs w cs' w' H Hcs; simpl in H.
  - injection H as <- <-. exact Hcs.
  - unfold bind at 1 in H.
    destruct (a_id account) as [account_id |];
      [| cbn [ret] in H; eapply IH; eassumption].
    destruct (Str.is_empty account_id); [cbn [ret] in H; eapply IH; eassumption |].
    unfold bind at 1 in H.
    destruct (database.get_account_transactions rt user_id account_id 1000 0 w)
      as [[err | txns] w1]; [discriminate |].
    unfold lift_reply in H.
    destruct (get_spending_by_category.tally s e cs txns) as [err | cs1] eqn:Htally;
      [discriminate |].
    eapply IH; [exact H |]. eapply tally_tallied; eassumption.
Qed.

Lemma spending_handler_tallied ev w status body w' :
  get_spending_by_category.handler rt ev w = (Body status body, w') ->
  ∃ category_spending,
    tallied category_spending ∧ body = get_spending_by_category.body_of category_spending.
Proof.
  unfold get_spending_by_category.handler, get_spending_by_category.handler_try.
  intros H.
  repeat match type of H with
         | context [if ?c then ret _ else _] => destruct c; [discriminate H |]
         end.
  unfold bind at 1 in H.
  destruct (database.get_user_accounts rt _ w) as [[err | accts] w1]; [discriminate |].
  unfold bind in H.
  destruct (get_spending_by_category.collect rt _ _ _ _ accts w1)
    as [[err | cs] w2] eqn:Hcollect; [discriminate |].
  injection H as <- <- <-. exists cs. split; [| reflexivity].
  eapply collect_tallied; [exact Hcollect |]. split; constructor.
Qed.

End spending_order.

(** X14. In a 200 of the spending handler the categories come
    from the largest amount to the smallest, also after the amounts have
    been rounded to two places; no category is listed twice; and every
    category listed counts at least one transaction and shows an amount
    that is not negative. *)
Theorem spending_rows_go_from_largest_to_smallest (rt : runtime)
    (ev : get_spending_by_category.event) (w w' : world) (status : Z)
    (body : get_spending_by_category.spending_body) :
  get_spending_by_category.handler rt ev w = (Body status body, w') ->
  let rows := get_spending_by_category.categories body in
  amounts_decrease rows
  ∧ NoDup (get_spending_by_category.category_name <$> rows)
  ∧ Forall (fun r => (1 ≤ get_spending_by_category.transaction_count r)%nat
                     ∧ (0 ≤ get_spending_by_category.amount r)%Qc) rows.
Proof.
  intros Hrun rows.
  destruct (spending_handler_tallied rt ev w status body w' Hrun)
    as (cs & [Hnd Hall] & ->).
  subst rows. unfold get_spending_by_category.body_of.
  cbn [get_spending_by_category.categories].
  set (total := get_spending_by_category.total_of cs).
  split; [| split].
  - unfold amounts_decrease.
    apply (StronglySorted_fmap _ (fun x y : string * (Qc * nat) => (y.2.1 ≤ x.2.1)%Qc)).
    { intros x y H. cbn. apply Num_round_mono, H. }
    apply sorted_by_sorted.
    { intros x y z Hxy Hyz. eapply Qcle_trans; eassumption. }
    apply ForallOrdPairs_all. intros x y.
    unfold ordered_by, get_spending_by_category.larger_first.
    destruct (Num.gtb y.2.1 x.2.1) eqn:E.
    + apply Num_gtb_true in E. apply Qclt_le_weak, E.
    + unfold Num.gtb in E. apply bool_decide_eq_false in E. apply Qcnot_lt_le, E.
  - rewrite <- list_fmap_compose.
    change (get_spending_by_category.category_name
            ∘ get_spending_by_category.row_of total) with (@fst string (Qc * nat)).
    rewrite sorted_by_Permutation. exact Hnd.
  - apply Forall_fmap. rewrite sorted_by_Permutation.
    eapply Forall_impl; [exact Hall |].
    intros kv [Hpos Hcount]. cbn. split; [exact Hcount |].
    apply Num_round_nonneg, Qclt_le_weak, Hpos.
Qed.

Lemma spending_rows_go_from_largest_to_smallest_witness :
  match get_spending_by_category.handler Demo.plain_rt demo_march_spending
          demo_mixed_ledger with
  | (Body _ body, _) =>
      amounts_decrease (get_spending_by_category.categories body)
      ∧ (fun r => (get_spending_by_category.category_name r,
                   get_spending_by_category.transaction_count r))
          <$> get_spending_by_category.categories body
        = [("Rent", 1%nat); ("Food", 2%nat)]
  | _ => False
  end.
Proof.
  destruct (get_spending_by_category.handler Demo.plain_rt demo_march_spending
              demo_mixed_ledger)
    as [[status body | status code message] w'] eqn:Hrun.
  - split.
    + apply (spending_rows_go_from_largest_to_smallest _ _ _ _ _ _ Hrun).
    + apply (f_equal (fun x => match x.1 with
                               | Body _ b =>
                                   (fun r => (get_spending_by_category.category_name r,
                                              get_spending_by_category.transaction_count r))
                                     <$> get_spending_by_category.categories b
                               | _ => []
                               end)) in Hrun.
      cbn beta iota delta [fst] in Hrun. rewrite <- Hrun. vm_compute. reflexivity.
  - apply (f_equal fst) in Hrun. vm_compute in Hrun. discriminate Hrun.
Defined.

(* ===================================================================== *)
(** * Budget comparison: the rows of the answer *)
(* ===================================================================== *)

Section budget_rows.
Variable rt : runtime.

Lemma all_categories_sorted budgets actual :
  names_increase (get_budget_comparison.all_categories budgets actual).
Proof.
  unfold names_increase, get_budget_comparison.all_categories.
  apply sorted_by_sorted; [exact Str_ltb_Transitive |].
  apply (ForallOrdPairs_NoDup id).
  { rewrite list_fmap_id. apply NoDup_remove_dups. }
  intros x y Hne. unfold ordered_by, id in *.
  destruct (Str.ltb y x) eqn:E; [reflexivity |].
  apply Str_ltb_connected; [congruence | exact E].
Qed.

Lemma all_categories_elem budgets actual c :
  c ∈ get_budget_comparison.all_categories budgets actual
  <-> c ∈ Dict.keys budgets ∨ c ∈ Dict.keys actual.
Proof.
  unfold get_budget_comparison.all_categories.
  rewrite sorted_by_Permutation, elem_of_remove_dups, elem_of_app. reflexivity.
Qed.

Lemma Qclt_irreflexive (x : Qc) : ¬ (x < x)%Qc.
Proof. intros H. apply (Qclt_not_eq _ _ H). reflexivity. Qed.

Lemma over_true actual budgeted :
  get_budget_comparison.over actual budgeted = true
  <-> (0 < budgeted)%Qc ∧ (budgeted < actual)%Qc.
Proof.
  unfold get_budget_comparison.over.
  destruct (Num.gtb budgeted 0) eqn:E.
  - apply Num_gtb_true in E. rewrite Num_gtb_true. tauto.
  - split; [discriminate |]. intros [H _]. apply Num_gtb_true in H. congruence.
Qed.

(** A 200 of the budget handler is computed from the stored budget, or from
    no budget when the read of it failed, and from some tally of the
    month. *)
Lemma budget_handler_inv ev w status body w' :
  get_budget_comparison.handler rt ev w = (Body status body, w') ->
  ∃ month budget category_actual,
    get_budget_comparison.ev_month ev = Some month
    ∧ match db_fault rt (db_calls w) with
      | Some _ => budget = None
      | None =>
          budget = budgets w !! ("USER#" +:+ get_budget_comparison.ev_user_id ev,
                                 "BUDGET#" +:+ month)
      end
    ∧ body = get_budget_comparison.body_of budget category_actual.
Proof.
  intros H. unfold get_budget_comparison.handler,
    get_budget_comparison.handler_try in H.
  destruct (missing (get_budget_comparison.ev_month ev)) eqn:Hmissing; [discriminate H |].
  destruct (get_budget_comparison.ev_month ev) as [month |] eqn:Hmonth;
    [| discriminate Hmissing].
  cbn [default from_option id] in H.
  destruct (negb _); [discriminate H |].
  unfold bind at 1 in H.
  destruct (get_budget_comparison.get_user_budget rt _ month w)
    as [[err | budget] w0] eqn:Hbudget; [discriminate |].
  unfold bind at 1, lift_reply in H.
  destruct (get_budget_comparison.month_range _) as [err | range]; [discriminate |].
  unfold bind at 1 in H.
  destruct (database.get_user_accounts rt _ w0) as [[err | accts] w1]; [discriminate |].
  unfold bind in H.
  destruct (get_budget_comparison.collect rt _ _ _ _ accts w1)
    as [[err | ca] w2]; [discriminate |].
  injection H as <- <- <-.
  exists month, budget, ca. split; [reflexivity |]. split; [| reflexivity].
  unfold get_budget_comparison.get_user_budget, try_except, database.db_call in Hbudget.
  destruct (db_fault rt (db_calls w)); injection Hbudget as <- _; reflexivity.
Qed.

End budget_rows.

(** X15. A month without a budget: when the user has no budget
    item for the month, or the read of it fails, the request is not failed
    for it, and a 200 of the budget handler shows a budget of 0 and a share
    used of 0 and flags nothing as over budget, neither the total nor any
    category, however much was spent; its rows are the categories of the
    month's tally, each once, in strictly increasing order of name, each
    with a budget of 0. *)
Theorem month_without_budget_flags_nothing (rt : runtime)
    (ev : get_budget_comparison.event) (w w' : world) (status : Z)
    (body : get_budget_comparison.budget_body) (month : string) :
  get_budget_comparison.handler rt ev w = (Body status body, w') ->
  get_budget_comparison.ev_month ev = Some month ->
  is_Some (db_fault rt (db_calls w))
  ∨ budgets w !! ("USER#" +:+ get_budget_comparison.ev_user_id ev, "BUDGET#" +:+ month)
    = None ->
  ∃ category_actual,
    let rows := get_budget_comparison.by_category body in
    let names := get_budget_comparison.category_name <$> rows in
    get_budget_comparison.total_budgeted body = 0%Qc
    ∧ get_budget_comparison.total_actual body
      = Num.round (Num.sum (Dict.values category_actual)) 2
    ∧ get_budget_comparison.percent_used body = 0%Qc
    ∧ get_budget_comparison.total_is_over_budget body = false
    ∧ names_increase names
    ∧ (∀ c, c ∈ names <-> c ∈ Dict.keys category_actual)
    ∧ (∀ row, row ∈ rows ->
         get_budget_comparison.budgeted row = 0%Qc
         ∧ get_budget_comparison.is_over_budget row = false
         ∧ get_budget_comparison.actual row
           = Num.round (default 0%Qc (Dict.get (get_budget_comparison.category_name row)
                                               category_actual)) 2).
Proof.
  intros Hrun Hmonth Hnone.
  destruct (budget_handler_inv rt ev w status body w' Hrun)
    as (month' & budget & ca & Hmonth' & Hbudget & ->).
  rewrite Hmonth in Hmonth'. injection Hmonth' as <-.
  assert (Hb : budget = None).
  { destruct Hnone as [[e He] | Hnone].
    - rewrite He in Hbudget. exact Hbudget.
    - destruct (db_fault rt (db_calls w)); [exact Hbudget | congruence]. }
  subst budget. exists ca. cbv zeta. unfold get_budget_comparison.body_of.
  cbn [get_budget_comparison.by_category get_budget_comparison.total_is_over_budget
       get_budget_comparison.percent_used get_budget_comparison.total_budgeted
       get_budget_comparison.total_actual mbind option_bind default from_option id].
  rewrite <- list_fmap_compose.
  change (get_budget_comparison.category_name ∘ get_budget_comparison.row_of [] ca)
    with (@id string).
  rewrite list_fmap_id.
  assert (Hno : ∀ a, get_budget_comparison.over a 0 = false).
  { intros a. destruct (get_budget_comparison.over a 0) eqn:E; [| reflexivity].
    apply over_true in E as [E _]. exfalso. revert E. apply Qclt_irreflexive. }
  split; [apply Num_round_zero |]. split; [reflexivity |].
  split.
  { unfold Num.gtb. rewrite bool_decide_eq_false_2 by apply Qclt_irreflexive.
    apply Num_round_zero. }
  split; [apply Hno |].
  split; [apply all_categories_sorted |].
  split.
  { intros c. rewrite all_categories_elem. cbn. rewrite elem_of_nil. tauto. }
  intros row Hrow. apply list_elem_of_fmap in Hrow as (name & -> & _).
  cbn. split; [apply Num_round_zero |]. split; [apply Hno | reflexivity].
Qed.

Lemma month_without_budget_flags_nothing_witness :
  match get_budget_comparison.handler (Demo.with_fault 0 Demo.plain_rt)
          demo_march_budget demo_mixed_ledger with
  | (Body _ body, _) =>
      get_budget_comparison.percent_used body = 0%Qc
      ∧ get_budget_comparison.category_name <$> get_budget_comparison.by_category body
        = ["Food"; "Rent"]
  | _ => False
  end.
Proof.
  destruct (get_budget_comparison.handler (Demo.with_fault 0 Demo.plain_rt)
              demo_march_budget demo_mixed_ledger)
    as [[status body | status code message] w'] eqn:Hrun.
  - destruct (month_without_budget_flags_nothing _ _ _ _ _ _ "2024-03" Hrun eq_refl)
      as (ca & _ & _ & Hshare & _).
    { left. eexists. reflexivity. }
    split; [exact Hshare |].
    apply (f_equal (fun x => match x.1 with
                             | Body _ b => get_budget_comparison.category_name
                                             <$> get_budget_comparison.by_category b
                             | _ => []
                             end)) in Hrun.
    cbn beta iota delta [fst] in Hrun. rewrite <- Hrun. vm_compute. reflexivity.
  - apply (f_equal fst) in Hrun. vm_compute in Hrun. discriminate Hrun.
Defined.

Section savings_report_properties.
Import get_savings_progress.

(* ===================================================================== *)
(** * Savings progress: the report over the active goals *)
(* ===================================================================== *)

Section progress_report.
Variable rt : runtime.

Lemma get_user_goals_active user_id w :
  db_fault rt (db_calls w) = None ->
  ∃ listed,
    database.get_user_goals rt user_id "active" w = (Returned listed, tick_db w)
    ∧ ∀ goal, goal ∈ listed <-> reported user_id goal w.
Proof.
  intros Hfault.
  unfold database.get_user_goals, bind, database.query_by_pk, database.db_call.
  rewrite Hfault. cbn [ret]. change (the_table (tick_db w)) with (goals w).
  assert (E : negb (String.eqb "active" "all") = true) by reflexivity.
  rewrite E. eexists. split; [reflexivity |]. intros goal.
  rewrite list_elem_of_filter, query_items_all. unfold reported. split.
  - intros [Hs (sk & Hsk & Hp)]. exists sk. repeat split; assumption.
  - intros (sk & Hsk & Hp & Hs). split; [exact Hs |]. exists sk. split; assumption.
Qed.

(** A loop raises when its body raises at one of the elements, whatever the
    state it is reached in. *)
Lemma for_fold_raises_at {A S} (xs : list A) (body : S -> A -> M S) (x : A) :
  x ∈ xs ->
  (∀ s w, ∃ e w', body s x w = (Raised e, w')) ->
  ∀ s w, ∃ e w', for_fold xs body s w = (Raised e, w').
Proof.
  intros Hin Hx. induction xs as [| y xs IH]; intros s w.
  - apply elem_of_nil in Hin. contradiction.
  - simpl. unfold bind.
    destruct (body s y w) as [[e | s1] w1] eqn:Hy; [eauto |].
    apply elem_of_cons in Hin as [-> | Hin].
    + destruct (Hx s w) as (e & w' & He). congruence.
    + apply IH, Hin.
Qed.

Lemma report_fails_with_a_projection (user_id : string) (goal : goal_item) (w : world) :
  db_fault rt (db_calls w) = None ->
  reported user_id goal w ->
  (∀ w0, ∃ e w', calculate_projected_completion rt goal w0 = (Raised e, w')) ->
  ∃ w', handler rt user_id w
        = (internal_error "Failed to retrieve savings progress", w').
Proof.
  intros Hfault Hreported Hraises.
  destruct (get_user_goals_active user_id w Hfault) as (listed & Hlist & Hin).
  unfold handler, handler_try, bind at 1. rewrite Hlist. unfold bind at 1.
  destruct (for_fold_raises_at listed (add_goal rt) goal) with
    (s := {| goal_progress := []; total_saved := 0%Qc; total_target := 0%Qc |})
    (w := tick_db w) as (e & w' & Hloop).
  - apply Hin, Hreported.
  - intros s w0. unfold add_goal, bind.
    destruct (Hraises w0) as (e & w' & He). rewrite He. eauto.
  - rewrite Hloop. eauto.
Qed.

Lemma reached_goal_raises (goal : goal_item) (w : world) :
  target_reached rt goal -> created_with_offset rt goal ->
  calculate_projected_completion rt goal w
  = (Raised (TypeError "can't compare offset-naive and offset-aware datetimes"),
     tick_clock w).
Proof.
  intros (d & t & Hd & Hne & [target Htarget] & Ht & Hpos & Hreached) [created Hcreated].
  unfold calculate_projected_completion. rewrite Hd, Ht.
  cbn [default from_option id].
  rewrite (proj2 (is_empty_false d) Hne).
  assert (Hleb : Num.leb t 0 = false).
  { unfold Num.leb. apply bool_decide_eq_false. apply Qclt_not_le, Hpos. }
  rewrite Hleb. cbn [orb]. rewrite Htarget.
  change (from_option id EmptyString (g_created_at goal)) with (default EmptyString (g_created_at goal)).
  rewrite Hcreated.
  unfold bind, database.datetime_utcnow.
  assert (Hrem : Num.leb (t - from_option id 0%Qc (g_current_amount goal)) 0 = true).
  { unfold Num.leb. apply bool_decide_eq_true.
    unfold default in Hreached.
    apply Qcle_minus_iff in Hreached. apply Qcle_minus_iff.
    replace (0 + - (t - from_option id 0%Qc (g_current_amount goal)))%Qc
      with (from_option id 0%Qc (g_current_amount goal) + - t)%Qc by ring.
    exact Hreached. }
  rewrite Hrem. reflexivity.
Qed.

End progress_report.

(** X16. The savings report fails as a whole on a goal that has
    reached its target.  When the goals it covers include one that has a
    target date, a positive target amount that its current amount has
    reached, and a creation time with a UTC offset, which is what the Z that
    ends every stored time parses to, then the comparison of the two dates
    raises, nothing catches it before the outer handler, and the answer is
    the 500 of the report, whatever the other goals are. *)
Theorem report_fails_on_a_goal_that_reached_its_target (rt : runtime)
    (user_id : string) (goal : goal_item) (w : world) :
  db_fault rt (db_calls w) = None ->
  reported user_id goal w ->
  target_reached rt goal ->
  created_with_offset rt goal ->
  (∀ w0, calculate_projected_completion rt goal w0
         = (Raised (TypeError "can't compare offset-naive and offset-aware datetimes"),
            tick_clock w0))
  ∧ ∃ w', handler rt user_id w
          = (internal_error "Failed to retrieve savings progress", w').
Proof.
  intros Hfault Hreported Hreached Hcreated. split.
  - intros w0. apply reached_goal_raises; assumption.
  - apply (report_fails_with_a_projection rt user_id goal w Hfault Hreported).
    intros w0. eexists. eexists. apply reached_goal_raises; assumption.
Qed.

Lemma report_fails_on_a_goal_that_reached_its_target_witness :
  status_of (handler demo_uuid_rt Demo.user demo_world_with_reached_goal).1 = 500.
Proof.
  destruct (goals demo_world_with_reached_goal !! goal_key Demo.user (demo_uuid 0))
    as [goal |] eqn:Hgoal; [| vm_compute in Hgoal; discriminate Hgoal].
  destruct (report_fails_on_a_goal_that_reached_its_target demo_uuid_rt Demo.user goal
              demo_world_with_reached_goal) as [_ [w' Hrun]].
  - reflexivity.
  - exists ("GOAL#" +:+ demo_uuid 0). split; [exact Hgoal |]. split; [reflexivity |].
    vm_compute in Hgoal. injection Hgoal as <-. reflexivity.
  - vm_compute in Hgoal. injection Hgoal as <-.
    exists "2025-01-01". eexists. split; [reflexivity |]. split; [discriminate |].
    split; [eexists; vm_compute; reflexivity |]. split; [reflexivity |].
    split; vm_compute; [reflexivity | discriminate].
  - vm_compute in Hgoal. injection Hgoal as <-. eexists. vm_compute. reflexivity.
  - rewrite Hrun. reflexivity.
Defined.

Section report_totals.
Variable rt : runtime.

(** A goal is only ever reported on track together with a date. *)
Lemma on_track_has_a_date goal w date on_track monthly w' :
  calculate_projected_completion rt goal w = (Returned (date, on_track, monthly), w') ->
  on_track = true -> is_Some date.
Proof.
  unfold calculate_projected_completion. intros H Htrack. subst on_track.
  destruct (g_target_date goal) as [d |]; [| discriminate H].
  destruct (_ || _); [discriminate H |].
  destruct (strptime_ymd rt d) as [target |]; [| discriminate H].
  destruct (fromisoformat rt _) as [[created aware] |]; [| discriminate H].
  unfold bind, database.datetime_utcnow in H.
  destruct (Num.leb _ 0).
  { destruct aware; [discriminate H |].
    destruct (created <? target).
    - destruct (_ =? 0); [discriminate H |]. injection H as <- _ _. eauto.
    - injection H as <- _ _. eauto. }
  destruct (_ <=? 0); [injection H as <- _ _; eauto |].
  destruct (_ <=? 0); [discriminate H |].
  destruct (Num.gtb _ 0); [| discriminate H].
  unfold timedelta_days, datetime_add in H.
  destruct (Z.abs _ <=? _); cbn [ret raise] in H; [| discriminate H].
  destruct (_ && _); cbn [ret raise] in H; [| discriminate H].
  injection H as <- _ _. eauto.
Qed.

(** The projection reads the clock at most once and touches nothing else. *)
Lemma projection_reads_the_clock goal w r w' :
  calculate_projected_completion rt goal w = (r, w') -> w' = w ∨ w' = tick_clock w.
Proof.
  unfold calculate_projected_completion. intros H.
  destruct (g_target_date goal) as [d |]; [| injection H as _ <-; left; reflexivity].
  destruct (_ || _); [injection H as _ <-; left; reflexivity |].
  destruct (strptime_ymd rt d) as [target |];
    [| injection H as _ <-; left; reflexivity].
  destruct (fromisoformat rt _) as [[created aware] |];
    [| injection H as _ <-; left; reflexivity].
  right. unfold bind, database.datetime_utcnow in H.
  destruct (Num.leb _ 0).
  { destruct aware; [injection H as _ <-; reflexivity |].
    destruct (created <? target); [| injection H as _ <-; reflexivity].
    destruct (_ =? 0); injection H as _ <-; reflexivity. }
  destruct (_ <=? 0); [injection H as _ <-; reflexivity |].
  destruct (_ <=? 0); [injection H as _ <-; reflexivity |].
  destruct (Num.gtb _ 0); [| injection H as _ <-; reflexivity].
  unfold timedelta_days, datetime_add in H.
  destruct (Z.abs _ <=? _); cbn [ret raise] in H;
    [| injection H as _ <-; reflexivity].
  destruct (_ && _); cbn [ret raise] in H; injection H as _ <-; reflexivity.
Qed.

Lemma add_goal_returns t goal w t' w' :
  add_goal rt t goal w = (Returned t', w') ->
  ∃ row,
    t' = {| goal_progress := goal_progress t ++ [row];
            total_saved := (total_saved t + gs_current_amount (summary goal))%Qc;
            total_target := (total_target t + gs_target_amount (summary goal))%Qc |}
    ∧ pr_goal row = summary goal
    ∧ (pr_on_track row = true -> is_Some (pr_projected_completion_date row))
    ∧ goals w' = goals w.
Proof.
  unfold add_goal, bind. intros H.
  destruct (calculate_projected_completion rt goal w) as [[e | [[d b] m]] w1] eqn:Hcalc;
    [discriminate |].
  injection H as <- <-. exists (row_of goal (d, b, m)).
  split; [reflexivity |]. split; [reflexivity |]. split.
  { cbn. intros Hb. eapply on_track_has_a_date; eassumption. }
  apply projection_reads_the_clock in Hcalc as [-> | ->]; reflexivity.
Qed.

Lemma report_loop listed : ∀ t w t' w',
  for_fold listed (add_goal rt) t w = (Returned t', w') ->
  ∃ rows,
    goal_progress t' = goal_progress t ++ rows
    ∧ pr_goal <$> rows = summary <$> listed
    ∧ total_saved t' = (total_saved t + Num.sum (gs_current_amount <$> (summary <$> listed)))%Qc
    ∧ total_target t' = (total_target t + Num.sum (gs_target_amount <$> (summary <$> listed)))%Qc
    ∧ Forall (fun row => pr_on_track row = true
                         -> is_Some (pr_projected_completion_date row)) rows
    ∧ goals w' = goals w.
Proof.
  induction listed as [| goal listed IH]; intros t w t' w' H; simpl in H.
  - injection H as <- <-. exists []. rewrite app_nil_r.
    change (Num.sum _) with 0%Qc. rewrite !Qcplus_0_r. repeat split. constructor.
  - unfold bind at 1 in H.
    destruct (add_goal rt t goal w) as [[e | t1] w1] eqn:Hgoal; [discriminate |].
    apply add_goal_returns in Hgoal
      as (row & -> & Hsummary & Htrack & Hgoals).
    apply IH in H as (rows & Hrows & Hsum & Hsaved & Htarget & Hall & Hgoals').
    cbn [goal_progress total_saved total_target] in *.
    exists (row :: rows). rewrite Hrows, <- app_assoc. split; [reflexivity |].
    rewrite !fmap_cons, Hsummary, Hsum, Hsaved, Htarget, !Num_sum_cons.
    split; [reflexivity |]. split; [ring |]. split; [ring |].
    split; [constructor; assumption |]. congruence.
Qed.

End report_totals.

(** X17. A 200 of the savings report has one row for each goal
    it covers, the goals stored in the user's partition under a GOAL# key
    whose status is active or absent; the amount saved and the target it
    shows are the sums over its rows, rounded to two places, and the overall
    progress is the first sum over the second, or 0 when the second is not
    positive, rounded to four places; a row is never on track without a
    projected date; and the goals table is left as it was. *)
Theorem progress_report_adds_up (rt : runtime) (user_id : string) (w w' : world)
    (status : Z) (body : progress_body) :
  handler rt user_id w = (Body status body, w') ->
  ∃ listed,
    (∀ goal, goal ∈ listed <-> reported user_id goal w)
    ∧ pr_goal <$> pb_goals body = summary <$> listed
    ∧ let saved := Num.sum (gs_current_amount <$> (pr_goal <$> pb_goals body)) in
      let target := Num.sum (gs_target_amount <$> (pr_goal <$> pb_goals body)) in
      pb_total_saved body = Num.round saved 2
      ∧ pb_total_target body = Num.round target 2
      ∧ pb_overall_progress body
        = Num.round (if Num.gtb target 0 then (saved / target)%Qc else 0%Qc) 4
    ∧ Forall (fun row => pr_on_track row = true
                         -> is_Some (pr_projected_completion_date row)) (pb_goals body)
    ∧ goals w' = goals w.
Proof.
  unfold handler, handler_try. intros H. unfold bind at 1 in H.
  destruct (database.get_user_goals rt user_id "active" w) as [[e | listed] w1] eqn:Hlist;
    [discriminate |].
  assert (Hfault : db_fault rt (db_calls w) = None).
  { unfold database.get_user_goals, bind, database.query_by_pk, database.db_call in Hlist.
    destruct (db_fault rt (db_calls w)); [discriminate | reflexivity]. }
  destruct (get_user_goals_active rt user_id w Hfault) as (listed' & Hlist' & Hin).
  rewrite Hlist' in Hlist. injection Hlist as -> <-.
  unfold bind in H.
  destruct (for_fold listed (add_goal rt) _ (tick_db w)) as [[e | t] w2] eqn:Hloop;
    [discriminate |].
  injection H as <- <- <-.
  apply report_loop in Hloop as (rows & Hrows & Hsum & Hsaved & Htarget & Hall & Hgoals).
  cbn [goal_progress total_saved total_target app] in *.
  exists listed. split; [exact Hin |].
  unfold body_of. cbn [pb_goals pb_total_saved pb_total_target pb_overall_progress].
  rewrite Hrows, Hsum, Hsaved, Htarget, !Qcplus_0_l.
  repeat split; try assumption.
Qed.

Lemma progress_report_adds_up_witness :
  match handler demo_uuid_rt Demo.user demo_world_with_goal with
  | (Body _ body, _) =>
      gs_title <$> (pr_goal <$> pb_goals body) = [Some "Emergency fund"]
      ∧ pb_total_saved body
        = Num.round (Num.sum (gs_current_amount <$> (pr_goal <$> pb_goals body))) 2
  | _ => False
  end.
Proof.
  destruct (handler demo_uuid_rt Demo.user demo_world_with_goal)
    as [[status body | status code message] w'] eqn:Hrun.
  - destruct (progress_report_adds_up _ _ _ _ _ _ Hrun)
      as (listed & _ & _ & Hsaved & _).
    split; [| exact Hsaved].
    apply (f_equal (fun x => match x.1 with
                             | Body _ b => gs_title <$> (pr_goal <$> pb_goals b)
                             | _ => []
                             end)) in Hrun.
    cbn beta iota delta [fst] in Hrun. rewrite <- Hrun. vm_compute. reflexivity.
  - apply (f_equal fst) in Hrun. vm_compute in Hrun. discriminate Hrun.
Defined.

(* ===================================================================== *)
(** * A projection that leaves the calendar *)
(* ===================================================================== *)

Lemma of_Z_positive (n : Z) : 0 < n -> (0 < Num.of_Z n)%Qc.
Proof.
  intros H. unfold Num.of_Z, Qclt. cbn [this Q2Qc].
  rewrite (Qred_correct (inject_Z n)). change (Qred 0) with 0%Q.
  unfold Qlt. cbn. lia.
Qed.

Lemma Qcdiv_positive (a b : Qc) : (0 < a)%Qc -> (0 < b)%Qc -> (0 < a / b)%Qc.
Proof.
  intros Ha Hb.
  assert (Hinv : (0 < / b)%Qc).
  { unfold Qclt. cbn [this Qcinv Q2Qc]. rewrite (Qred_correct (/ this b)).
    apply Qinv_lt_0_compat. exact Hb. }
  unfold Qcdiv. rewrite <- (Qcmult_0_l (/ b)).
  apply Qcmult_lt_compat_r; assumption.
Qed.

(** X18. The projection of a goal that is saved for too
    slowly does not return.  For a goal with a positive target amount not yet
    reached, a target date still ahead, a creation at least one whole day
    back and a positive current amount, the number of days to completion is
    the remaining amount over the daily rate, cut to an integer; when it
    exceeds what [timedelta] takes, or when that many days from now fall
    outside the calendar of [datetime], the function raises [OverflowError],
    having read the clock once. *)
Theorem projection_beyond_the_calendar_raises (rt : runtime) (goal : goal_item)
    (w : world) (target_date : string) (target created : Z) (aware : bool) :
  g_target_date goal = Some target_date ->
  Str.is_empty target_date = false ->
  let current_amount := default 0%Qc (g_current_amount goal) in
  let target_amount := default 0%Qc (g_target_amount goal) in
  let now := utcnow rt (clock_reads w) in
  let days_elapsed := days_of (now - created) in
  let daily_rate := (current_amount / Num.of_Z days_elapsed)%Qc in
  let days_to_complete := Num.trunc ((target_amount - current_amount) / daily_rate) in
  (0 < target_amount)%Qc ->
  strptime_ymd rt target_date = Some target ->
  fromisoformat rt (replace_Z (default EmptyString (g_created_at goal))) = Some (created, aware) ->
  (0 < current_amount)%Qc ->
  (current_amount < target_amount)%Qc ->
  0 < days_elapsed ->
  0 < days_of (target - now) ->
  999999999 < Z.abs days_to_complete
  ∨ ¬ (0 ≤ now + days_to_complete * usec_per_day < max_ticks) ->
  ∃ message,
    calculate_projected_completion rt goal w
    = (Raised (OverflowError message), tick_clock w).
Proof.
  intros Hdate Hne current_amount target_amount now days_elapsed daily_rate
    days_to_complete Hpos Htarget Hcreated Hsaved Hbelow Helapsed Hahead Hfar.
  unfold calculate_projected_completion. rewrite Hdate, Hne.
  fold target_amount current_amount.
  assert (Hleb : Num.leb target_amount 0 = false).
  { unfold Num.leb. apply bool_decide_eq_false_2, Qclt_not_le, Hpos. }
  rewrite Hleb. cbn [orb]. rewrite Htarget, Hcreated.
  unfold bind at 1, database.datetime_utcnow. fold now.
  assert (Hremaining : Num.leb (target_amount - current_amount) 0 = false).
  { unfold Num.leb. apply bool_decide_eq_false_2, Qclt_not_le.
    unfold Qclt, Qcminus, Qcplus, Qcopp in *. cbn [this Q2Qc] in *.
    rewrite !Qred_correct. change (this (Q2Qc 0)) with 0%Q in *.
    revert Hbelow. generalize (this target_amount), (this current_amount).
    intros a b Hab. lra. }
  rewrite Hremaining. fold days_elapsed.
  rewrite (proj2 (Z.leb_gt _ _) Helapsed), (proj2 (Z.leb_gt _ _) Hahead).
  fold daily_rate.
  assert (Hrate : Num.gtb daily_rate 0 = true).
  { apply Num_gtb_true. apply Qcdiv_positive; [exact Hsaved |].
    apply of_Z_positive, Helapsed. }
  rewrite Hrate. fold days_to_complete.
  unfold bind, timedelta_days, datetime_add.
  destruct (Z.abs days_to_complete <=? 999999999) eqn:Habs; cbn [ret raise].
  - apply Z.leb_le in Habs. destruct Hfar as [Hfar | Hfar]; [lia |].
    destruct ((0 <=? now + days_to_complete * usec_per_day)
              && (now + days_to_complete * usec_per_day <? max_ticks)) eqn:Hin.
    + exfalso. apply Hfar. apply andb_true_iff in Hin as [H1 H2].
      apply Z.leb_le in H1. apply Z.ltb_lt in H2. split; assumption.
    + eexists. reflexivity.
  - eexists. reflexivity.
Qed.

Lemma projection_beyond_the_calendar_raises_witness :
  ∃ message,
    calculate_projected_completion Demo.plain_rt demo_slow_goal Demo.world0
    = (Raised (OverflowError message), tick_clock Demo.world0).
Proof.
  apply (projection_beyond_the_calendar_raises Demo.plain_rt demo_slow_goal Demo.world0
           "2030-01-01" (Calendar.days_from_civil 2030 1 1 * usec_per_day)
           (Calendar.days_from_civil 2024 1 15 * usec_per_day) true).
  - reflexivity.
  - reflexivity.
  - reflexivity.
  - reflexivity.
  - reflexivity.
  - reflexivity.
  - reflexivity.
  - reflexivity.
  - reflexivity.
  - right. vm_compute. intros [_ H]. discriminate H.
Defined.

End savings_report_properties.

Section transaction_listing_properties.
Import get_transactions.

(* ===================================================================== *)
(** * The listing of an account's transactions *)
(* ===================================================================== *)

Lemma get_query_param_int_bounds name param default lo hi r :
  validation.get_query_param_int name param default (Some lo) hi = Returned r ->
  lo ≤ default -> (∀ h, hi = Some h -> lo ≤ h ∧ default ≤ h) ->
  lo ≤ r ∧ ∀ h, hi = Some h -> r ≤ h.
Proof.
  unfold validation.get_query_param_int. intros H Hdefault Hhi.
  destruct param as [value |].
  - destruct (validation.int value) as [n |]; [| discriminate].
    destruct hi as [h |]; injection H as <-.
    + destruct (Hhi h eq_refl) as [Hlo _].
      destruct (n <? lo) eqn:E1; [| apply Z.ltb_ge in E1].
      * destruct (h <? lo) eqn:E2; [apply Z.ltb_lt in E2; lia |].
        split; [lia |]. intros ? [= <-]. lia.
      * destruct (h <? n) eqn:E2; [apply Z.ltb_lt in E2 | apply Z.ltb_ge in E2];
          (split; [lia |]); intros ? [= <-]; lia.
    + split; [| intros ? [=]]. destruct (n <? lo) eqn:E1; [| apply Z.ltb_ge in E1]; lia.
  - injection H as <-. split; [exact Hdefault |].
    intros h Hh. apply (Hhi h Hh).
Qed.

Lemma filter_date_sublist keep txns : ∀ kept,
  filter_date keep txns = Returned kept -> kept `sublist_of` txns.
Proof.
  induction txns as [| t rest IH]; intros kept H; simpl in H.
  - injection H as <-. reflexivity.
  - destruct (date_prefix t); [discriminate |].
    destruct (filter_date keep rest) as [e | kept'] eqn:Hrest; [discriminate |].
    specialize (IH kept' eq_refl).
    injection H as <-. destruct (keep _).
    + apply sublist_skip, IH.
    + apply sublist_cons, IH.
Qed.

Lemma body_of_page txns limit offset :
  1 ≤ limit ->
  let body := body_of txns limit offset in
  let page := pb_pagination body in
  (length (pb_transactions body) ≤ Z.to_nat limit)%nat
  ∧ (pg_has_more page = true -> length (pb_transactions body) = Z.to_nat limit)
  ∧ (pg_has_more page = true <-> (Z.to_nat limit < length txns)%nat)
  ∧ pg_limit page = limit ∧ pg_offset page = offset
  ∧ pg_total page = Z.of_nat (length (pb_transactions body)) + offset
                    + (if pg_has_more page then 1 else 0)
  ∧ ∃ kept, pb_transactions body = format_txn <$> kept ∧ kept `sublist_of` txns.
Proof.
  intros Hlimit. cbv zeta. unfold body_of.
  cbn [pb_transactions pb_pagination pg_has_more pg_limit pg_offset pg_total].
  destruct (limit <? Z.of_nat (length txns)) eqn:E;
    [apply Z.ltb_lt in E | apply Z.ltb_ge in E].
  - rewrite length_fmap, length_take.
    repeat split; try lia.
    exists (take (Z.to_nat limit) txns). split; [reflexivity |]. apply sublist_take.
  - rewrite length_fmap.
    repeat split; try lia; try discriminate.
    exists txns. split; reflexivity.
Qed.

Section listing.
Variable rt : runtime.

(** A 200 of the listing: the limit and the offset it worked with, what
    was fetched, and what was kept of it. *)
Lemma handler_inv ev w status body w' :
  handler rt ev w = (Body status body, w') ->
  ∃ account_id limit offset fetched kept,
    ev_account_id ev = Some account_id
    ∧ validation.get_query_param_int "limit" (ev_limit ev) 50 (Some 1) (Some 500)
      = Returned limit
    ∧ validation.get_query_param_int "offset" (ev_offset ev) 0 (Some 0) None
      = Returned offset
    ∧ database.get_account_transactions rt (ev_user_id ev) account_id
        (Z.to_nat (limit + 1)) (Z.to_nat offset) (tick_db w) = (Returned fetched, w')
    ∧ kept `sublist_of` fetched
    ∧ (missing (ev_start_date ev) = true -> missing (ev_end_date ev) = true ->
       missing (ev_category ev) = true -> kept = fetched)
    ∧ body = body_of kept limit offset.
Proof.
  unfold handler, handler_try. intros H.
  destruct (ev_account_id ev) as [account_id |]; [| exits H].
  destruct (Str.is_empty account_id); [exits H |].
  destruct (negb _); [exits H |].
  unfold bind at 1 in H.
  unfold database.get_account, database.get_by_id, database.db_call in H.
  destruct (db_fault rt (db_calls w)); [exits H |].
  destruct (the_table (tick_db w) !! _); [| exits H].
  unfold bind at 1, lift_reply in H.
  destruct (validation.get_query_param_int "limit" _ _ _ _) as [e | limit] eqn:Hlimit;
    [exits H |].
  unfold bind at 1, lift_reply in H.
  destruct (validation.get_query_param_int "offset" _ _ _ _) as [e | offset] eqn:Hoffset;
    [exits H |].
  destruct (_ && _); [exits H |]. destruct (_ && _); [exits H |].
  unfold bind at 1 in H.
  destruct (database.get_account_transactions rt _ _ _ _ (tick_db w))
    as [[e | fetched] w1] eqn:Hfetch; [exits H |].
  assert (Hkept : ∃ kept,
            kept `sublist_of` fetched
            ∧ (missing (ev_start_date ev) = true -> missing (ev_end_date ev) = true ->
               missing (ev_category ev) = true -> kept = fetched)
            ∧ w' = w1 ∧ status = 200 ∧ body = body_of kept limit offset).
  { unfold bind at 1 in H.
    destruct (missing (ev_start_date ev)) eqn:Hstart.
    - unfold bind at 1 in H. cbn [ret] in H.
      destruct (missing (ev_end_date ev)) eqn:Hend.
      + cbn [ret] in H. injection H as <- <- <-.
        destruct (missing (ev_category ev)) eqn:Hcat.
        * exists fetched. split; [reflexivity |]. repeat split.
        * eexists. split; [| split; [| repeat split]].
          -- apply sublist_filter.
          -- intros _ _ Hno. discriminate Hno.
      + unfold lift_reply in H.
        destruct (filter_date _ fetched) as [e | kept2] eqn:Hf2; [exits H |].
        cbn [ret] in H. injection H as <- <- <-.
        apply filter_date_sublist in Hf2 as Hsub2.
        destruct (missing (ev_category ev)) eqn:Hcat.
        * exists kept2. split; [exact Hsub2 |].
          split; [intros _ Hno; discriminate Hno |]. repeat split.
        * eexists. split; [| split; [| repeat split]].
          -- etransitivity; [apply sublist_filter | exact Hsub2].
          -- intros _ Hno. discriminate Hno.
    - unfold lift_reply in H.
      destruct (filter_date _ fetched) as [e | kept1] eqn:Hf1; [exits H |].
      apply filter_date_sublist in Hf1 as Hsub1.
      unfold bind at 1 in H.
      destruct (missing (ev_end_date ev)) eqn:Hend.
      + cbn [ret] in H. injection H as <- <- <-.
        destruct (missing (ev_category ev)) eqn:Hcat.
        * exists kept1. split; [exact Hsub1 |].
          split; [intros Hno; discriminate Hno |]. repeat split.
        * eexists. split; [| split; [| repeat split]].
          -- etransitivity; [apply sublist_filter | exact Hsub1].
          -- intros Hno. discriminate Hno.
      + destruct (filter_date _ kept1) as [e | kept2] eqn:Hf2; [exits H |].
        cbn [ret] in H. injection H as <- <- <-.
        apply filter_date_sublist in Hf2 as Hsub2.
        destruct (missing (ev_category ev)) eqn:Hcat.
        * exists kept2. split; [etransitivity; eassumption |].
          split; [intros Hno; discriminate Hno |]. repeat split.
        * eexists. split; [| split; [| repeat split]].
          -- etransitivity; [apply sublist_filter | etransitivity; eassumption].
          -- intros Hno. discriminate Hno. }
  destruct Hkept as (kept & Hsub & Hall & -> & _ & ->).
  exists account_id, limit, offset, fetched, kept. repeat split; assumption.
Qed.

Lemma get_account_transactions_no_fault user_id account_id limit offset w fetched w' :
  database.get_account_transactions rt user_id account_id limit offset w
  = (Returned fetched, w') ->
  db_fault rt (db_calls w) = None.
Proof.
  unfold database.get_account_transactions, database.query_by_pk, bind,
    database.db_call.
  destruct (db_fault rt (db_calls w)); [intros H; exits H | reflexivity].
Qed.

(** X19. Whatever the filters, a page of transactions that is answered
    with 200 is consistent: the limit in force is between 1 and 500 and the
    offset is not negative, the page holds at most [limit] rows and exactly
    [limit] of them when it announces more, the total it reports is the
    number of rows plus the offset, plus one when more are announced; every
    row is a transaction stored in the partition of the account that was
    asked for, and the request has changed no table. *)
Theorem transaction_page_is_consistent (ev : event) (w w' : world) (body : page_body) :
  handler rt ev w = (Body 200 body, w') ->
  let rows := pb_transactions body in
  let page := pb_pagination body in
  1 ≤ pg_limit page ≤ 500
  ∧ 0 ≤ pg_offset page
  ∧ Z.of_nat (length rows) ≤ pg_limit page
  ∧ (pg_has_more page = true -> Z.of_nat (length rows) = pg_limit page)
  ∧ pg_total page
    = Z.of_nat (length rows) + pg_offset page + (if pg_has_more page then 1 else 0)
  ∧ (∃ account_id, ev_account_id ev = Some account_id
       ∧ ∀ row, row ∈ rows ->
           ∃ txn sk, row = format_txn txn
                     ∧ transactions w !! ("ACCOUNT#" +:+ account_id, sk) = Some txn
                     ∧ String.prefix "TXN#" sk = true)
  ∧ same_tables w w'.
Proof.
  intros H rows page.
  apply handler_inv in H
    as (account_id & limit & offset & fetched & kept
        & Hid & Hlimit & Hoffset & Hfetch & Hsub & _ & Hbody).
  apply get_query_param_int_bounds in Hlimit as [Hlo Hhi];
    [| lia | intros h [= <-]; lia].
  specialize (Hhi 500 eq_refl).
  apply get_query_param_int_bounds in Hoffset as [Hzero _];
    [| lia | intros h [=]].
  pose proof (get_account_transactions_no_fault _ _ _ _ _ _ _ Hfetch) as Hfault.
  rewrite (get_account_transactions_returns rt _ _ _ _ _ Hfault) in Hfetch.
  injection Hfetch as <- <-.
  destruct (body_of_page kept limit offset Hlo)
    as (Hlen & Hmore & _ & Hl & Ho & Htotal & shown & Hshown & Hshown_sub).
  fold page rows in Hlen, Hmore, Hl, Ho, Htotal, Hshown.
  subst body. fold page rows in Hlen, Hmore, Hl, Ho, Htotal, Hshown.
  rewrite Hl, Ho.
  split; [lia |]. split; [exact Hzero |]. split; [lia |].
  split; [intros Hm; specialize (Hmore Hm); lia |].
  split; [exact Htotal |].
  split; [| repeat split].
  exists account_id. split; [exact Hid |].
  intros row Hrow. rewrite Hshown in Hrow.
  apply list_elem_of_fmap in Hrow as (txn & -> & Hin).
  assert (Hlisted : txn ∈ database.query_items ("ACCOUNT#" +:+ account_id) "TXN#" None false
                           (transactions w)).
  { eapply elem_of_sublist; [exact Hin |].
    etransitivity; [exact Hshown_sub |]. etransitivity; [exact Hsub |].
    etransitivity; [apply sublist_take | apply sublist_drop]. }
  apply query_items_all in Hlisted as (sk & Hstored & Hsk).
  exists txn, sk. repeat split; assumption.
Qed.

(** X20. Without a date or category filter the page is exactly
    the slice of the account's listing (most recent sort key first) that
    starts at the offset and has at most [limit] items, and it announces
    more exactly when the listing goes on after the slice. *)
Theorem unfiltered_page_follows_the_listing (ev : event) (w w' : world)
    (body : page_body) :
  handler rt ev w = (Body 200 body, w') ->
  missing (ev_start_date ev) = true ->
  missing (ev_end_date ev) = true ->
  missing (ev_category ev) = true ->
  ∃ account_id,
    ev_account_id ev = Some account_id
    ∧ let listing := database.query_items ("ACCOUNT#" +:+ account_id) "TXN#" None false
                       (transactions w) in
      let limit := Z.to_nat (pg_limit (pb_pagination body)) in
      let offset := Z.to_nat (pg_offset (pb_pagination body)) in
      pb_transactions body = format_txn <$> take limit (drop offset listing)
      ∧ (pg_has_more (pb_pagination body) = true
         <-> (offset + limit < length listing)%nat).
Proof.
  intros H Hstart Hend Hcat.
  apply handler_inv in H
    as (account_id & limit & offset & fetched & kept
        & Hid & Hlimit & Hoffset & Hfetch & _ & Hall & Hbody).
  specialize (Hall Hstart Hend Hcat). subst kept.
  apply get_query_param_int_bounds in Hlimit as [Hlo _];
    [| lia | intros h [= <-]; lia].
  pose proof (get_account_transactions_no_fault _ _ _ _ _ _ _ Hfetch) as Hfault.
  rewrite (get_account_transactions_returns rt _ _ _ _ _ Hfault) in Hfetch.
  injection Hfetch as <- <-.
  exists account_id. split; [exact Hid |].
  subst body. unfold body_of.
  cbn [pb_transactions pb_pagination pg_has_more pg_limit pg_offset].
  set (listing := database.query_items _ _ _ _ (transactions w)).
  cbv zeta.
  replace (Z.to_nat (limit + 1)) with (S (Z.to_nat limit)) by lia.
  set (n := Z.to_nat limit). set (rest := drop (Z.to_nat offset) listing).
  assert (Hrest : length rest = (length listing - Z.to_nat offset)%nat)
    by apply length_drop.
  destruct (limit <? Z.of_nat (length (take (S n) rest))) eqn:E;
    [apply Z.ltb_lt in E | apply Z.ltb_ge in E]; rewrite length_take in E.
  - split.
    + rewrite take_take. f_equal. f_equal. lia.
    + split; [intros _; lia | reflexivity].
  - split.
    + f_equal. rewrite !take_ge by lia. reflexivity.
    + split; [discriminate | intros Hmore; lia].
Qed.


End listing.

Lemma transaction_page_is_consistent_witness :
  ∃ body w',
    handler Demo.plain_rt (demo_listing_event (Some "2") None (Some "food"))
      demo_three_stored = (Body 200 body, w')
    ∧ Z.of_nat (length (pb_transactions body)) ≤ pg_limit (pb_pagination body)
    ∧ same_tables demo_three_stored w'.
Proof.
  destruct (handler Demo.plain_rt (demo_listing_event (Some "2") None (Some "food"))
              demo_three_stored) as [[status body | status code message] w'] eqn:Hrun.
  - assert (Hstatus : status = 200).
    { apply (f_equal (fun x => match x.1 with Body s _ => s | Error s _ _ => s end))
        in Hrun.
      cbn beta iota delta [fst] in Hrun. rewrite <- Hrun. vm_compute. reflexivity. }
    subst status. exists body, w'. split; [reflexivity |].
    destruct (transaction_page_is_consistent Demo.plain_rt _ _ _ _ Hrun)
      as (_ & _ & Hlen & _ & _ & _ & Hsame).
    split; [exact Hlen | exact Hsame].
  - apply (f_equal fst) in Hrun. vm_compute in Hrun. discriminate Hrun.
Defined.

Lemma unfiltered_page_follows_the_listing_witness :
  ∃ body w',
    handler Demo.plain_rt (demo_listing_event (Some "2") (Some "1") None)
      demo_three_stored = (Body 200 body, w')
    ∧ tv_id <$> pb_transactions body = ["t2"; "t1"]
    ∧ pg_has_more (pb_pagination body) = false.
Proof.
  destruct (handler Demo.plain_rt (demo_listing_event (Some "2") (Some "1") None)
              demo_three_stored) as [[status body | status code message] w'] eqn:Hrun.
  - assert (Hstatus : status = 200).
    { apply (f_equal (fun x => match x.1 with Body s _ => s | Error s _ _ => s end))
        in Hrun.
      cbn beta iota delta [fst] in Hrun. rewrite <- Hrun. vm_compute. reflexivity. }
    subst status. exists body, w'. split; [reflexivity |].
    assert (Hpage : pb_pagination body
                    = {| pg_total := 3; pg_limit := 2; pg_offset := 1;
                         pg_has_more := false |}).
    { apply (f_equal (fun x => match x.1 with
                               | Body _ b => pb_pagination b
                               | Error _ _ _ => pb_pagination body
                               end)) in Hrun.
      cbn beta iota delta [fst] in Hrun. rewrite <- Hrun. vm_compute. reflexivity. }
    destruct (unfiltered_page_follows_the_listing Demo.plain_rt _ _ _ _ Hrun
                eq_refl eq_refl eq_refl) as (account_id & Hid & Hrows & _).
    injection Hid as <-.
    split; [| rewrite Hpage; reflexivity].
    rewrite Hrows, Hpage. vm_compute. reflexivity.
  - apply (f_equal fst) in Hrun. vm_compute in Hrun. discriminate Hrun.
Defined.


End transaction_listing_properties.

Section authentication_properties.
Import auth.

(* ===================================================================== *)
(** * Authentication: who gets to the handler *)
(* ===================================================================== *)

Lemma substring_all (s : string) : String.substring 0 (String.length s) s = s.
Proof. induction s as [| c s IH]; simpl; [reflexivity | rewrite IH; reflexivity]. Qed.

Lemma prefix_split (p v : string) :
  String.prefix p v = true ->
  v = p +:+ String.substring (String.length p) (String.length v - String.length p) v.
Proof.
  revert v. induction p as [| c p IH]; intros v H.
  - cbn [String.length]. rewrite Nat.sub_0_r, substring_all. reflexivity.
  - destruct v as [| c' v]; [discriminate H |].
    cbn [String.prefix] in H. destruct (ascii_dec c c') as [<- |]; [| discriminate H].
    cbn [String.length Nat.sub String.substring].
    change (String c p +:+ ?x) with (String c (p +:+ x)).
    f_equal. apply IH, H.
Qed.

Lemma prefix_append (p s : string) : String.prefix p (p +:+ s) = true.
Proof.
  induction p as [| c p IH].
  - destruct s; reflexivity.
  - change (String c p +:+ s) with (String c (p +:+ s)). cbn [String.prefix].
    destruct (ascii_dec c c); [exact IH | congruence].
Qed.

Lemma substring_append (p s : string) :
  String.substring (String.length p) (String.length (p +:+ s) - String.length p) (p +:+ s)
  = s.
Proof.
  induction p as [| c p IH].
  - change (EmptyString +:+ s) with s. cbn [String.length].
    rewrite Nat.sub_0_r. apply substring_all.
  - change (String c p +:+ s) with (String c (p +:+ s)).
    cbn [String.length Nat.sub String.substring]. exact IH.
Qed.

Lemma truthy_Some (s : option string) :
  truthy s = true -> ∃ v, s = Some v ∧ v ≠ EmptyString.
Proof.
  destruct s as [v |]; [| discriminate]. intros H. exists v. split; [reflexivity |].
  intros ->. discriminate H.
Qed.

(** X22. The bearer token of a request is what follows the seven
    characters of Bearer and a space in the Authorization header, or in the
    authorization header when the former is missing or empty: the token is
    extracted exactly when that header is the prefix followed by the token.
    The prefix is compared as it is written, so a header that starts with
    bearer in small letters carries no token. *)
Theorem bearer_token_round_trip (ev : event) (token : string) :
  (extract_bearer_token ev = Some token
   <-> or_else (h_Authorization (ev_headers ev)) (h_authorization (ev_headers ev))
       = Some ("Bearer " +:+ token))
  ∧ (h_Authorization (ev_headers ev) = Some ("bearer " +:+ token) ->
     extract_bearer_token ev = None).
Proof.
  unfold extract_bearer_token. split; [split |].
  - generalize (or_else (h_Authorization (ev_headers ev))
                 (h_authorization (ev_headers ev))).
    intros header.
    destruct (truthy header) eqn:Ht; [| discriminate].
    apply truthy_Some in Ht as (v & -> & _).
    change (default EmptyString (Some v)) with v.
    destruct (String.prefix "Bearer " v) eqn:Hp; [| intros Hno; discriminate Hno].
    intros [= <-]. f_equal. apply (prefix_split _ _ Hp).
  - intros ->. change (default EmptyString (Some ?x)) with x. cbn [truthy].
    rewrite prefix_append.
    replace (Str.is_empty ("Bearer " +:+ token)) with false by reflexivity.
    cbn [negb]. f_equal. apply (substring_append "Bearer " token).
  - intros H. unfold or_else. rewrite H.
    replace (truthy (Some ("bearer " +:+ token))) with true by reflexivity.
    change (default EmptyString (Some ?x)) with x. reflexivity.
Qed.

Section guard.
Context {A : Type}.
Variable j : jose.

Lemma verify_token_cases (token : string) (cache : option (list jwk)) :
  (∃ kid keys key claims,
     get_unverified_header j token = Done (Some kid)
     ∧ (cache = Some keys ∨ cache = None ∧ fetch_jwks j = Done keys)
     ∧ key ∈ keys ∧ k_kid key = Some kid
     ∧ decode j token key = Done claims
     ∧ c_token_use claims ∈ [Some "access"; Some "id"]
     ∧ verify_token j token cache = (Valid claims, Some keys))
  ∨ (∃ message cache',
       verify_token j token cache = (Invalid message, cache')
       ∧ (cache' = cache ∨ cache = None ∧ ∃ keys, fetch_jwks j = Done keys
                                                  ∧ cache' = Some keys)).
Proof.
  unfold verify_token.
  destruct (get_unverified_header j token) as [msg | | kid];
    [right; eexists _, _; split; [reflexivity | left; reflexivity] .. |].
  destruct (truthy kid) eqn:Hkid; cbn [negb];
    [| right; eexists _, _; split; [reflexivity | left; reflexivity]].
  apply truthy_Some in Hkid as (kid' & -> & _).
  assert (Hjwks : (∃ keys, get_jwks j cache = (Done keys, Some keys)
                           ∧ (cache = Some keys ∨ cache = None ∧ fetch_jwks j = Done keys))
                  ∨ (cache = None
                     ∧ (∃ msg, get_jwks j cache = (JWTError msg, None))
                       ∨ cache = None ∧ get_jwks j cache = (OtherError, None))).
  { unfold get_jwks. destruct cache as [keys |].
    - left. exists keys. split; [reflexivity | left; reflexivity].
    - destruct (fetch_jwks j) as [msg | | keys].
      + right. left. split; [reflexivity | exists msg; reflexivity].
      + right. right. split; reflexivity.
      + left. exists keys. split; [reflexivity | right; split; reflexivity]. }
  destruct Hjwks as [(keys & -> & Hcache) | [(-> & msg & ->) | (-> & ->)]];
    [| right; eexists _, _; split; [reflexivity | left; reflexivity] ..].
  assert (Hafter : Some keys = cache
                   ∨ cache = None ∧ ∃ keys', fetch_jwks j = Done keys'
                                             ∧ Some keys = Some keys').
  { destruct Hcache as [-> | [-> Hf]]; [left; reflexivity |].
    right. split; [reflexivity |]. exists keys. split; [exact Hf | reflexivity]. }
  destruct (List.find _ keys) as [key |] eqn:Hfind;
    [| right; eexists _, _; split; [reflexivity | exact Hafter]].
  apply find_some in Hfind as [Hin Hk]. apply bool_decide_eq_true in Hk.
  apply list_elem_of_In in Hin.
  destruct (decode j token key) as [msg | | claims] eqn:Hdecode;
    [right; eexists _, _; split; [reflexivity | exact Hafter] .. |].
  cbv zeta.
  destruct (bool_decide (c_token_use claims = Some "access")
            || bool_decide (c_token_use claims = Some "id")) eqn:Huse;
    [| right; eexists _, _; split; [reflexivity | exact Hafter]].
  left. exists kid', keys, key, claims.
  split; [reflexivity |]. split; [exact Hcache |]. split; [exact Hin |].
  split; [exact Hk |]. split; [exact Hdecode |]. split; [| reflexivity].
  apply orb_true_iff in Huse as [H | H]; apply bool_decide_eq_true in H; rewrite H.
  - apply list_elem_of_here.
  - apply list_elem_of_further, list_elem_of_here.
Qed.

(** X23. A wrapped handler runs only for a caller that is
    identified: with the non-empty user id the gateway's authorizer has put
    into the request, or, failing that, with the subject of a bearer token
    whose key id names a key of the pool's key set under which the token
    decodes, with a token use of access or id (the subject itself is not
    looked at, and is passed on even when the token has none).  In every
    other case the answer is a 401 with a message, computed without the
    handler, and the state is what it was. *)
Theorem handler_runs_only_for_an_identified_caller
    (handler : option string -> world -> response A * world)
    (ev : event) (cache : option (list jwk)) (w : world) :
  let run := require_auth j handler ev cache w in
  (∃ user_id,
     get_user_id_from_event ev = Some user_id ∧ user_id ≠ EmptyString
     ∧ run = (handler (Some user_id) w, cache))
  ∨ (∃ token kid keys key claims,
       truthy (get_user_id_from_event ev) = false
       ∧ extract_bearer_token ev = Some token ∧ token ≠ EmptyString
       ∧ get_unverified_header j token = Done (Some kid)
       ∧ (cache = Some keys ∨ cache = None ∧ fetch_jwks j = Done keys)
       ∧ key ∈ keys ∧ k_kid key = Some kid
       ∧ decode j token key = Done claims
       ∧ c_token_use claims ∈ [Some "access"; Some "id"]
       ∧ run = (handler (c_sub claims) w, Some keys))
  ∨ (∃ message cache',
       message ≠ EmptyString
       ∧ run = ((Error 401 "UNAUTHORIZED" message, w), cache')).
Proof.
  intros run. subst run. unfold require_auth. cbv zeta.
  destruct (truthy (get_user_id_from_event ev)) eqn:Hid.
  { left. apply truthy_Some in Hid as (user_id & Hsome & Hne).
    exists user_id. rewrite Hsome. repeat split; assumption. }
  right.
  destruct (truthy (extract_bearer_token ev)) eqn:Htoken; cbn [negb].
  2: { right. eexists _, _. split; [| reflexivity]. discriminate. }
  apply truthy_Some in Htoken as (token & Htoken & Hne). rewrite Htoken.
  change (default EmptyString (Some token)) with token.
  destruct (verify_token_cases token cache)
    as [(kid & keys & key & claims & Hkid & Hcache & Hin & Hk & Hdecode & Huse & ->)
       | (message & cache' & -> & _)].
  - left. exists token, kid, keys, key, claims. repeat split; assumption.
  - right. unfold unauthorized.
    destruct (Str.is_empty message) eqn:He; eexists _, _; (split; [| reflexivity]).
    + discriminate.
    + intros ->. discriminate He.
Qed.

End guard.

(** X24. The key set of the pool is fetched at most once in the life
    of the process.  Once it is cached, the verification of a token no
    longer looks at the key set address: whatever a fetch would give now
    (other keys after a rotation, or a failure), the verdict is the one the
    cached keys give, and the cache stays what it is. *)
Theorem cached_keys_are_never_refreshed (j j' : jose) (token : string)
    (cache : option (list jwk)) (keys : list jwk) :
  cache = Some keys ->
  (∀ t, get_unverified_header j' t = get_unverified_header j t) ->
  (∀ t k, decode j' t k = decode j t k) ->
  verify_token j' token cache = verify_token j token cache
  ∧ (verify_token j token cache).2 = cache.
Proof.
  intros -> Hheader Hdecode. unfold verify_token. rewrite Hheader.
  destruct (get_unverified_header j token) as [msg | | kid]; [split; reflexivity .. |].
  destruct (negb (truthy kid)); [split; reflexivity |].
  cbn [get_jwks].
  destruct (List.find _ keys) as [key |]; [| split; reflexivity].
  rewrite Hdecode.
  destruct (decode j token key) as [msg | | claims]; [split; reflexivity .. |].
  cbv zeta. destruct (_ || _); split; reflexivity.
Qed.

Lemma cached_keys_are_never_refreshed_witness :
  verify_token (demo_jose OtherError) "good" (Some [demo_key])
  = verify_token (demo_jose (Done [])) "good" (Some [demo_key])
  ∧ (verify_token (demo_jose (Done [])) "good" (Some [demo_key])).2 = Some [demo_key].
Proof.
  apply (cached_keys_are_never_refreshed (demo_jose (Done [])) (demo_jose OtherError)
           "good" (Some [demo_key]) [demo_key]).
  - reflexivity.
  - intros t. reflexivity.
  - intros t k. reflexivity.
Defined.

End authentication_properties.

(* ===================================================================== *)
(** * Unlinking an account *)
(* ===================================================================== *)

Section unlinking.
Variable rt : runtime.

(** The revocation never raises and touches nothing. *)
Lemma revoke_plaid_access_quiet item_remove token w :
  ∃ revoked, delete_account.revoke_plaid_access rt item_remove token w
             = (Returned revoked, w).
Proof.
  unfold delete_account.revoke_plaid_access.
  destruct (_ || _); [exists true; reflexivity |].
  unfold try_except, bind, lift_reply.
  destruct (get_secret_value rt _) as [e | creds]; [exists false; reflexivity |].
  unfold sync_transactions.creds_key.
  destruct (creds_client_id creds); [| exists false; reflexivity].
  destruct (creds_secret creds); [| exists false; reflexivity].
  cbn [ret raise].
  destruct (item_remove _); [exists false | exists true]; reflexivity.
Qed.

Lemma handler_unlink item_remove user_id account_id w :
  delete_account.handler rt item_remove user_id (Some account_id) w
  = unlink rt user_id account_id w.
Proof.
  unfold delete_account.handler, delete_account.handler_try, unlink.
  destruct (Str.is_empty account_id) eqn:Hempty.
  { destruct (validation.validate_uuid account_id) eqn:Huuid; [| reflexivity].
    rewrite (validate_uuid_nonempty _ Huuid) in Hempty. discriminate Hempty. }
  destruct (validation.validate_uuid account_id); cbn [negb]; [| reflexivity].
  unfold bind at 1. unfold database.get_account, database.get_by_id, database.db_call.
  destruct (db_fault rt (db_calls w)); [reflexivity |].
  change (the_table (tick_db w)) with (accounts w). unfold account_key.
  destruct (accounts w !! _) as [account |]; [| reflexivity].
  cbv zeta. unfold bind at 1.
  assert (Hrevoke : (match a_plaid_access_token account with
                     | Some token =>
                         if Str.is_empty token then ret ()
                         else delete_account.revoke_plaid_access rt item_remove token ;;;
                              ret ()
                     | None => ret ()
                     end) (tick_db w) = (Returned (), tick_db w)).
  { destruct (a_plaid_access_token account) as [token |]; [| reflexivity].
    destruct (Str.is_empty token); [reflexivity |].
    unfold bind. destruct (revoke_plaid_access_quiet item_remove token (tick_db w))
      as [revoked ->]. reflexivity. }
  rewrite Hrevoke.
  unfold bind, database.delete_account, database.delete, database.db_call.
  cbn [db_calls tick_db].
  destruct (db_fault rt (S (db_calls w))); reflexivity.
Qed.

End unlinking.

Ltac refused H :=
  injection H as <- <-;
  split; [reflexivity |]; split; [reflexivity |]; split; [reflexivity |];
  split; [intros; reflexivity |];
  split; [intros Hok; cbn in Hok; discriminate Hok | intros _; reflexivity].

(** X25. Unlinking an account removes the account item and nothing
    else.  The answer and the state afterwards do not depend on what the
    aggregator replies to the revocation of the access token, a failure
    included.  Transactions, goals and budgets are as they were, and so is
    every other account; a 200 is given only for an account that was stored
    and is then gone, and any other answer leaves the accounts as they
    were.  The transactions of the account stay in their partition: after a
    200, a request for them is answered 404 for want of the account. *)
Theorem unlinking_removes_the_account_only (rt : runtime)
    (item_remove : delete_account.remove_request -> reply unit)
    (user_id account_id : string) (w w' : world)
    (r : response delete_account.unlinked) :
  delete_account.handler rt item_remove user_id (Some account_id) w = (r, w') ->
  let key := account_key user_id account_id in
  (∀ other, delete_account.handler rt other user_id (Some account_id) w = (r, w'))
  ∧ transactions w' = transactions w ∧ goals w' = goals w ∧ budgets w' = budgets w
  ∧ (∀ k, k ≠ key -> accounts w' !! k = accounts w !! k)
  ∧ (status_of r = 200 ->
       is_Some (accounts w !! key)
       ∧ accounts w' = base.delete key (accounts w)
       ∧ (db_fault rt (db_calls w') = None ->
          ∀ ev, get_transactions.ev_user_id ev = user_id ->
                get_transactions.ev_account_id ev = Some account_id ->
                get_transactions.handler rt ev w'
                = (not_found "Account not found", tick_db w')))
  ∧ (status_of r ≠ 200 -> accounts w' = accounts w).
Proof.
  intros H key. split.
  { intros other. rewrite handler_unlink. rewrite handler_unlink in H. exact H. }
  rewrite handler_unlink in H. unfold unlink in H. fold key in H.
  destruct (validation.validate_uuid account_id) eqn:Huuid; cbn [negb] in H.
  2: { refused H. }
  destruct (db_fault rt (db_calls w)).
  { refused H. }
  destruct (accounts w !! key) as [account |] eqn:Hacc.
  2: { refused H. }
  destruct (db_fault rt (S (db_calls w))).
  { refused H. }
  injection H as <- <-.
  split; [reflexivity |]. split; [reflexivity |]. split; [reflexivity |].
  split.
  { intros k Hk. cbn. apply lookup_delete_ne. intros Heq. apply Hk. rewrite Heq.
    reflexivity. }
  split; [| intros Hno; exfalso; apply Hno; reflexivity].
  intros _. split; [eexists; reflexivity |]. split; [reflexivity |].
  intros Hfault ev Huser Hid.
  unfold get_transactions.handler, get_transactions.handler_try.
  rewrite Hid, (validate_uuid_nonempty _ Huuid), Huuid. cbn [negb].
  unfold bind at 1. unfold database.get_account, database.get_by_id, database.db_call.
  rewrite Hfault, Huser.
  cbn [the_table AccountRepository accounts tick_db set_accounts].
  fold (account_key user_id account_id). fold key.
  rewrite lookup_delete_eq. reflexivity.
Qed.

Lemma unlinking_removes_the_account_only_witness :
  let run := delete_account.handler Demo.plain_rt
               (fun _ => Raised (ExternalError "HTTP Error 500"))
               Demo.user (Some Demo.account_id) demo_three_stored in
  status_of run.1 = 200
  ∧ transactions run.2 = transactions demo_three_stored
  ∧ accounts run.2 !! account_key Demo.user Demo.account_id = None.
Proof.
  cbv zeta.
  destruct (unlinking_removes_the_account_only Demo.plain_rt
              (fun _ => Raised (ExternalError "HTTP Error 500"))
              Demo.user Demo.account_id demo_three_stored _ _
              (surjective_pairing _)) as (_ & Htxns & _ & _ & _ & Hgone & _).
  assert (Hstatus : status_of (delete_account.handler Demo.plain_rt
                                 (fun _ => Raised (ExternalError "HTTP Error 500"))
                                 Demo.user (Some Demo.account_id)
                                 demo_three_stored).1 = 200)
    by (vm_compute; reflexivity).
  split; [exact Hstatus |]. split; [exact Htxns |].
  destruct (Hgone Hstatus) as (_ & -> & _).
  apply lookup_delete_eq.
Defined.
